(** * Verification of the agentic RAG pipeline

    A shallow embedding of the in-process multi-agent pipeline
    (message protocol, ingestion/chunking, vector store, retrieval,
    response synthesis, coordinator) together with the properties its
    specification states about it.

    Modelling conventions.
    - Python [int] is [Z]; [len] results are [Z.of_nat]. A [float] is
      carried as its 64-bit pattern; what the pattern is worth is read
      off its exponent and mantissa fields only to tell the infinities
      and the NaNs from the finite numbers, and no arithmetic is done.
    - Python [str] is [string]; the model covers the code points below
      256, with Python's own classification of whitespace and case on
      that range.
    - Dynamically typed values (payload entries, chunk attributes) are
      [pyval]; a [dict] with string keys is an insertion-ordered
      association list with unique keys.
    - The fields that the code annotates are typed: the four string
      fields, the payload and the timestamp of a message, and the
      identifier under which a vector is stored ([vector_id: str]).
      Where a dynamically typed value enters such a field the embedding
      converts it, and a value of another type is outside the model: the
      properties about messages and about indexing are stated for values
      of the annotated types.
    - Exceptions are [Error msg] results, [msg] standing for [str(e)].
    - [uuid.uuid4()], [datetime.now()], [print], the embedding model, the
      FAISS index search and the per-format parsers are effects of the
      outside world, gathered in the class [Externals] and in the
      [World] record that every operation threads. *)

From Stdlib Require Import ZArith List String Ascii Lia Bool.
From Stdlib Require Import DecimalString DecimalZ DecimalPos DecimalFacts.
From stdpp Require Import base gmap strings list fin_maps.

Open Scope Z_scope.

(** ** Python values *)

Module Py.

#[local] Set Warnings "-register-all".

(** [str(e)] of a raised exception. *)
Definition exn := string.

Inductive pyval : Type :=
| PNone : pyval
| PBool : bool -> pyval
| PInt : Z -> pyval
| PFloat : Z -> pyval
| PStr : string -> pyval
| PBytes : string -> pyval
| PList : list pyval -> pyval
| PTuple : list pyval -> pyval
| PDict : list (string * pyval) -> pyval.

Definition dict := list (string * pyval).

(** Truth value of an object, as tested by [if x], [not x], [all]. *)
Definition truthy (v : pyval) : bool :=
  match v with
  | PNone => false
  | PBool b => b
  | PInt z => negb (z =? 0)
  | PFloat f => negb ((f =? 0) || (f =? 2 ^ 63))
  | PStr s => negb (String.eqb s "")
  | PBytes s => negb (String.eqb s "")
  | PList l => match l with [] => false | _ => true end
  | PTuple l => match l with [] => false | _ => true end
  | PDict d => match d with [] => false | _ => true end
  end.

(** [d.get(k)] ([None] of Rocq when the key is absent). *)
Fixpoint dict_lookup (k : string) (d : dict) : option pyval :=
  match d with
  | [] => None
  | (k', v) :: d' => if String.eqb k k' then Some v else dict_lookup k d'
  end.

(** [d.get(k, dflt)]. *)
Definition dict_get (k : string) (dflt : pyval) (d : dict) : pyval :=
  match dict_lookup k d with Some v => v | None => dflt end.

(** [d[k] = v]: an existing key keeps its position, a new key goes last. *)
Fixpoint dict_set (k : string) (v : pyval) (d : dict) : dict :=
  match d with
  | [] => [(k, v)]
  | (k', v') :: d' =>
      if String.eqb k k' then (k', v) :: d' else (k', v') :: dict_set k v d'
  end.

(** [{**d, **more}]: the entries of [more] are set one after the other. *)
Definition dict_update (d more : dict) : dict :=
  fold_left (fun acc kv => dict_set (fst kv) (snd kv) acc) more d.

(** [d[k]], raising [KeyError(k)] whose [str] is the quoted key. *)
Definition dict_item (k : string) (d : dict) : result pyval exn :=
  match dict_lookup k d with
  | Some v => Ok v
  | None => Error ("'" +:+ k +:+ "'")
  end.

(** Induction over values, through the lists they nest. *)
Section PyvalInduction.
Variable P : pyval -> Prop.
Hypothesis HNone : P PNone.
Hypothesis HBool : forall b, P (PBool b).
Hypothesis HInt : forall z, P (PInt z).
Hypothesis HFloat : forall f, P (PFloat f).
Hypothesis HStr : forall s, P (PStr s).
Hypothesis HBytes : forall s, P (PBytes s).
Hypothesis HList : forall l, Forall P l -> P (PList l).
Hypothesis HTuple : forall l, Forall P l -> P (PTuple l).
Hypothesis HDict : forall d, Forall (fun kv => P (snd kv)) d -> P (PDict d).

Fixpoint pyval_nested_ind (v : pyval) : P v :=
  match v with
  | PNone => HNone
  | PBool b => HBool b
  | PInt z => HInt z
  | PFloat f => HFloat f
  | PStr s => HStr s
  | PBytes s => HBytes s
  | PList l =>
      HList l ((fix go (l : list pyval) : Forall P l :=
                  match l with
                  | [] => @List.Forall_nil _ P
                  | x :: l' => @List.Forall_cons _ P x l' (pyval_nested_ind x) (go l')
                  end) l)
  | PTuple l =>
      HTuple l ((fix go (l : list pyval) : Forall P l :=
                   match l with
                   | [] => @List.Forall_nil _ P
                   | x :: l' => @List.Forall_cons _ P x l' (pyval_nested_ind x) (go l')
                   end) l)
  | PDict d =>
      HDict d ((fix go (d : list (string * pyval))
                  : Forall (fun kv => P (snd kv)) d :=
                  match d with
                  | [] => @List.Forall_nil _ _
                  | kv :: d' =>
                      @List.Forall_cons _ (fun kv => P (snd kv)) kv d'
                        (pyval_nested_ind (snd kv)) (go d')
                  end) d)
  end.

End PyvalInduction.

(** *** Strings *)

(** [ch.isspace()] on the code points below 256. *)
Definition isspace (c : ascii) : bool :=
  let n := N_of_ascii c in
  ((9 <=? n) && (n <=? 13) || (28 <=? n) && (n <=? 32)
   || (n =? 133) || (n =? 160))%N.

Fixpoint lstrip (s : string) : string :=
  match s with
  | EmptyString => EmptyString
  | String c s' => if isspace c then lstrip s' else s
  end.

Fixpoint string_rev (s : string) : string :=
  match s with
  | EmptyString => EmptyString
  | String c s' => string_rev s' +:+ String c EmptyString
  end.

Definition rstrip (s : string) : string := string_rev (lstrip (string_rev s)).

(** [s.strip()]. *)
Definition strip (s : string) : string := rstrip (lstrip s).

(** [s.split()]: the maximal runs of characters that are not whitespace.
    [cur] is the run being read. *)
Fixpoint split_from (cur : string) (s : string) : list string :=
  match s with
  | EmptyString => if String.eqb cur "" then [] else [cur]
  | String c s' =>
      if isspace c
      then (if String.eqb cur "" then split_from "" s'
            else cur :: split_from "" s')
      else split_from (cur +:+ String c EmptyString) s'
  end.

Definition split (s : string) : list string := split_from "" s.

(** [sep.join(l)]. *)
Fixpoint join (sep : string) (l : list string) : string :=
  match l with
  | [] => ""
  | [w] => w
  | w :: l' => w +:+ sep +:+ join sep l'
  end.

(** [ch.lower()] on the code points below 256: the letters A-Z and the
    accented capitals 192-222 (215, the multiplication sign, apart). *)
Definition lower_char (c : ascii) : ascii :=
  let n := N_of_ascii c in
  if ((65 <=? n) && (n <=? 90) || (192 <=? n) && (n <=? 222) && negb (n =? 215))%N
  then ascii_of_N (n + 32) else c.

Fixpoint lower (s : string) : string :=
  match s with
  | EmptyString => EmptyString
  | String c s' => String (lower_char c) (lower s')
  end.

(** [s.endswith(suffix)]. *)
Definition endswith (s suffix : string) : bool :=
  let n := String.length s in
  let m := String.length suffix in
  (m <=? n)%nat && String.eqb (substring (n - m) m s) suffix.

(** [str(z)] of an integer. *)
Definition str_of_int (z : Z) : string := NilZero.string_of_int (Z.to_int z).

(** *** Floats *)

(** The exponent and mantissa fields of a binary64 pattern. *)
Definition float_exponent (f : Z) : Z := (f / 2 ^ 52) mod 2 ^ 11.
Definition float_mantissa (f : Z) : Z := f mod 2 ^ 52.

(** [f != f]: the exponent field is full and the mantissa is not zero. *)
Definition is_nan (f : Z) : bool :=
  (float_exponent f =? 2047) && negb (float_mantissa f =? 0).

(** [float('inf')], [float('-inf')] and [float('nan')]. *)
Definition pos_inf : Z := 2047 * 2 ^ 52.
Definition neg_inf : Z := 2 ^ 63 + 2047 * 2 ^ 52.
Definition nan : Z := 2047 * 2 ^ 52 + 2 ^ 51.

(** A pattern of 64 bits that stands for a number. *)
Definition is_finite (f : Z) : bool :=
  (0 <=? f) && (f <? 2 ^ 64) && negb (float_exponent f =? 2047).

(** *** Sequences *)

Definition len {A} (l : list A) : Z := Z.of_nat (length l).

(** A slice bound, clamped as [l[a:b]] clamps it: a negative bound counts
    from the end. *)
Definition clamp (n i : Z) : Z :=
  if i <? 0 then Z.max (i + n) 0 else Z.min i n.

(** [l[a:b]]. *)
Definition slice {A} (l : list A) (a b : Z) : list A :=
  let n := len l in
  let a' := clamp n a in
  let b' := clamp n b in
  firstn (Z.to_nat (b' - a')) (skipn (Z.to_nat a') l).

(** [range(start, stop, step)] as the list it enumerates; a zero step
    raises [ValueError]. *)
Definition range (start stop step : Z) : result (list Z) exn :=
  if step =? 0 then Error "range() arg 3 must not be zero"%string
  else
    let count :=
      if 0 <? step then (stop - start + step - 1) / step
      else (start - stop - step - 1) / (- step) in
    Ok (map (fun k => start + Z.of_nat k * step) (seq 0 (Z.to_nat count))).

End Py.

Import Py.


(** ** The outside world *)

(** What the pipeline obtains from libraries and from the operating
    system. Random and time-dependent values are read from oracles
    indexed by the number of earlier reads; numeric arrays, the
    embedding model and the parsers are kept abstract. *)
Class Externals := {
  (** [str(uuid.uuid4())] at the k-th draw. *)
  uuid4_str : nat -> string;
  (** [datetime.now().isoformat()] at the k-th reading of the clock. *)
  now_isoformat : nat -> string;
  (** [str(v)] of a float, bytes or container value. *)
  repr_compound : pyval -> string;
  (** [float.__repr__] of a finite float, [float(text)], and the
      comparison [n < f] of an integer with a float. *)
  float_repr : Z -> string;
  float_of_str : string -> Z;
  int_lt_float : Z -> Z -> bool;
  (** The levels of recursion that the recursion limit of the
      interpreter leaves to the encoder of [json.dumps] and to the
      decoder of [json.loads], where the pipeline calls them. *)
  json_encoder_depth : nat;
  json_decoder_depth : nat;
  (** [np.ndarray] with [len], [astype('float32')], the test
      [np.linalg.norm(v) > 0] and the quotient [v / np.linalg.norm(v)]. *)
  ndarray : Type;
  array_len : ndarray -> Z;
  astype_float32 : ndarray -> ndarray;
  norm_is_positive : ndarray -> bool;
  divide_by_norm : ndarray -> ndarray;
  (** [faiss.IndexFlatIP.search(q, k)] over the stored rows, for the
      Python value [k] it is called with: the pairs (similarity, row
      index) of its first result row, or the exception it raises. *)
  faiss_search : list ndarray -> ndarray -> pyval -> result (list (Z * Z)) exn;
  (** [LocalEmbeddingGenerator]: its state (vectorizer, corpus, fitted
      flag, and the random generator it draws from); the [try] block of
      [generate_embedding], which cleans the text, refits the vectorizer
      on the corpus and transforms the text, and may raise; and the
      vector [np.random.rand(dimension).astype(np.float32) * 0.1] of its
      [except] block. *)
  embedder : Type;
  embedder_init : embedder;
  tfidf_vector : embedder -> pyval -> embedder * result ndarray exn;
  random_vector : embedder -> embedder * ndarray;
  (** [DocumentParser.parse(file_content, parser_type)]. *)
  document_parse : pyval -> string -> result dict exn;
  (** [LocalLLMGenerator]: extraction of the relevant sentences followed
      by the templated answer, for a non-empty context. *)
  contextual_response : pyval -> pyval -> result string exn;
}.

(** [str(v)], as an f-string formats a value. *)
Definition py_str `{Externals} (v : pyval) : string :=
  match v with
  | PNone => "None"
  | PBool true => "True"
  | PBool false => "False"
  | PInt z => str_of_int z
  | PStr s => s
  | _ => repr_compound v
  end.

(** [type(v).__name__]. *)
Definition type_name (v : pyval) : string :=
  match v with
  | PNone => "NoneType"
  | PBool _ => "bool"
  | PInt _ => "int"
  | PFloat _ => "float"
  | PStr _ => "str"
  | PBytes _ => "bytes"
  | PList _ => "list"
  | PTuple _ => "tuple"
  | PDict _ => "dict"
  end.

(** [len(v)]. *)
Definition py_len (v : pyval) : result Z exn :=
  match v with
  | PStr s | PBytes s => Ok (Z.of_nat (String.length s))
  | PList l | PTuple l => Ok (len l)
  | PDict d => Ok (len d)
  | _ => Error ("object of type '" +:+ type_name v +:+ "' has no len()")
  end.

(** [min(v, n)] for an integer [n]: [n] when [n < v], else [v] itself,
    which keeps its type; the comparison raises [TypeError] on a value
    that is no number. *)
Definition min_with_int `{Externals} (v : pyval) (n : Z) : result pyval exn :=
  match v with
  | PInt k => Ok (if n <? k then PInt n else v)
  | PBool b => Ok (if n <? (if b then 1 else 0) then PInt n else v)
  | PFloat f => Ok (if int_lt_float n f then PInt n else v)
  | _ => Error ("'<' not supported between instances of 'int' and '"
                +:+ type_name v +:+ "'")
  end.

(** ** Message protocol *)

Module MCP.

Record MCPMessage := {
  sender : string;
  receiver : string;
  type : string;
  trace_id : string;
  payload : dict;
  timestamp : option string;
}.

(** [MCPMessageTypes]. *)
Definition DOCUMENT_UPLOAD : string := "DOCUMENT_UPLOAD".
Definition DOCUMENT_PARSED : string := "DOCUMENT_PARSED".
Definition INGESTION_COMPLETE : string := "INGESTION_COMPLETE".
Definition QUERY_REQUEST : string := "QUERY_REQUEST".
Definition RETRIEVAL_REQUEST : string := "RETRIEVAL_REQUEST".
Definition RETRIEVAL_RESULT : string := "RETRIEVAL_RESULT".
Definition CONTEXT_RESPONSE : string := "CONTEXT_RESPONSE".
Definition LLM_REQUEST : string := "LLM_REQUEST".
Definition LLM_RESPONSE : string := "LLM_RESPONSE".
Definition ERROR : string := "ERROR".
Definition SUCCESS : string := "SUCCESS".
Definition STATUS_UPDATE : string := "STATUS_UPDATE".

Definition opt_str (o : option string) : pyval :=
  match o with Some s => PStr s | None => PNone end.

(** [MCPMessage.to_dict]: [asdict] copies the six fields, the payload
    recursively. *)
Definition to_dict (m : MCPMessage) : dict :=
  [ ("sender", PStr (sender m));
    ("receiver", PStr (receiver m));
    ("type", PStr (type m));
    ("trace_id", PStr (trace_id m));
    ("payload", PDict (payload m));
    ("timestamp", opt_str (timestamp m)) ].

End MCP.

(** ** The [json] module on the values of the model *)

Module Json.

Definition quote : ascii := "034".
Definition backslash : ascii := "092".
Definition newline : ascii := "010".

Definition hex_digit (n : N) : ascii :=
  if (n <? 10)%N then ascii_of_N (48 + n) else ascii_of_N (87 + n).

(** One character of a string under [ensure_ascii]: the two-character
    escapes, then [\u00XX] outside the printable range 32..126. *)
Definition escape_char (c : ascii) : string :=
  let n := N_of_ascii c in
  let esc (e : ascii) := String backslash (String e "") in
  if (n =? 34)%N then esc quote
  else if (n =? 92)%N then esc backslash
  else if (n =? 10)%N then esc "n"%char
  else if (n =? 13)%N then esc "r"%char
  else if (n =? 9)%N then esc "t"%char
  else if (n =? 8)%N then esc "b"%char
  else if (n =? 12)%N then esc "f"%char
  else if ((n <? 32) || (126 <? n))%N
  then String backslash (String "u" (String "0" (String "0"
         (String (hex_digit (n / 16)) (String (hex_digit (n mod 16)) "")))))
  else String c "".

Fixpoint escape_string (s : string) : string :=
  match s with
  | EmptyString => ""
  | String c s' => escape_char c +:+ escape_string s'
  end.

Definition encode_str (s : string) : string :=
  String quote (escape_string s +:+ String quote "").

Fixpoint spaces (n : nat) : string :=
  match n with O => "" | S n' => String " " (spaces n') end.

(** The line break and indentation that [indent=2] puts before an item
    at nesting depth [lvl]. *)
Definition newline_indent (lvl : nat) : string :=
  String newline (spaces (2 * lvl)).

(** The items of a container, joined by a comma and the line break of
    depth [lvl]; the first item that could not be encoded decides. *)
Fixpoint join_items (lvl : nat) (items : list (result string exn))
    : result string exn :=
  match items with
  | [] => Ok ""
  | [r] => r
  | r :: rest =>
      match r, join_items lvl rest with
      | Ok a, Ok b => Ok (a +:+ "," +:+ newline_indent lvl +:+ b)
      | Error e, _ => Error e
      | _, Error e => Error e
      end
  end.

(** A key with its encoded value. *)
Definition encode_member (k : string) (r : result string exn) : result string exn :=
  match r with
  | Ok a => Ok (encode_str k +:+ ": " +:+ a)
  | Error e => Error e
  end.

(** The joined items of a non-empty container between its brackets. *)
Definition bracket (opening closing : string) (lvl : nat) (r : result string exn)
    : result string exn :=
  match r with
  | Ok items =>
      Ok (opening +:+ newline_indent (S lvl) +:+ items
          +:+ newline_indent lvl +:+ closing)
  | Error e => Error e
  end.

(** [sys.get_int_max_str_digits()]: the longest integer, in decimal
    digits, that the interpreter converts to or from text. *)
Definition max_str_digits : nat := 4300.

(** The number of decimal digits of an integer. *)
Definition int_digits (z : Z) : nat := String.length (str_of_int (Z.abs z)).

(** [int.__repr__], which raises [ValueError] beyond the limit. *)
Definition int_repr (z : Z) : result string exn :=
  if (max_str_digits <? int_digits z)%nat
  then Error ("Exceeds the limit (4300 digits) for integer string conversion; "
              +:+ "use sys.set_int_max_str_digits() to increase the limit")
  else Ok (str_of_int z).

Section Codec.
Context `{Externals}.

(** [floatstr] of the encoder: the three special forms, else
    [float.__repr__]. *)
Definition floatstr (f : Z) : string :=
  if is_nan f then "NaN"
  else if f =? pos_inf then "Infinity"
  else if f =? neg_inf then "-Infinity"
  else float_repr f.

(** [RecursionError] unless [need] levels of recursion are left at
    nesting depth [lvl]. *)
Definition recursion_guard (lvl need : nat) (r : result string exn)
    : result string exn :=
  if (lvl + need <=? json_encoder_depth)%nat then r
  else Error "maximum recursion depth exceeded".

(** [json.dumps(v, indent=2)] at nesting depth [lvl]. A [bytes] object
    makes the encoder raise [TypeError], an integer of too many digits
    [ValueError]; a tuple is written as a list. The encoder is the
    recursive generator of the library: a container takes one level of
    recursion and, unless it is empty, one more for the calls it makes;
    a float takes one for [floatstr] and, unless it is a special value,
    one more for [float.__repr__]. *)
Fixpoint encode (lvl : nat) (v : pyval) : result string exn :=
  match v with
  | PNone => Ok "null"
  | PBool true => Ok "true"
  | PBool false => Ok "false"
  | PInt z => int_repr z
  | PFloat f =>
      recursion_guard lvl
        (if is_nan f || (f =? pos_inf) || (f =? neg_inf) then 1 else 2)
        (Ok (floatstr f))
  | PStr s => Ok (encode_str s)
  | PBytes _ => Error "Object of type bytes is not JSON serializable"
  | PList l | PTuple l =>
      match l with
      | [] => recursion_guard lvl 1 (Ok "[]")
      | _ :: _ =>
          recursion_guard lvl 2
            (bracket "[" "]" lvl (join_items (S lvl) (map (encode (S lvl)) l)))
      end
  | PDict d =>
      match d with
      | [] => recursion_guard lvl 1 (Ok "{}")
      | _ :: _ =>
          recursion_guard lvl 2
            (bracket "{" "}" lvl
               (join_items (S lvl)
                  (map (fun kv => encode_member (fst kv) (encode (S lvl) (snd kv))) d)))
      end
  end.

Definition dumps (v : pyval) : result string exn := encode 0 v.

(** *** Decoding *)

Definition is_ws (c : ascii) : bool :=
  let n := N_of_ascii c in ((n =? 32) || (n =? 9) || (n =? 10) || (n =? 13))%N.

Fixpoint skip_ws (s : string) : string :=
  match s with
  | EmptyString => EmptyString
  | String c s' => if is_ws c then skip_ws s' else s
  end.

Definition is_digit (c : ascii) : bool :=
  let n := N_of_ascii c in ((48 <=? n) && (n <=? 57))%N.

Definition hex_value (c : ascii) : option N :=
  let n := N_of_ascii c in
  if ((48 <=? n) && (n <=? 57))%N then Some (n - 48)%N
  else if ((97 <=? n) && (n <=? 102))%N then Some (n - 87)%N
  else if ((65 <=? n) && (n <=? 70))%N then Some (n - 55)%N
  else None.

(** The character a two-character escape stands for. *)
Definition unescape (e : ascii) : option ascii :=
  let n := N_of_ascii e in
  if (n =? 34)%N then Some quote
  else if (n =? 92)%N then Some backslash
  else if (n =? 47)%N then Some "/"%char
  else if (n =? 98)%N then Some "008"%char
  else if (n =? 102)%N then Some "012"%char
  else if (n =? 110)%N then Some "010"%char
  else if (n =? 114)%N then Some "013"%char
  else if (n =? 116)%N then Some "009"%char
  else None.

(** The scanner of a string body, from just after its opening quote to
    just after its closing quote (strict mode: a raw control character is
    refused). An escape [\uXXXX] above 255 has no image in the model. *)
Fixpoint scanstring (s : string) : option (string * string) :=
  let cons (c : ascii) (r : option (string * string)) :=
    match r with Some (t, rest) => Some (String c t, rest) | None => None end in
  match s with
  | EmptyString => None
  | String c s' =>
      if Ascii.eqb c quote then Some ("", s')
      else if Ascii.eqb c backslash then
        match s' with
        | EmptyString => None
        | String e s'' =>
            if Ascii.eqb e "u" then
              match s'' with
              | String h1 (String h2 (String h3 (String h4 r))) =>
                  match hex_value h1, hex_value h2, hex_value h3, hex_value h4 with
                  | Some a, Some b, Some c', Some d =>
                      let n := (((a * 16 + b) * 16 + c') * 16 + d)%N in
                      if (n <? 256)%N then cons (ascii_of_N n) (scanstring r) else None
                  | _, _, _, _ => None
                  end
              | _ => None
              end
            else
              match unescape e with
              | Some ch => cons ch (scanstring s'')
              | None => None
              end
        end
      else if (N_of_ascii c <? 32)%N then None
      else cons c (scanstring s')
  end.

Fixpoint span_digits (s : string) : string * string :=
  match s with
  | EmptyString => ("", "")
  | String c s' =>
      if is_digit c then let '(ds, r) := span_digits s' in (String c ds, r)
      else ("", s)
  end.

(** [0|[1-9]\d*] *)
Definition scan_int_part (s : string) : option (string * string) :=
  match s with
  | EmptyString => None
  | String c s' =>
      if Ascii.eqb c "0" then Some ("0", s')
      else if is_digit c then Some (span_digits s)
      else None
  end.

(** [(\.\d+)?] *)
Definition scan_frac (s : string) : string * string :=
  match s with
  | String c (String d s') =>
      if Ascii.eqb c "." && is_digit d
      then let '(ds, r) := span_digits (String d s') in (String c ds, r)
      else ("", s)
  | _ => ("", s)
  end.

(** [([eE][-+]?\d+)?] *)
Definition scan_exp (s : string) : string * string :=
  match s with
  | String e s' =>
      if Ascii.eqb e "e" || Ascii.eqb e "E" then
        let '(sign, s1) :=
          match s' with
          | String g s'' =>
              if Ascii.eqb g "+" || Ascii.eqb g "-" then (String g "", s'') else ("", s')
          | EmptyString => ("", s')
          end in
        match span_digits s1 with
        | (EmptyString, _) => ("", s)
        | (ds, r) => (String e (sign +:+ ds), r)
        end
      else ("", s)
  | EmptyString => ("", s)
  end.

Definition int_of_str (s : string) : Z :=
  match NilZero.int_of_string s with Some d => Z.of_int d | None => 0 end.

(** The number at the head of [s], as its sign, integer part, fraction
    and exponent, with what follows it. *)
Definition scan_number_parts (s : string)
    : option (string * string * string * string * string) :=
  let '(sign, s1) :=
    match s with
    | String c r => if Ascii.eqb c "-" then ("-", r) else ("", s)
    | EmptyString => ("", s)
    end in
  match scan_int_part s1 with
  | None => None
  | Some (ip, r) =>
      let '(frac, r1) := scan_frac r in
      let '(ex, r2) := scan_exp r1 in
      Some (sign, ip, frac, ex, r2)
  end.

(** A number without fraction and exponent is an [int], which is refused
    beyond the digit limit; any other is a [float]. *)
Definition scan_number (s : string) : option (pyval * string) :=
  match scan_number_parts s with
  | None => None
  | Some (sign, ip, frac, ex, r2) =>
      if String.eqb frac "" && String.eqb ex ""
      then
        if (max_str_digits <? String.length ip)%nat then None
        else Some (PInt (int_of_str (sign +:+ ip)), r2)
      else Some (PFloat (float_of_str (sign +:+ ip +:+ frac +:+ ex)), r2)
  end.

Fixpoint strip_prefix (p s : string) : option string :=
  match p, s with
  | EmptyString, _ => Some s
  | String a p', String b s' => if Ascii.eqb a b then strip_prefix p' s' else None
  | String _ _, EmptyString => None
  end.

(** The scalar forms other than strings: the three literals, a number,
    then the three float constants. *)
Definition scan_atom (s : string) : option (pyval * string) :=
  let lit (p : string) (v : pyval) :=
    match strip_prefix p s with Some r => Some (v, r) | None => None end in
  match lit "null" PNone with Some x => Some x | None =>
  match lit "true" (PBool true) with Some x => Some x | None =>
  match lit "false" (PBool false) with Some x => Some x | None =>
  match scan_number s with Some x => Some x | None =>
  match lit "NaN" (PFloat nan) with Some x => Some x | None =>
  match lit "Infinity" (PFloat pos_inf) with Some x => Some x | None =>
  lit "-Infinity" (PFloat neg_inf)
  end end end end end end.

(** [scan_once], [JSONArray] and [JSONObject] of the decoder. The input
    of [decode] starts at the value; [decode_array] starts at an element
    and [decode_object] just after the opening quote of a key. Every
    call spends one unit of [fuel]; [lvl] counts the containers entered,
    and a container met where the recursion limit leaves no level is
    refused. A failure is [None], whatever the exception. *)
Fixpoint decode (fuel : nat) (lvl : nat) (s : string) {struct fuel}
    : option (pyval * string) :=
  match fuel with
  | O => None
  | S fuel' =>
      match s with
      | EmptyString => None
      | String c s' =>
          if Ascii.eqb c quote then
            match scanstring s' with
            | Some (x, r) => Some (PStr x, r)
            | None => None
            end
          else if Ascii.eqb c "{" then
            if (json_decoder_depth <=? lvl)%nat then None
            else
              match skip_ws s' with
              | EmptyString => None
              | String c1 r1 =>
                  if Ascii.eqb c1 "}" then Some (PDict [], r1)
                  else if Ascii.eqb c1 quote then
                    match decode_object fuel' (S lvl) r1 with
                    | Some (pairs, r) => Some (PDict (dict_update [] pairs), r)
                    | None => None
                    end
                  else None
              end
          else if Ascii.eqb c "[" then
            if (json_decoder_depth <=? lvl)%nat then None
            else
              match skip_ws s' with
              | EmptyString => None
              | String c1 r1 =>
                  if Ascii.eqb c1 "]" then Some (PList [], r1)
                  else
                    match decode_array fuel' (S lvl) (String c1 r1) with
                    | Some (l, r) => Some (PList l, r)
                    | None => None
                    end
              end
          else scan_atom s
      end
  end
with decode_array (fuel : nat) (lvl : nat) (s : string) {struct fuel}
    : option (list pyval * string) :=
  match fuel with
  | O => None
  | S fuel' =>
      match decode fuel' lvl s with
      | None => None
      | Some (v, r) =>
          match skip_ws r with
          | EmptyString => None
          | String c r1 =>
              if Ascii.eqb c "]" then Some ([v], r1)
              else if Ascii.eqb c "," then
                match decode_array fuel' lvl (skip_ws r1) with
                | Some (l, r2) => Some (v :: l, r2)
                | None => None
                end
              else None
          end
      end
  end
with decode_object (fuel : nat) (lvl : nat) (s : string) {struct fuel}
    : option (list (string * pyval) * string) :=
  match fuel with
  | O => None
  | S fuel' =>
      match scanstring s with
      | None => None
      | Some (k, r) =>
          match skip_ws r with
          | EmptyString => None
          | String c r1 =>
              if Ascii.eqb c ":" then
                match decode fuel' lvl (skip_ws r1) with
                | None => None
                | Some (v, r2) =>
                    match skip_ws r2 with
                    | EmptyString => None
                    | String c2 r3 =>
                        if Ascii.eqb c2 "}" then Some ([(k, v)], r3)
                        else if Ascii.eqb c2 "," then
                          match skip_ws r3 with
                          | EmptyString => None
                          | String c3 r4 =>
                              if Ascii.eqb c3 quote then
                                match decode_object fuel' lvl r4 with
                                | Some (l, r5) => Some ((k, v) :: l, r5)
                                | None => None
                                end
                              else None
                          end
                        else None
                    end
                end
              else None
          end
      end
  end.

(** [json.loads(s)]: one value, surrounded by optional whitespace. The
    text of the exception is not modelled. *)
Definition loads (s : string) : result pyval exn :=
  match decode (S (String.length s)) 0 (skip_ws s) with
  | Some (v, r) =>
      if String.eqb (skip_ws r) "" then Ok v else Error "Extra data"
  | None => Error "Expecting value"
  end.

End Codec.
End Json.

(** ** Vector store *)

Module VectorStore.

(** Python objects that are shared by reference: the metadata
    dictionaries handed to [add_vector]. An address names one object. *)
Abbreviation addr := nat (only parsing).
Abbreviation heap := (gmap nat dict) (only parsing).

Section Store.
Context `{Externals}.

(** The object at an address. Every address the store holds was
    allocated before it was stored, so the default is never read in a
    run; it makes the function total. *)
Definition deref (h : heap) (a : addr) : dict := default [] (h !! a).

(** [faiss.IndexFlatIP]: the dimension and the rows in insertion order. *)
Record IndexFlatIP := {
  d : Z;
  xb : list ndarray;
}.

Definition ntotal (ix : IndexFlatIP) : Z := len (xb ix).

(** [index.add(x.reshape(1, -1))]: the row must have the dimension of
    the index, which the wrapper asserts without a message. *)
Definition index_add (ix : IndexFlatIP) (x : ndarray) : result IndexFlatIP exn :=
  if array_len x =? d ix then Ok {| d := d ix; xb := xb ix ++ [x] |}
  else Error "".

Record t := {
  dimension : Z;
  index : IndexFlatIP;
  metadata_store : gmap string addr;
  id_to_index : gmap string Z;
  index_to_id : gmap Z string;
  next_index : Z;
}.

(** [VectorStore(dimension)]. *)
Definition __init__ (dimension : Z) : t :=
  {| dimension := dimension;
     index := {| d := dimension; xb := [] |};
     metadata_store := ∅;
     id_to_index := ∅;
     index_to_id := ∅;
     next_index := 0 |}.

(** Normalisation for cosine similarity, shared by insertion and query. *)
Definition normalize (embedding : ndarray) : ndarray :=
  let embedding := astype_float32 embedding in
  if norm_is_positive embedding then divide_by_norm embedding else embedding.

(** [add_vector(vector_id, embedding, metadata)]; [metadata] is the
    address of the caller's dictionary, which is stored as it is. *)
Definition add_vector (vs : t) (vector_id : string) (embedding : ndarray)
    (metadata : addr) : result t exn :=
  match index_add (index vs) (normalize embedding) with
  | Error e => Error ("Failed to add vector " +:+ vector_id +:+ ": " +:+ e)
  | Ok ix =>
      let current_index := next_index vs in
      Ok {| dimension := dimension vs;
            index := ix;
            metadata_store := <[vector_id := metadata]> (metadata_store vs);
            id_to_index := <[vector_id := current_index]> (id_to_index vs);
            index_to_id := <[current_index := vector_id]> (index_to_id vs);
            next_index := current_index + 1 |}
  end.

(** The conversion loop of [search]: rows unknown to [index_to_id] are
    dropped. *)
Fixpoint convert_results (index_to_id : gmap Z string) (hits : list (Z * Z))
    : list (string * Z) :=
  match hits with
  | [] => []
  | (similarity, ix) :: rest =>
      match index_to_id !! ix with
      | Some vector_id => (vector_id, similarity) :: convert_results index_to_id rest
      | None => convert_results index_to_id rest
      end
  end.

(** [search(query_embedding, top_k)]: the index is asked for
    [min(top_k, ntotal)] rows. *)
Definition search (vs : t) (query_embedding : ndarray) (top_k : pyval)
    : result (list (string * Z)) exn :=
  if ntotal (index vs) =? 0 then Ok []
  else
    let q := normalize query_embedding in
    match min_with_int top_k (ntotal (index vs)) with
    | Error e => Error ("Vector search failed: " +:+ e)
    | Ok k =>
        match faiss_search (xb (index vs)) q k with
        | Error e => Error ("Vector search failed: " +:+ e)
        | Ok hits => Ok (convert_results (index_to_id vs) hits)
        end
    end.

(** [get_metadata(vector_id)]: the address of the stored dictionary. *)
Definition get_metadata (vs : t) (vector_id : string) : option addr :=
  metadata_store vs !! vector_id.

Definition get_vector_count (vs : t) : Z := ntotal (index vs).

(** [remove_vector(vector_id)]: the stored dictionary is updated in
    place, whoever else refers to it; no field of the store is assigned.
    The result is the returned flag with the store and the objects after
    the call. *)
Definition remove_vector (vs : t) (h : heap) (vector_id : string)
    : bool * t * heap :=
  match metadata_store vs !! vector_id with
  | Some a => (true, vs, <[a := dict_set "deleted" (PBool true) (deref h a)]> h)
  | None => (false, vs, h)
  end.

(** [clear()]. *)
Definition clear (vs : t) : t := __init__ (dimension vs).

(** [not metadata.get("deleted", False)] for the object at an address. *)
Definition is_active (h : heap) (a : addr) : bool :=
  negb (truthy (dict_get "deleted" (PBool false) (deref h a))).

(** The count [sum(1 for metadata in metadata_store.values() if ...)]. *)
Definition active_vectors (vs : t) (h : heap) : Z :=
  len (filter (fun kv => is_active h kv.2 = true) (map_to_list (metadata_store vs))).

(** [get_statistics()]. *)
Definition get_statistics (vs : t) (h : heap) : dict :=
  [ ("total_vectors", PInt (ntotal (index vs)));
    ("active_vectors", PInt (active_vectors vs h));
    ("deleted_vectors", PInt (ntotal (index vs) - active_vectors vs h));
    ("dimension", PInt (dimension vs));
    ("index_type", PStr "IndexFlatIP") ].

End Store.
End VectorStore.

(** ** World state and effects *)

Import MCP.

Section WorldState.
Context `{Externals}.

(** Everything the agents of one coordinator own, with the process-wide
    effects. [invoked] is a ghost log of the agents whose
    [handle_message] has been entered, most recent last. *)
Record World := {
  clock : nat;
  uuids : nat;
  stdout : list string;
  objects : VectorStore.heap;
  next_addr : nat;
  invoked : list string;
  processed_documents : gmap string dict;
  vector_store : VectorStore.t;
  embedding_generator : embedder;
  document_chunks : gmap string dict;
  message_history : list MCPMessage;
  trace_sessions : gmap string (list MCPMessage);
}.

(** The state after [CoordinatorAgent()] on a fresh interpreter. *)
Definition initial_world : World :=
  {| clock := 0; uuids := 0; stdout := []; objects := ∅; next_addr := 0;
     invoked := []; processed_documents := ∅;
     vector_store := VectorStore.__init__ 1000;
     embedding_generator := embedder_init;
     document_chunks := ∅; message_history := []; trace_sessions := ∅ |}.

(** Field updates. *)
Definition set_clock (x : nat) (w : World) : World :=
  {| clock := x;
     uuids := uuids w;
     stdout := stdout w;
     objects := objects w;
     next_addr := next_addr w;
     invoked := invoked w;
     processed_documents := processed_documents w;
     vector_store := vector_store w;
     embedding_generator := embedding_generator w;
     document_chunks := document_chunks w;
     message_history := message_history w;
     trace_sessions := trace_sessions w |}.

Definition set_uuids (x : nat) (w : World) : World :=
  {| clock := clock w;
     uuids := x;
     stdout := stdout w;
     objects := objects w;
     next_addr := next_addr w;
     invoked := invoked w;
     processed_documents := processed_documents w;
     vector_store := vector_store w;
     embedding_generator := embedding_generator w;
     document_chunks := document_chunks w;
     message_history := message_history w;
     trace_sessions := trace_sessions w |}.

Definition set_stdout (x : list string) (w : World) : World :=
  {| clock := clock w;
     uuids := uuids w;
     stdout := x;
     objects := objects w;
     next_addr := next_addr w;
     invoked := invoked w;
     processed_documents := processed_documents w;
     vector_store := vector_store w;
     embedding_generator := embedding_generator w;
     document_chunks := document_chunks w;
     message_history := message_history w;
     trace_sessions := trace_sessions w |}.

Definition set_objects (x : VectorStore.heap) (w : World) : World :=
  {| clock := clock w;
     uuids := uuids w;
     stdout := stdout w;
     objects := x;
     next_addr := next_addr w;
     invoked := invoked w;
     processed_documents := processed_documents w;
     vector_store := vector_store w;
     embedding_generator := embedding_generator w;
     document_chunks := document_chunks w;
     message_history := message_history w;
     trace_sessions := trace_sessions w |}.

Definition set_next_addr (x : nat) (w : World) : World :=
  {| clock := clock w;
     uuids := uuids w;
     stdout := stdout w;
     objects := objects w;
     next_addr := x;
     invoked := invoked w;
     processed_documents := processed_documents w;
     vector_store := vector_store w;
     embedding_generator := embedding_generator w;
     document_chunks := document_chunks w;
     message_history := message_history w;
     trace_sessions := trace_sessions w |}.

Definition set_invoked (x : list string) (w : World) : World :=
  {| clock := clock w;
     uuids := uuids w;
     stdout := stdout w;
     objects := objects w;
     next_addr := next_addr w;
     invoked := x;
     processed_documents := processed_documents w;
     vector_store := vector_store w;
     embedding_generator := embedding_generator w;
     document_chunks := document_chunks w;
     message_history := message_history w;
     trace_sessions := trace_sessions w |}.

Definition set_processed_documents (x : gmap string dict) (w : World) : World :=
  {| clock := clock w;
     uuids := uuids w;
     stdout := stdout w;
     objects := objects w;
     next_addr := next_addr w;
     invoked := invoked w;
     processed_documents := x;
     vector_store := vector_store w;
     embedding_generator := embedding_generator w;
     document_chunks := document_chunks w;
     message_history := message_history w;
     trace_sessions := trace_sessions w |}.

Definition set_vector_store (x : VectorStore.t) (w : World) : World :=
  {| clock := clock w;
     uuids := uuids w;
     stdout := stdout w;
     objects := objects w;
     next_addr := next_addr w;
     invoked := invoked w;
     processed_documents := processed_documents w;
     vector_store := x;
     embedding_generator := embedding_generator w;
     document_chunks := document_chunks w;
     message_history := message_history w;
     trace_sessions := trace_sessions w |}.

Definition set_embedding_generator (x : embedder) (w : World) : World :=
  {| clock := clock w;
     uuids := uuids w;
     stdout := stdout w;
     objects := objects w;
     next_addr := next_addr w;
     invoked := invoked w;
     processed_documents := processed_documents w;
     vector_store := vector_store w;
     embedding_generator := x;
     document_chunks := document_chunks w;
     message_history := message_history w;
     trace_sessions := trace_sessions w |}.

Definition set_document_chunks (x : gmap string dict) (w : World) : World :=
  {| clock := clock w;
     uuids := uuids w;
     stdout := stdout w;
     objects := objects w;
     next_addr := next_addr w;
     invoked := invoked w;
     processed_documents := processed_documents w;
     vector_store := vector_store w;
     embedding_generator := embedding_generator w;
     document_chunks := x;
     message_history := message_history w;
     trace_sessions := trace_sessions w |}.

Definition set_message_history (x : list MCPMessage) (w : World) : World :=
  {| clock := clock w;
     uuids := uuids w;
     stdout := stdout w;
     objects := objects w;
     next_addr := next_addr w;
     invoked := invoked w;
     processed_documents := processed_documents w;
     vector_store := vector_store w;
     embedding_generator := embedding_generator w;
     document_chunks := document_chunks w;
     message_history := x;
     trace_sessions := trace_sessions w |}.

Definition set_trace_sessions (x : gmap string (list MCPMessage)) (w : World) : World :=
  {| clock := clock w;
     uuids := uuids w;
     stdout := stdout w;
     objects := objects w;
     next_addr := next_addr w;
     invoked := invoked w;
     processed_documents := processed_documents w;
     vector_store := vector_store w;
     embedding_generator := embedding_generator w;
     document_chunks := document_chunks w;
     message_history := message_history w;
     trace_sessions := x |}.

(** Computations that read and write the world and may raise. *)
Definition M (A : Type) : Type := World -> result A exn * World.

Definition ret {A} (a : A) : M A := fun w => (Ok a, w).

Definition raise {A} (e : exn) : M A := fun w => (Error e, w).

Definition bind {A B} (m : M A) (f : A -> M B) : M B :=
  fun w => match m w with
           | (Ok a, w') => f a w'
           | (Error e, w') => (Error e, w')
           end.

(** [try: m except Exception as e: handler e]. *)
Definition try_except {A} (m : M A) (handler : exn -> M A) : M A :=
  fun w => match m w with
           | (Ok a, w') => (Ok a, w')
           | (Error e, w') => handler e w'
           end.

Definition lift {A} (r : result A exn) : M A := fun w => (r, w).

Definition get_world : M World := fun w => (Ok w, w).

Definition modify (f : World -> World) : M unit := fun w => (Ok tt, f w).

End WorldState.

Notation "'let*' x ':=' m 'in' k" := (bind m (fun x => k))
  (at level 10, x name, m at level 100, k at level 200).
Notation "'let*' ' p ':=' m 'in' k" := (bind m (fun x => match x with p => k end))
  (at level 10, p pattern, m at level 100, k at level 200).
Notation "m1 ';;' m2" := (bind m1 (fun _ => m2))
  (at level 100, m2 at level 200, right associativity).

Section Effects.
Context `{Externals}.

(** [datetime.now().isoformat()]. *)
Definition datetime_now : M string :=
  fun w => (Ok (now_isoformat (clock w)), set_clock (S (clock w)) w).

(** [str(uuid.uuid4())]. *)
Definition uuid4 : M string :=
  fun w => (Ok (uuid4_str (uuids w)), set_uuids (S (uuids w)) w).

(** [print(line)]. *)
Definition print (line : string) : M unit :=
  modify (fun w => set_stdout (stdout w ++ [line]) w).

(** A new dictionary object. *)
Definition alloc (o : dict) : M VectorStore.addr :=
  fun w => (Ok (next_addr w),
            set_next_addr (S (next_addr w))
              (set_objects (<[next_addr w := o]> (objects w)) w)).

(** Ghost: an agent's [handle_message] is entered. *)
Definition enter (agent : string) : M unit :=
  modify (fun w => set_invoked (invoked w ++ [agent]) w).

(** *** Messages *)

(** [MCPMessage(sender, receiver, type, trace_id, payload, timestamp)]:
    the generated [__init__] followed by [__post_init__]. *)
Definition new_message (sender receiver type trace_id : string) (payload : dict)
    (timestamp : option string) : M MCPMessage :=
  match timestamp with
  | Some ts =>
      ret {| sender := sender; receiver := receiver; type := type;
             trace_id := trace_id; payload := payload; timestamp := Some ts |}
  | None =>
      let* ts := datetime_now in
      ret {| sender := sender; receiver := receiver; type := type;
             trace_id := trace_id; payload := payload; timestamp := Some ts |}
  end.

Definition as_str (field : string) (v : pyval) : result string exn :=
  match v with
  | PStr s => Ok s
  | _ => Error (field +:+ " is not a str")
  end.

Definition fields : list string :=
  ["sender"; "receiver"; "type"; "trace_id"; "payload"; "timestamp"].

(** The names of a [TypeError] about missing arguments: quoted, with
    commas from three names on and [and] before the last. *)
Fixpoint quoted_names (names : list string) : string :=
  match names with
  | [] => ""
  | [a] => "'" +:+ a +:+ "'"
  | [a; b] => "'" +:+ a +:+ "' and '" +:+ b +:+ "'"
  | a :: rest =>
      "'" +:+ a +:+ "', "
      +:+ match rest with
          | [b; c] => "'" +:+ b +:+ "', and '" +:+ c +:+ "'"
          | _ => quoted_names rest
          end
  end.

(** The text of the [TypeError] for the fields without default that
    [data] lacks. *)
Definition missing_arguments (data : dict) : string :=
  let missing :=
    List.filter (fun k => match dict_lookup k data with Some _ => false | None => true end)
      ["sender"; "receiver"; "type"; "trace_id"; "payload"] in
  "MCPMessage.__init__() missing " +:+ str_of_int (len missing)
  +:+ " required positional argument"
  +:+ (if (length missing =? 1)%nat then "" else "s") +:+ ": "
  +:+ quoted_names missing.

(** [MCPMessage.from_dict(data)], the constructor called with the
    entries of [data] as keyword arguments: every key must name a field
    and the five fields without default must be given. The record is
    typed as the class annotates it, so the values are converted; the
    constructor itself checks no type, and a dictionary that holds a
    value of another type is outside the model. *)
Definition from_dict (data : dict) : M MCPMessage :=
  match find (fun kv => negb (existsb (String.eqb (fst kv)) fields)) data with
  | Some (k, _) =>
      raise ("MCPMessage.__init__() got an unexpected keyword argument '" +:+ k +:+ "'")
  | None =>
      let required (k : string) : M pyval :=
        match dict_lookup k data with
        | Some v => ret v
        | None => raise (missing_arguments data)
        end in
      let* v_sender := required "sender" in
      let* v_receiver := required "receiver" in
      let* v_type := required "type" in
      let* v_trace := required "trace_id" in
      let* v_payload := required "payload" in
      let* sender := lift (as_str "sender" v_sender) in
      let* receiver := lift (as_str "receiver" v_receiver) in
      let* type := lift (as_str "type" v_type) in
      let* trace_id := lift (as_str "trace_id" v_trace) in
      let* payload :=
        match v_payload with
        | PDict p => ret p
        | _ => raise "payload is not a dict"
        end in
      let* timestamp :=
        match dict_get "timestamp" PNone data with
        | PNone => ret None
        | PStr ts => ret (Some ts)
        | _ => raise "timestamp is not a str"
        end in
      new_message sender receiver type trace_id payload timestamp
  end.

(** [MCPMessage.to_json]. *)
Definition to_json (m : MCPMessage) : result string exn :=
  Json.dumps (PDict (to_dict m)).

(** [MCPMessage.from_json]. *)
Definition from_json (json_str : string) : M MCPMessage :=
  let* data := lift (Json.loads json_str) in
  match data with
  | PDict data => from_dict data
  | _ => raise ("agents.mcp.MCPMessage() argument after ** must be a mapping, not "
                +:+ type_name data)
  end.

(** [create_response_message]. *)
Definition create_response_message (original_message : MCPMessage)
    (sender message_type : string) (payload : dict) : M MCPMessage :=
  new_message sender (MCP.sender original_message) message_type
    (trace_id original_message) payload None.

(** [create_error_message]. *)
Definition create_error_message (original_message : MCPMessage)
    (sender error : string) : M MCPMessage :=
  create_response_message original_message sender ERROR
    [ ("error", PStr error); ("original_type", PStr (type original_message)) ].

(** [MCPRouter.route_message]. *)
Definition route_message (message : MCPMessage) : M unit :=
  modify (fun w =>
    let session := default [] (trace_sessions w !! trace_id message) in
    set_trace_sessions
      (<[trace_id message := session ++ [message]]> (trace_sessions w))
      (set_message_history (message_history w ++ [message]) w)).

(** [MCPRouter.get_trace_history]. *)
Definition get_trace_history (w : World) (trace_id : string) : list MCPMessage :=
  default [] (trace_sessions w !! trace_id).

(** [MCPRouter.get_recent_messages(limit)]: the slice
    [message_history[-limit:]]. *)
Definition get_recent_messages (w : World) (limit : Z) : list MCPMessage :=
  slice (message_history w) (- limit) (len (message_history w)).

(** [MCPRouter.clear_history]. *)
Definition clear_history : M unit :=
  modify (fun w => set_trace_sessions ∅ (set_message_history [] w)).

End Effects.

(** ** Ingestion agent *)

Module IngestionAgent.
Section Agent.
Context `{Externals}.

Definition name : string := "IngestionAgent".

(** The body of the [for] loop of [_chunk_text], over the offsets that
    [range] still has to deliver; [chunks] is the list built so far and
    [u] the number of identifiers drawn so far. *)
Fixpoint chunk_loop (words : list string) (source_file : pyval)
    (chunk_size : Z) (offsets : list Z) (chunks : list dict) (u : nat)
    : list dict * nat :=
  match offsets with
  | [] => (chunks, u)
  | i :: rest =>
      let chunk_words := slice words i (i + chunk_size) in
      let chunk_text := join " " chunk_words in
      let chunk : dict :=
        [ ("id", PStr (uuid4_str u));
          ("text", PStr chunk_text);
          ("source_file", source_file);
          ("chunk_index", PInt (len chunks));
          ("word_count", PInt (len chunk_words));
          ("start_word", PInt i);
          ("end_word", PInt (Z.min (i + chunk_size) (len words))) ] in
      let chunks' := chunks ++ [chunk] in
      if i + chunk_size >=? len words then (chunks', S u)
      else chunk_loop words source_file chunk_size rest chunks' (S u)
  end.

(** [_chunk_text(text, source_file, chunk_size, overlap)], from the
    [u]-th identifier on. *)
Definition _chunk_text (text : string) (source_file : pyval)
    (chunk_size overlap : Z) (u : nat) : result (list dict) exn * nat :=
  if String.eqb (strip text) "" then (Ok [], u)
  else
    let words := split text in
    match range 0 (len words) (chunk_size - overlap) with
    | Error e => (Error e, u)
    | Ok offsets =>
        let '(chunks, u') := chunk_loop words source_file chunk_size offsets [] u in
        (Ok chunks, u')
    end.

(** The call [self._chunk_text(text, file_name)] of the agent, with
    [chunk_size=1000] and [overlap=200]. *)
Definition chunk_text (text : string) (source_file : pyval) : M (list dict) :=
  fun w =>
    let '(r, u) := _chunk_text text source_file 1000 200 (uuids w) in
    (r, set_uuids u w).

(** The parser chosen from the extension of the file name. *)
Definition infer_parser_type (file_name : string) : result string exn :=
  if endswith (lower file_name) ".pdf" then Ok "pdf"
  else if endswith (lower file_name) ".pptx" then Ok "pptx"
  else if endswith (lower file_name) ".docx" then Ok "docx"
  else if endswith (lower file_name) ".csv" then Ok "csv"
  else if endswith (lower file_name) ".txt" || endswith (lower file_name) ".md"
  then Ok "text"
  else Error ("Unsupported file type: " +:+ file_name).

(** The dictionary returned by [_parse_document]. *)
Record parsed_content := {
  pc_text : string;
  pc_chunks : list dict;
  pc_metadata : dict;
}.

(** [_parse_document(file_name, file_content, file_type)]. *)
Definition _parse_document (file_name file_content file_type : pyval)
    : M parsed_content :=
  try_except
    (let* fname :=
       match file_name with
       | PStr s => ret s
       | PBytes _ => raise "endswith first arg must be bytes or a tuple of bytes, not str"
       | _ => raise ("'" +:+ type_name file_name +:+ "' object has no attribute 'lower'")
       end in
     let* parser_type := lift (infer_parser_type fname) in
     let* parsed_data := lift (document_parse file_content parser_type) in
     let* text_v := lift (dict_item "text" parsed_data) in
     let* text :=
       match text_v with
       | PStr s => ret s
       | _ => raise ("'" +:+ type_name text_v +:+ "' object has no attribute 'strip'")
       end in
     let* chunks := chunk_text text file_name in
     let* extra :=
       match dict_get "metadata" (PDict []) parsed_data with
       | PDict m => ret m
       | other => raise ("'" +:+ type_name other +:+ "' object is not a mapping")
       end in
     ret {| pc_text := text;
            pc_chunks := chunks;
            pc_metadata :=
              dict_update
                [ ("file_name", file_name);
                  ("file_type", file_type);
                  ("parser_type", PStr parser_type);
                  ("page_count", dict_get "page_count" (PInt 1) parsed_data);
                  ("word_count", PInt (len (split text))) ]
                extra |})
    (fun e => raise ("Failed to parse document " +:+ py_str file_name +:+ ": " +:+ e)).

(** [_process_document(message)]. *)
Definition _process_document (message : MCPMessage) : M MCPMessage :=
  try_except
    (let file_name := dict_get "file_name" PNone (payload message) in
     let file_content := dict_get "file_content" PNone (payload message) in
     let file_type := dict_get "file_type" PNone (payload message) in
     if negb (truthy file_name && truthy file_content) then
       create_error_message message name
         "Missing required fields: file_name or file_content"
     else
       let* parsed := _parse_document file_name file_content file_type in
       let* doc_id := uuid4 in
       modify (fun w =>
         set_processed_documents
           (<[doc_id :=
                [ ("id", PStr doc_id);
                  ("name", file_name);
                  ("type", file_type);
                  ("content", PStr (pc_text parsed));
                  ("chunks", PList (map PDict (pc_chunks parsed)));
                  ("metadata", PDict (pc_metadata parsed)) ]]>
              (processed_documents w)) w);;
       create_response_message message name DOCUMENT_PARSED
         [ ("status", PStr "success");
           ("document_id", PStr doc_id);
           ("file_name", file_name);
           ("chunks", PList (map PDict (pc_chunks parsed)));
           ("metadata", PDict (pc_metadata parsed));
           ("total_chunks", PInt (len (pc_chunks parsed))) ])
    (fun e => create_error_message message name
                ("Document processing failed: " +:+ e)).

(** [IngestionAgent.handle_message]. *)
Definition handle_message (message : MCPMessage) : M MCPMessage :=
  enter name;;
  try_except
    (if String.eqb (type message) DOCUMENT_UPLOAD then _process_document message
     else create_error_message message name
            ("Unsupported message type: " +:+ type message))
    (fun e => create_error_message message name
                ("Error processing message: " +:+ e)).

Definition get_processed_documents (w : World) : gmap string dict :=
  processed_documents w.

Definition get_document (w : World) (doc_id : string) : option dict :=
  processed_documents w !! doc_id.

Definition clear_documents : M unit :=
  modify (set_processed_documents ∅).

End Agent.
End IngestionAgent.

(** ** Embedding generator *)

Module LocalEmbeddingGenerator.
Section Generator.
Context `{Externals}.

(** The [try] block of [generate_embedding], on the generator of the
    world. *)
Definition vectorize (text : pyval) : M ndarray :=
  fun w =>
    let '(g, r) := tfidf_vector (embedding_generator w) text in
    (r, set_embedding_generator g w).

(** [np.random.rand(self.dimension).astype(np.float32) * 0.1]. *)
Definition random_embedding : M ndarray :=
  fun w =>
    let '(g, v) := random_vector (embedding_generator w) in
    (Ok v, set_embedding_generator g w).

(** [generate_embedding(text)]: a failure of the vectorizer is reported
    on the output and answered with a random vector. *)
Definition generate_embedding (text : pyval) : M ndarray :=
  try_except (vectorize text)
    (fun e =>
       print ("Warning: Failed to generate embedding: " +:+ e);;
       random_embedding).

End Generator.
End LocalEmbeddingGenerator.

(** ** Retrieval agent *)

Module RetrievalAgent.
Section Agent.
Context `{Externals}.

Definition name : string := "RetrievalAgent".

(** The items a [for] loop draws from a value. *)
Definition iterate (v : pyval) : result (list pyval) exn :=
  match v with
  | PList l | PTuple l => Ok l
  | PDict d => Ok (map (fun kv => PStr (fst kv)) d)
  | PStr s => Ok (map (fun c => PStr (String c "")) (list_ascii_of_string s))
  | PBytes s => Ok (map (fun c => PInt (Z.of_N (N_of_ascii c))) (list_ascii_of_string s))
  | _ => Error ("'" +:+ type_name v +:+ "' object is not iterable")
  end.

(** The [try] block run for one chunk: embed, insert, remember. It
    returns the identifier appended to [indexed_chunks]. The store is
    typed as the code annotates it ([vector_id: str]): the identifier of
    the chunk is converted by [as_str], and a chunk whose identifier is
    not a string is outside the model. *)
Definition index_chunk (document_id file_name metadata chunk : pyval) : M string :=
  match chunk with
  | PDict c =>
      let* text := lift (dict_item "text" c) in
      let* embedding := LocalEmbeddingGenerator.generate_embedding text in
      let* chunk_id_v := lift (dict_item "id" c) in
      let* chunk_id := lift (as_str "vector_id" chunk_id_v) in
      let* extra :=
        match metadata with
        | PDict m => ret m
        | _ => raise ("'" +:+ type_name metadata +:+ "' object is not a mapping")
        end in
      let* a :=
        alloc (dict_update
                 (dict_set "document_name" file_name
                    (dict_set "document_id" document_id c)) extra) in
      let* w := get_world in
      let* vs := lift (VectorStore.add_vector (vector_store w) chunk_id embedding a) in
      modify (set_vector_store vs);;
      modify (fun w =>
        set_document_chunks
          (<[chunk_id :=
               dict_set "embedding_dims" (PInt (array_len embedding))
                 (dict_set "document_name" file_name
                    (dict_set "document_id" document_id c))]>
             (document_chunks w)) w);;
      ret chunk_id
  | PStr _ => raise "string indices must be integers, not 'str'"
  | PBytes _ => raise "byte indices must be integers or slices, not str"
  | PList _ => raise "list indices must be integers or slices, not str"
  | PTuple _ => raise "tuple indices must be integers or slices, not str"
  | _ => raise ("'" +:+ type_name chunk +:+ "' object is not subscriptable")
  end.

(** The [except] block of one chunk: the warning names [chunk.get('id',
    'unknown')], which itself fails on a chunk that is no dictionary. *)
Definition warn_failed (chunk : pyval) (e : exn) : M unit :=
  match chunk with
  | PDict c =>
      print ("Warning: Failed to index chunk "
             +:+ py_str (dict_get "id" (PStr "unknown") c) +:+ ": " +:+ e)
  | _ => raise ("'" +:+ type_name chunk +:+ "' object has no attribute 'get'")
  end.

(** The [for chunk in chunks] loop; [indexed_chunks] is the list built
    so far. *)
Fixpoint index_loop (document_id file_name metadata : pyval)
    (chunks : list pyval) (indexed_chunks : list string) : M (list string) :=
  match chunks with
  | [] => ret indexed_chunks
  | chunk :: rest =>
      let* indexed_chunks' :=
        try_except
          (let* chunk_id := index_chunk document_id file_name metadata chunk in
           ret (indexed_chunks ++ [chunk_id]))
          (fun e => warn_failed chunk e;; ret indexed_chunks) in
      index_loop document_id file_name metadata rest indexed_chunks'
  end.

(** [_index_document(message)]. *)
Definition _index_document (message : MCPMessage) : M MCPMessage :=
  try_except
    (let document_id := dict_get "document_id" PNone (payload message) in
     let file_name := dict_get "file_name" PNone (payload message) in
     let chunks := dict_get "chunks" (PList []) (payload message) in
     let metadata := dict_get "metadata" (PDict []) (payload message) in
     if negb (truthy chunks) then
       create_error_message message name "No chunks provided for indexing"
     else
       let* items := lift (iterate chunks) in
       let* indexed_chunks := index_loop document_id file_name metadata items [] in
       let* total := lift (py_len chunks) in
       create_response_message message name INGESTION_COMPLETE
         [ ("status", PStr "success");
           ("document_id", document_id);
           ("file_name", file_name);
           ("indexed_chunks", PInt (len indexed_chunks));
           ("total_chunks", PInt total) ])
    (fun e => create_error_message message name
                ("Document indexing failed: " +:+ e)).

(** The loop of [_retrieve_context] over the search results:
    [retrieved_chunks] and [sources] are the lists built so far. *)
Fixpoint format_results (document_chunks : gmap string dict)
    (search_results : list (string * Z))
    (retrieved_chunks : list pyval) (sources : list string)
    : result (list pyval * list string) exn :=
  match search_results with
  | [] => Ok (retrieved_chunks, sources)
  | (chunk_id, similarity_score) :: rest =>
      match document_chunks !! chunk_id with
      | None => format_results document_chunks rest retrieved_chunks sources
      | Some chunk_data =>
          match dict_item "text" chunk_data with
          | Error e => Error e
          | Ok text =>
              let entry :=
                PDict [ ("id", PStr chunk_id);
                        ("text", text);
                        ("source_file", dict_get "document_name" (PStr "Unknown") chunk_data);
                        ("similarity_score", PFloat similarity_score);
                        ("chunk_index", dict_get "chunk_index" (PInt 0) chunk_data) ] in
              let source_ref :=
                py_str (dict_get "document_name" (PStr "Unknown") chunk_data)
                +:+ " (chunk "
                +:+ py_str (dict_get "chunk_index" (PInt 0) chunk_data) +:+ ")" in
              format_results document_chunks rest
                (retrieved_chunks ++ [entry])
                (if existsb (String.eqb source_ref) sources then sources
                 else sources ++ [source_ref])
          end
      end
  end.

(** [_retrieve_context(message)]. *)
Definition _retrieve_context (message : MCPMessage) : M MCPMessage :=
  try_except
    (let query := dict_get "query" PNone (payload message) in
     let top_k := dict_get "top_k" (PInt 5) (payload message) in
     if negb (truthy query) then
       create_error_message message name "No query provided for retrieval"
     else
       let* query_embedding := LocalEmbeddingGenerator.generate_embedding query in
       let* w := get_world in
       let* search_results :=
         lift (VectorStore.search (vector_store w) query_embedding top_k) in
       let* '(retrieved_chunks, sources) :=
         lift (format_results (document_chunks w) search_results [] []) in
       create_response_message message name RETRIEVAL_RESULT
         [ ("status", PStr "success");
           ("query", query);
           ("retrieved_chunks", PList retrieved_chunks);
           ("sources", PList (map PStr sources));
           ("total_results", PInt (len retrieved_chunks)) ])
    (fun e => create_error_message message name
                ("Context retrieval failed: " +:+ e)).

(** [RetrievalAgent.handle_message]. *)
Definition handle_message (message : MCPMessage) : M MCPMessage :=
  enter name;;
  try_except
    (if String.eqb (type message) DOCUMENT_PARSED then _index_document message
     else if String.eqb (type message) RETRIEVAL_REQUEST then _retrieve_context message
     else create_error_message message name
            ("Unsupported message type: " +:+ type message))
    (fun e => create_error_message message name
                ("Error processing message: " +:+ e)).

Definition get_indexed_count (w : World) : Z :=
  Z.of_nat (size (document_chunks w)).

Definition clear_index : M unit :=
  modify (fun w =>
    set_document_chunks ∅
      (set_vector_store (VectorStore.clear (vector_store w)) w)).

End Agent.
End RetrievalAgent.

(** ** Response synthesizer *)

Module LocalLLMGenerator.
Section Generator.
Context `{Externals}.

(** [_generate_no_context_response]. *)
Definition no_context_response : string :=
  "I don't have enough information in the uploaded documents to answer your question. "
  +:+ "Please make sure you've uploaded relevant documents and try asking a more specific question "
  +:+ "about the content in those documents.".

(** [generate_response(query, context_chunks, conversation_history)]. *)
Definition generate_response (query context_chunks conversation_history : pyval)
    : string :=
  if negb (truthy context_chunks) then no_context_response
  else
    match contextual_response query context_chunks with
    | Ok response => response
    | Error e =>
        "I apologize, but I encountered an error while processing your question: " +:+ e
    end.

End Generator.
End LocalLLMGenerator.

Module LLMResponseAgent.
Section Agent.
Context `{Externals}.

Definition name : string := "LLMResponseAgent".

(** [_generate_response(message)]. *)
Definition _generate_response (message : MCPMessage) : M MCPMessage :=
  try_except
    (let query := dict_get "query" PNone (payload message) in
     let retrieved_chunks := dict_get "retrieved_chunks" (PList []) (payload message) in
     let sources := dict_get "sources" (PList []) (payload message) in
     let conversation_history :=
       dict_get "conversation_history" (PList []) (payload message) in
     if negb (truthy query) then
       create_error_message message name "No query provided for response generation"
     else
       let response :=
         LocalLLMGenerator.generate_response query retrieved_chunks conversation_history in
       let* used := lift (py_len retrieved_chunks) in
       create_response_message message name LLM_RESPONSE
         [ ("status", PStr "success");
           ("query", query);
           ("response", PStr response);
           ("sources", sources);
           ("context_chunks_used", PInt used) ])
    (fun e => create_error_message message name
                ("Response generation failed: " +:+ e)).

(** [LLMResponseAgent.handle_message]. *)
Definition handle_message (message : MCPMessage) : M MCPMessage :=
  enter name;;
  try_except
    (if String.eqb (type message) RETRIEVAL_RESULT then _generate_response message
     else create_error_message message name
            ("Unsupported message type: " +:+ type message))
    (fun e => create_error_message message name
                ("Error processing message: " +:+ e)).

End Agent.
End LLMResponseAgent.

(** ** Coordinator *)

Module CoordinatorAgent.
Section Agent.
Context `{Externals}.

Definition name : string := "CoordinatorAgent".

(** [_handle_document_upload(message)]. *)
Definition _handle_document_upload (message : MCPMessage) : M MCPMessage :=
  try_except
    (let* ingestion_response := IngestionAgent.handle_message message in
     route_message ingestion_response;;
     if String.eqb (type ingestion_response) ERROR then
       create_response_message message name ERROR
         [ ("status", PStr "failed");
           ("error", PStr ("Ingestion failed: "
                           +:+ py_str (dict_get "error" PNone (payload ingestion_response)))) ]
     else
       let* retrieval_response := RetrievalAgent.handle_message ingestion_response in
       route_message retrieval_response;;
       if String.eqb (type retrieval_response) ERROR then
         create_response_message message name ERROR
           [ ("status", PStr "failed");
             ("error", PStr ("Indexing failed: "
                             +:+ py_str (dict_get "error" PNone (payload retrieval_response)))) ]
       else
         create_response_message message name SUCCESS
           [ ("status", PStr "success");
             ("document_id", dict_get "document_id" PNone (payload ingestion_response));
             ("file_name", dict_get "file_name" PNone (payload ingestion_response));
             ("indexed_chunks", dict_get "indexed_chunks" PNone (payload retrieval_response));
             ("workflow", PStr "document_upload_complete") ])
    (fun e => create_error_message message name
                ("Document upload workflow failed: " +:+ e)).

(** [_handle_query_request(message)]. *)
Definition _handle_query_request (message : MCPMessage) : M MCPMessage :=
  try_except
    (let query := dict_get "query" PNone (payload message) in
     let conversation_history :=
       dict_get "conversation_history" (PList []) (payload message) in
     let* retrieval_message :=
       new_message name "RetrievalAgent" RETRIEVAL_REQUEST (trace_id message)
         [ ("query", query); ("top_k", PInt 5) ] None in
     let* retrieval_response := RetrievalAgent.handle_message retrieval_message in
     route_message retrieval_response;;
     if String.eqb (type retrieval_response) ERROR then
       create_response_message message name ERROR
         [ ("status", PStr "failed");
           ("error", PStr ("Retrieval failed: "
                           +:+ py_str (dict_get "error" PNone (payload retrieval_response)))) ]
     else
       let* llm_message :=
         new_message name "LLMResponseAgent" RETRIEVAL_RESULT (trace_id message)
           (dict_set "conversation_history" conversation_history
              (payload retrieval_response)) None in
       let* llm_response := LLMResponseAgent.handle_message llm_message in
       route_message llm_response;;
       if String.eqb (type llm_response) ERROR then
         create_response_message message name ERROR
           [ ("status", PStr "failed");
             ("error", PStr ("LLM response failed: "
                             +:+ py_str (dict_get "error" PNone (payload llm_response)))) ]
       else
         create_response_message message name SUCCESS
           [ ("status", PStr "success");
             ("query", query);
             ("response", dict_get "response" PNone (payload llm_response));
             ("sources", dict_get "sources" (PList []) (payload llm_response));
             ("context_chunks_used",
               dict_get "context_chunks_used" (PInt 0) (payload llm_response));
             ("workflow", PStr "query_processing_complete") ])
    (fun e => create_error_message message name
                ("Query processing workflow failed: " +:+ e)).

(** [CoordinatorAgent.handle_message], the entry point. *)
Definition handle_message (message : MCPMessage) : M MCPMessage :=
  enter name;;
  try_except
    (route_message message;;
     if String.eqb (type message) DOCUMENT_UPLOAD then _handle_document_upload message
     else if String.eqb (type message) QUERY_REQUEST then _handle_query_request message
     else create_error_message message name
            ("Unsupported message type: " +:+ type message))
    (fun e => create_error_message message name ("Coordination error: " +:+ e)).

(** [get_message_history()] and [get_trace_history(trace_id)]. *)
Definition get_message_history (w : World) : list MCPMessage :=
  message_history w.

Definition get_trace_history (w : World) (trace_id : string) : list MCPMessage :=
  get_trace_history w trace_id.

(** [clear_documents()]. *)
Definition clear_documents : M unit :=
  IngestionAgent.clear_documents;;
  RetrievalAgent.clear_index;;
  clear_history.

(** [get_system_status()]. *)
Definition get_system_status (w : World) : dict :=
  [ ("coordinator", PStr "active");
    ("processed_documents",
      PInt (Z.of_nat (size (IngestionAgent.get_processed_documents w))));
    ("indexed_chunks", PInt (RetrievalAgent.get_indexed_count w));
    ("total_messages", PInt (len (message_history w)));
    ("agents",
      PDict [ ("ingestion", PStr "active");
              ("retrieval", PStr "active");
              ("llm_response", PStr "active") ]) ].

End Agent.
End CoordinatorAgent.

(** ** Specification-side definitions *)

(** The word offsets [(start_word, end_word)] of a list of chunks. *)
Definition chunk_offsets (chunks : list dict) : list (pyval * pyval) :=
  map (fun c => (dict_get "start_word" PNone c, dict_get "end_word" PNone c)) chunks.

(** The offsets of the chunks a call produced (none when it raised). *)
Definition offsets_of_run (r : result (list dict) exn * nat) : list (pyval * pyval) :=
  match fst r with Ok chunks => chunk_offsets chunks | Error _ => [] end.

(** A text that is empty or made of whitespace only. *)
Fixpoint all_space (s : string) : bool :=
  match s with
  | EmptyString => true
  | String c s' => isspace c && all_space s'
  end.

(** The chunk the specification describes at ordinal [k] for the word
    sequence [words], with window [chunk_size] and stride [step], when
    [u0] identifiers were drawn before the call. *)
Definition chunk_at `{Externals} (words : list string) (source_file : pyval)
    (chunk_size step : Z) (u0 : nat) (k : nat) : dict :=
  let i := step * Z.of_nat k in
  [ ("id", PStr (uuid4_str (u0 + k)));
    ("text", PStr (join " " (slice words i (i + chunk_size))));
    ("source_file", source_file);
    ("chunk_index", PInt (Z.of_nat k));
    ("word_count", PInt (len (slice words i (i + chunk_size))));
    ("start_word", PInt i);
    ("end_word", PInt (Z.min (i + chunk_size) (len words))) ].

(** The ordinal of the last chunk of a text of [n] words under the
    default window 1000 and stride 800: the least [k] with
    [800 * k + 1000 >= n]. *)
Definition last_ordinal (n : Z) : nat := Z.to_nat ((n - 201) / 800).

Section EmbeddingOutcome.
Context `{Externals}.

(** What the embedding generator in state [g] prints for [text], and the
    state it is left in: nothing when the vectorizer delivers, its
    warning when the vectorizer raised and a random vector was drawn. *)
Definition embedding_lines (g : embedder) (text : pyval) : list string * embedder :=
  match tfidf_vector g text with
  | (g1, Ok _) => ([], g1)
  | (g1, Error e) =>
      (["Warning: Failed to generate embedding: " +:+ e], (random_vector g1).1)
  end.

(** The vector it returns: the one of the vectorizer, or the random one. *)
Definition embedding_vector (g : embedder) (text : pyval) : ndarray :=
  match tfidf_vector g text with
  | (_, Ok v) => v
  | (g1, Error _) => (random_vector g1).2
  end.

(** The world after [text] was embedded in world [w]. *)
Definition world_after_embedding (text : pyval) (w : World) : World :=
  set_stdout (stdout w ++ (embedding_lines (embedding_generator w) text).1)
    (set_embedding_generator (embedding_lines (embedding_generator w) text).2 w).

End EmbeddingOutcome.

(** The extensions that [_parse_document] knows, with the parser of each. *)
Definition parser_of_extension : list (string * string) :=
  [ (".pdf", "pdf"); (".pptx", "pptx"); (".docx", "docx");
    (".csv", "csv"); (".txt", "text"); (".md", "text") ].

Section QueryWorkflow.
Context `{Externals}.

(** The world in which the coordinator, given [message] in world [w],
    calls the Retrieval Agent: its own entry is logged, [message] is
    routed and the clock was read once for the request. *)
Definition world_at_retrieval (message : MCPMessage) (w : World) : World :=
  set_clock (S (clock w))
    (set_trace_sessions
       (<[trace_id message :=
            default [] (trace_sessions w !! trace_id message) ++ [message]]>
          (trace_sessions w))
       (set_message_history (message_history w ++ [message])
          (set_invoked (invoked w ++ [CoordinatorAgent.name]) w))).

(** The retrieval request built for [message] in world [w]. *)
Definition retrieval_request (message : MCPMessage) (w : World) : MCPMessage :=
  {| sender := CoordinatorAgent.name;
     receiver := "RetrievalAgent";
     type := RETRIEVAL_REQUEST;
     trace_id := trace_id message;
     payload := [ ("query", dict_get "query" PNone (payload message));
                  ("top_k", PInt 5) ];
     timestamp := Some (now_isoformat (clock w)) |}.

(** The world after [response] was routed and the clock read once more,
    which is all the coordinator does after a failed stage. *)
Definition world_after_failure (response : MCPMessage) (w : World) : World :=
  set_clock (S (clock w))
    (set_trace_sessions
       (<[trace_id response :=
            default [] (trace_sessions w !! trace_id response) ++ [response]]>
          (trace_sessions w))
       (set_message_history (message_history w ++ [response]) w)).

End QueryWorkflow.

Section IndexingBatch.
Context `{Externals}.

(** The warning printed for a chunk that failed with [e]. *)
Definition warning_line (chunk : dict) (e : exn) : string :=
  "Warning: Failed to index chunk "
  +:+ py_str (dict_get "id" (PStr "unknown") chunk) +:+ ": " +:+ e.

(** The specification of the batch: every chunk is attempted in turn, in
    the world its predecessors left; a failure adds its warning to the
    output and nothing else. The result lists the outcome of each chunk. *)
Fixpoint chunk_outcomes (document_id file_name metadata : pyval)
    (chunks : list dict) (w : World) : list (result string exn) * World :=
  match chunks with
  | [] => ([], w)
  | chunk :: rest =>
      let '(r, w1) :=
        RetrievalAgent.index_chunk document_id file_name metadata (PDict chunk) w in
      let w2 :=
        match r with
        | Ok _ => w1
        | Error e => set_stdout (stdout w1 ++ [warning_line chunk e]) w1
        end in
      let '(rs, w3) := chunk_outcomes document_id file_name metadata rest w2 in
      (r :: rs, w3)
  end.

(** The identifiers of the chunks that succeeded, in order. *)
Fixpoint succeeded (outcomes : list (result string exn)) : list string :=
  match outcomes with
  | [] => []
  | Ok chunk_id :: rest => chunk_id :: succeeded rest
  | Error _ :: rest => succeeded rest
  end.

(** The warnings of the chunks that failed, in order. *)
Fixpoint failure_lines (chunks : list dict) (outcomes : list (result string exn))
    : list string :=
  match chunks, outcomes with
  | chunk :: chunks', Error e :: rest => warning_line chunk e :: failure_lines chunks' rest
  | _ :: chunks', Ok _ :: rest => failure_lines chunks' rest
  | _, _ => []
  end.

(** The output of a batch whose chunks had the given outcomes, for an
    embedding generator in state [g] at its start: a chunk that has a
    text is embedded, which may print the warning of the generator; a
    chunk that failed prints the warning of the batch after that. *)
Fixpoint batch_output (g : embedder) (chunks : list dict)
    (outcomes : list (result string exn)) : list string :=
  match chunks, outcomes with
  | chunk :: chunks', r :: rest =>
      let '(lines, g') :=
        match dict_lookup "text" chunk with
        | Some text => embedding_lines g text
        | None => ([], g)
        end in
      lines
      ++ match r with Ok _ => [] | Error e => [warning_line chunk e] end
      ++ batch_output g' chunks' rest
  | _, _ => []
  end.

(** What the outcome of a chunk says of the chunk: a chunk is indexed
    under its own identifier and has a text; a chunk without text fails
    with the [KeyError] of that key. *)
Definition indexed_as (chunk : dict) (r : result string exn) : Prop :=
  match r with
  | Ok chunk_id =>
      dict_lookup "id" chunk = Some (PStr chunk_id)
      /\ is_Some (dict_lookup "text" chunk)
  | Error e => dict_lookup "text" chunk = None -> e = "'text'"
  end.

(** A chunk whose identifier, when it has one, is a string. *)
Definition string_id (chunk : dict) : Prop :=
  match dict_lookup "id" chunk with
  | Some (PStr _) | None => True
  | Some _ => False
  end.

End IndexingBatch.

(** What may follow a value in the output of the encoder: the end of
    the text, a comma, or a line break. *)
Definition follows_value (rest : string) : bool :=
  match rest with
  | EmptyString => true
  | String c _ => Ascii.eqb c "," || Ascii.eqb c Json.newline
  end.

(** The values that JSON represents as they are: [None], booleans,
    integers within the digit limit of the interpreter, floats other
    than the NaNs, strings, lists, and dictionaries, whose keys are
    strings and distinct. *)
Fixpoint unique_keys (d : dict) : bool :=
  match d with
  | [] => true
  | (k, _) :: d' => negb (existsb (fun kv => String.eqb k (fst kv)) d') && unique_keys d'
  end.

Definition json_float (f : Z) : bool :=
  is_finite f || (f =? pos_inf) || (f =? neg_inf).

Fixpoint json_value (v : pyval) : bool :=
  match v with
  | PNone | PBool _ | PStr _ => true
  | PInt z => (Json.int_digits z <=? Json.max_str_digits)%nat
  | PFloat f => json_float f
  | PBytes _ | PTuple _ => false
  | PList l => forallb json_value l
  | PDict d => unique_keys d && forallb (fun kv => json_value (snd kv)) d
  end.

(** The number of containers, one inside the other, that a value is
    made of. *)
Fixpoint depth (v : pyval) : nat :=
  match v with
  | PList l | PTuple l => S (list_max (map depth l))
  | PDict d => S (list_max (map (fun kv => depth (snd kv)) d))
  | _ => 0
  end.

(** A text that the decoder reads, to its end, as a number with a
    fraction or an exponent. *)
Definition float_literal (s : string) : bool :=
  match Json.scan_number_parts s with
  | Some (_, _, frac, ex, EmptyString) => negb (String.eqb frac "" && String.eqb ex "")
  | _ => false
  end.

(** The number of decoder calls that reading a value back takes: one
    for the value and one more for each item of a container. *)
Fixpoint decode_cost (v : pyval) : nat :=
  match v with
  | PList l | PTuple l => S (list_sum (map (fun x => S (decode_cost x)) l))
  | PDict d => S (list_sum (map (fun kv => S (decode_cost (snd kv))) d))
  | _ => 1
  end.

Section RoundTrip.
Context `{Externals}.

(** What the interpreter guarantees of [repr] and [float]: the text of a
    finite float is a number with a fraction or an exponent, and it is
    read back to the same float. *)
Definition float_repr_reads_back : Prop :=
  forall f : Z,
    is_finite f = true ->
    float_literal (float_repr f) = true /\ float_of_str (float_repr f) = f.

(** A value whose encoding at any depth, followed by what may follow a
    value, is decoded to the value itself and leaves the rest, provided
    the decoder may enter the containers the value is made of. *)
Definition round_trips (v : pyval) : Prop :=
  forall (lvl : nat) (text rest : string) (fuel : nat),
    Json.encode lvl v = Ok text ->
    follows_value rest = true ->
    (decode_cost v <= fuel)%nat ->
    (lvl + depth v <= json_decoder_depth)%nat ->
    Json.decode fuel lvl (text +:+ rest) = Some (v, rest).

End RoundTrip.

(** ** Further specification-side definitions *)

(** The ordinal of the last chunk of a text of [n] words under window
    [chunk_size] and stride [step]: the least [k] with
    [step * k + chunk_size >= n]. *)
Definition last_ordinal_of (chunk_size step n : Z) : nat :=
  Z.to_nat ((n - chunk_size + step - 1) / step).

(** A string without whitespace, and a word: such a string that is not
    empty. *)
Fixpoint no_space (s : string) : bool :=
  match s with
  | EmptyString => true
  | String c s' => negb (isspace c) && no_space s'
  end.

Definition is_word (w : string) : Prop := w <> "" /\ no_space w = true.

Section StoreInvariant.
Context `{Externals}.

Import VectorStore.

(** What holds of a store between two calls: the counter is the number
    of rows, the rows are numbered from 0, and the three dictionaries
    agree on the identifiers. *)
Record store_ok (vs : VectorStore.t) : Prop := {
  ok_next : next_index vs = ntotal (index vs);
  ok_dim : d (index vs) = dimension vs;
  ok_rows : forall i, is_Some (index_to_id vs !! i) <-> 0 <= i < next_index vs;
  ok_ids : forall id, is_Some (id_to_index vs !! id) <-> is_Some (metadata_store vs !! id);
  ok_inverse : forall id i, id_to_index vs !! id = Some i -> index_to_id vs !! i = Some id;
  ok_known : forall i id, index_to_id vs !! i = Some id -> is_Some (metadata_store vs !! id);
  ok_size : Z.of_nat (size (metadata_store vs)) <= ntotal (index vs);
}.

(** The stores that calls of the class can build: [remove_vector]
    assigns no field of the store and a failed [add_vector] raises
    before it assigns one. *)
Inductive reachable : VectorStore.t -> Prop :=
| reachable_init (dimension : Z) : reachable (__init__ dimension)
| reachable_add (vs vs' : VectorStore.t) (vector_id : string)
    (embedding : ndarray) (metadata : addr) :
    reachable vs ->
    add_vector vs vector_id embedding metadata = Ok vs' ->
    reachable vs'
| reachable_clear (vs : VectorStore.t) : reachable vs -> reachable (clear vs).

End StoreInvariant.

Section WorldInvariant.
Context `{Externals}.

(** The sessions of the router partition its history: the session of a
    trace is the list of the routed messages that carry it, in order. *)
Definition router_consistent (w : World) : Prop :=
  forall t, get_trace_history w t
            = filter (fun m => trace_id m = t) (message_history w).

(** What holds of the state of a coordinator between two calls. *)
Record world_ok (w : World) : Prop := {
  wk_router : router_consistent w;
  wk_store : store_ok (vector_store w);
  wk_alloc : forall a, is_Some (objects w !! a) <-> (a < next_addr w)%nat;
  wk_meta : forall id a,
    VectorStore.metadata_store (vector_store w) !! id = Some a ->
    (a < next_addr w)%nat;
  wk_unshared : forall id id' a,
    VectorStore.metadata_store (vector_store w) !! id = Some a ->
    VectorStore.metadata_store (vector_store w) !! id' = Some a ->
    id = id';
  wk_chunks : forall id c,
    document_chunks w !! id = Some c ->
    is_Some (dict_lookup "text" c)
    /\ is_Some (VectorStore.metadata_store (vector_store w) !! id);
}.

(** The states a coordinator goes through: created, then driven by
    [handle_message] and [clear_documents]. *)
Inductive reachable_world : World -> Prop :=
| reachable_initial : reachable_world initial_world
| reachable_message (w : World) (message : MCPMessage) :
    reachable_world w ->
    reachable_world (CoordinatorAgent.handle_message message w).2
| reachable_cleared (w : World) :
    reachable_world w ->
    reachable_world (CoordinatorAgent.clear_documents w).2.

(** A computation that keeps the invariant. *)
Definition preserves {A} (m : M A) : Prop :=
  forall w, world_ok w -> world_ok (m w).2.

End WorldInvariant.

Section Replies.
Context `{Externals}.

(** [out] answers [message] on behalf of [agent] with one of the types
    [types]: it is sent by the agent to the sender of [message], under
    the same trace, and it is stamped. *)
Definition is_reply_to (agent : string) (types : list string)
    (message out : MCPMessage) : Prop :=
  sender out = agent
  /\ receiver out = sender message
  /\ trace_id out = trace_id message
  /\ is_Some (timestamp out)
  /\ In (type out) types.

(** A computation whose result, when it returns one, answers [message]. *)
Definition replies (agent : string) (types : list string) (message : MCPMessage)
    (m : M MCPMessage) : Prop :=
  forall w, match m w with
            | (Ok out, _) => is_reply_to agent types message out
            | (Error _, _) => True
            end.

End Replies.

Section Workflows.
Context `{Externals}.

(** The state after the router recorded [message]. *)
Definition routed (message : MCPMessage) (w : World) : World :=
  set_trace_sessions
    (<[trace_id message :=
         default [] (trace_sessions w !! trace_id message) ++ [message]]>
       (trace_sessions w))
    (set_message_history (message_history w ++ [message]) w).

(** The state in which the coordinator, given [message] in state [w],
    dispatches on the type of the message: its own entry is logged and
    the message is routed. *)
Definition world_at_dispatch (message : MCPMessage) (w : World) : World :=
  routed message (set_invoked (invoked w ++ [CoordinatorAgent.name]) w).

(** The result that the coordinator builds for [message] at clock
    reading [k]. *)
Definition coordinator_result (message : MCPMessage) (type : string)
    (payload : dict) (k : nat) : MCPMessage :=
  {| sender := CoordinatorAgent.name;
     receiver := sender message;
     type := type;
     trace_id := trace_id message;
     payload := payload;
     timestamp := Some (now_isoformat k) |}.

(** The failure result of a workflow stage. *)
Definition stage_failure (stage : string) (response : MCPMessage) : dict :=
  [ ("status", PStr "failed");
    ("error", PStr (stage +:+ py_str (dict_get "error" PNone (payload response)))) ].

End Workflows.

Section IndexingAll.
Context `{Externals}.

(** A chunk that can be indexed: it has a text, and an identifier that
    is a string. *)
Definition indexable (c : dict) : Prop :=
  is_Some (dict_lookup "text" c)
  /\ exists chunk_id, dict_lookup "id" c = Some (PStr chunk_id).

(** The identifier of a chunk. *)
Definition chunk_id_of (c : dict) : string :=
  match dict_lookup "id" c with Some (PStr chunk_id) => chunk_id | _ => "" end.

(** Every embedding, the one of the vectorizer as well as the random
    one, has the dimension [dim]. *)
Definition embeddings_fit (dim : Z) : Prop :=
  forall g text,
    array_len (VectorStore.normalize (embedding_vector g text)) = dim.

(** The text of a chunk, and the warnings that the embedding generator,
    starting in state [g], prints over the texts of a batch. *)
Definition chunk_text_of (c : dict) : pyval := dict_get "text" PNone c.

Fixpoint embedding_warnings (g : embedder) (texts : list pyval) : list string :=
  match texts with
  | [] => []
  | text :: rest =>
      (embedding_lines g text).1 ++ embedding_warnings (embedding_lines g text).2 rest
  end.

(** What indexing leaves alone. *)
Definition same_outside_index (w w' : World) : Prop :=
  clock w' = clock w /\ uuids w' = uuids w
  /\ invoked w' = invoked w /\ processed_documents w' = processed_documents w
  /\ message_history w' = message_history w /\ trace_sessions w' = trace_sessions w.

End IndexingAll.

Section QueryOutcome.
Context `{Externals}.

(** The request that the coordinator builds for the Response Agent from
    the answer [retrieved] of the Retrieval Agent, at clock reading [k]:
    the payload of the answer with the conversation history of the
    query. *)
Definition llm_request (message retrieved : MCPMessage) (k : nat) : MCPMessage :=
  {| sender := CoordinatorAgent.name;
     receiver := "LLMResponseAgent";
     type := RETRIEVAL_RESULT;
     trace_id := trace_id message;
     payload :=
       dict_set "conversation_history"
         (dict_get "conversation_history" (PList []) (payload message))
         (payload retrieved);
     timestamp := Some (now_isoformat k) |}.

End QueryOutcome.

Section Refusals.
Context `{Externals}.

(** The answer of [agent] to a message of a type it does not handle, at
    clock reading [k]. *)
Definition unsupported_type_error (agent : string) (message : MCPMessage) (k : nat)
    : MCPMessage :=
  {| sender := agent;
     receiver := sender message;
     type := ERROR;
     trace_id := trace_id message;
     payload := [ ("error", PStr ("Unsupported message type: " +:+ type message));
                  ("original_type", PStr (type message)) ];
     timestamp := Some (now_isoformat k) |}.

(** The state after [agent] was entered and read the clock once. *)
Definition world_after_refusal (agent : string) (w : World) : World :=
  set_clock (S (clock w)) (set_invoked (invoked w ++ [agent]) w).

End Refusals.

(** ** A sample environment and sample inputs *)

Definition demo_externals : Externals :=
  {| uuid4_str := fun k => "uuid-" +:+ str_of_int (Z.of_nat k);
     now_isoformat := fun k => "2024-01-01T00:00:" +:+ str_of_int (Z.of_nat k);
     repr_compound := fun _ => "<object>";
     float_repr := fun f => str_of_int f +:+ ".0";
     float_of_str := fun s => Json.int_of_str (Json.span_digits s).1;
     int_lt_float := fun n f => n <? f;
     json_encoder_depth := 900;
     json_decoder_depth := 900;
     ndarray := list Z;
     array_len := len;
     astype_float32 := fun v => v;
     norm_is_positive := fun v => existsb (fun x => negb (x =? 0)) v;
     divide_by_norm := fun v => v;
     faiss_search := fun rows q k =>
       match k with
       | PInt k =>
           if 0 <? k
           then Ok (firstn (Z.to_nat k)
                      (map (fun i => (0, Z.of_nat i)) (seq 0 (length rows))))
           else Error ""
       | _ => Error ("'" +:+ type_name k +:+ "' object cannot be interpreted as an integer")
       end;
     embedder := nat;
     embedder_init := 0%nat;
     tfidf_vector := fun e _ =>
       match e with
       | O => (1%nat, Error "max_df corresponds to < documents than min_df")
       | S _ => (S e, Ok (repeat (Z.of_nat e) 1000))
       end;
     random_vector := fun e => (e, repeat 1 1000);
     document_parse := fun content _ =>
       match content with
       | PBytes s => Ok [("text", PStr s); ("metadata", PDict [("parser", PStr "text")])]
       | _ => Error "a bytes-like object is required"
       end;
     contextual_response := fun _ _ => Ok "Based on the uploaded documents:" |}.

(** Two stores of dimension 2 holding the identifiers a and b: in
    [shared_store] both were inserted with the one dictionary at address
    0, in [separate_store] each with a dictionary of its own. *)
Definition two_objects : gmap nat dict :=
  {[ 0%nat := [("document_name", PStr "notes.txt")];
     1%nat := [("document_name", PStr "notes.txt")] ]}.

Definition store_with (meta_a meta_b : nat) : VectorStore.t (H:=demo_externals) :=
  let vs0 := VectorStore.__init__ (H:=demo_externals) 2 in
  match VectorStore.add_vector (H:=demo_externals) vs0 "a" [3; 4] meta_a with
  | Error _ => vs0
  | Ok vs1 =>
      match VectorStore.add_vector (H:=demo_externals) vs1 "b" [1; 0] meta_b with
      | Error _ => vs1
      | Ok vs2 => vs2
      end
  end.

Definition shared_store := store_with 0 0.
Definition separate_store := store_with 0 1.

(** A query without text and a query with text, as the front end
    sends them. *)
Definition empty_query : MCPMessage :=
  {| sender := "UI"; receiver := "CoordinatorAgent"; type := QUERY_REQUEST;
     trace_id := "trace-1";
     payload := [ ("query", PStr ""); ("conversation_history", PList []) ];
     timestamp := Some "2024-01-01T00:00:00" |}.

Definition plain_query : MCPMessage :=
  {| sender := "UI"; receiver := "CoordinatorAgent"; type := QUERY_REQUEST;
     trace_id := "trace-2";
     payload := [ ("query", PStr "what is chunking");
                  ("conversation_history", PList []) ];
     timestamp := Some "2024-01-01T00:00:00" |}.

(** A parsed document of three chunks, the second without text. *)
Definition three_chunks : MCPMessage :=
  {| sender := "IngestionAgent"; receiver := "CoordinatorAgent";
     type := DOCUMENT_PARSED; trace_id := "trace-3";
     payload :=
       [ ("status", PStr "success");
         ("document_id", PStr "doc-1");
         ("file_name", PStr "notes.txt");
         ("chunks",
           PList [ PDict [("id", PStr "c0"); ("text", PStr "alpha beta")];
                   PDict [("id", PStr "c1")];
                   PDict [("id", PStr "c2"); ("text", PStr "gamma")] ]);
         ("metadata", PDict [("parser", PStr "text")]);
         ("total_chunks", PInt 3) ];
     timestamp := Some "2024-01-01T00:00:00" |}.

(** An upload without declared type whose extension names no parser. *)
Definition upload_rtf_without_type : MCPMessage :=
  {| sender := "UI"; receiver := "CoordinatorAgent"; type := DOCUMENT_UPLOAD;
     trace_id := "trace-10";
     payload := [ ("file_name", PStr "notes.rtf");
                  ("file_content", PBytes "alpha beta gamma") ];
     timestamp := Some "2024-01-01T00:00:00" |}.

(** An upload without declared type. *)
Definition upload_without_type : MCPMessage :=
  {| sender := "UI"; receiver := "CoordinatorAgent"; type := DOCUMENT_UPLOAD;
     trace_id := "trace-0";
     payload := [ ("file_name", PStr "Notes.TXT");
                  ("file_content", PBytes "alpha beta gamma") ];
     timestamp := Some "2024-01-01T00:00:00" |}.

(** A query whose history nests lists and dictionaries. *)
Definition nested_query : MCPMessage :=
  {| sender := "UI"; receiver := "CoordinatorAgent"; type := QUERY_REQUEST;
     trace_id := "trace-4";
     payload :=
       [ ("query", PStr ("what is " +:+ String Json.quote "x" +:+ String Json.quote "?"));
         ("top_k", PInt (-5));
         ("conversation_history",
           PList [ PDict [("role", PStr "user"); ("content", PStr "hello")];
                   PDict [("role", PStr "assistant");
                          ("content", PStr "hi");
                          ("sources", PList [PStr "a.txt (chunk 0)"; PNone]);
                          ("flags", PDict [("final", PBool true); ("n", PInt 0)])];
                   PList []; PDict [] ]) ];
     timestamp := Some "2024-01-01T00:00:00" |}.

(** A text of [n] one-letter words. *)
Fixpoint repeat_words (n : nat) : string :=
  match n with O => "" | S n' => "w " +:+ repeat_words n' end.

(** *** Further samples *)

(** A status message, which the coordinator does not handle. *)
Definition status_message : MCPMessage :=
  {| sender := "UI"; receiver := "CoordinatorAgent"; type := STATUS_UPDATE;
     trace_id := "trace-5"; payload := [ ("status", PStr "idle") ];
     timestamp := Some "2024-01-01T00:00:00" |}.

(** An upload whose extension names no parser, and an upload whose text
    is blank. *)
Definition upload_unsupported : MCPMessage :=
  {| sender := "UI"; receiver := "CoordinatorAgent"; type := DOCUMENT_UPLOAD;
     trace_id := "trace-6";
     payload := [ ("file_name", PStr "notes.rtf");
                  ("file_content", PBytes "alpha beta gamma");
                  ("file_type", PStr "application/rtf") ];
     timestamp := Some "2024-01-01T00:00:00" |}.

Definition upload_blank : MCPMessage :=
  {| sender := "UI"; receiver := "CoordinatorAgent"; type := DOCUMENT_UPLOAD;
     trace_id := "trace-7";
     payload := [ ("file_name", PStr "blank.txt");
                  ("file_content", PBytes "   ") ];
     timestamp := Some "2024-01-01T00:00:00" |}.

(** A parsed document of two chunks, both with text and identifier. *)
Definition two_chunks : list dict :=
  [ [("id", PStr "c0"); ("text", PStr "alpha beta")];
    [("id", PStr "c1"); ("text", PStr "gamma")] ].

Definition two_chunks_parsed : MCPMessage :=
  {| sender := "IngestionAgent"; receiver := "CoordinatorAgent";
     type := DOCUMENT_PARSED; trace_id := "trace-8";
     payload :=
       [ ("status", PStr "success");
         ("document_id", PStr "doc-2");
         ("file_name", PStr "notes.txt");
         ("chunks", PList (map PDict two_chunks));
         ("metadata", PDict [("parser", PStr "text")]);
         ("total_chunks", PInt 2) ];
     timestamp := Some "2024-01-01T00:00:00" |}.

(** The sample environment with a template engine that fails, and a
    retrieval result for the Response Agent. *)
Definition failing_llm_externals : Externals :=
  {| uuid4_str := uuid4_str (Externals:=demo_externals);
     now_isoformat := now_isoformat (Externals:=demo_externals);
     repr_compound := repr_compound (Externals:=demo_externals);
     float_repr := float_repr (Externals:=demo_externals);
     float_of_str := float_of_str (Externals:=demo_externals);
     int_lt_float := int_lt_float (Externals:=demo_externals);
     json_encoder_depth := json_encoder_depth (Externals:=demo_externals);
     json_decoder_depth := json_decoder_depth (Externals:=demo_externals);
     ndarray := list Z;
     array_len := len;
     astype_float32 := fun v => v;
     norm_is_positive := fun v => existsb (fun x => negb (x =? 0)) v;
     divide_by_norm := fun v => v;
     faiss_search := fun _ _ _ => Ok [];
     embedder := nat;
     embedder_init := 0%nat;
     tfidf_vector := fun e _ => (S e, Ok (repeat (Z.of_nat e) 1000));
     random_vector := fun e => (e, repeat 1 1000);
     document_parse := document_parse (Externals:=demo_externals);
     contextual_response := fun _ _ => Error "'int' object has no attribute 'lower'" |}.

Definition retrieval_result_message : MCPMessage :=
  {| sender := "CoordinatorAgent"; receiver := "LLMResponseAgent";
     type := RETRIEVAL_RESULT; trace_id := "trace-9";
     payload :=
       [ ("status", PStr "success");
         ("query", PInt 7);
         ("retrieved_chunks", PList [PDict [("id", PStr "c0"); ("text", PStr "alpha")]]);
         ("sources", PList [PStr "notes.txt (chunk 0)"]);
         ("total_results", PInt 1) ];
     timestamp := Some "2024-01-01T00:00:00" |}.

(** The state of the sample coordinator after one upload. *)
Definition world_after_upload : World (H:=demo_externals) :=
  (CoordinatorAgent.handle_message (H:=demo_externals) upload_without_type
     initial_world).2.

(** * Properties *)

(** ** Strings *)

Lemma app_nil_l (s : string) : "" +:+ s = s.
Proof. reflexivity. Qed.

Lemma app_cons (c : ascii) (s t : string) : String c s +:+ t = String c (s +:+ t).
Proof. reflexivity. Qed.

Lemma app_nil_r (s : string) : s +:+ "" = s.
Proof. induction s as [|c s IH]; [reflexivity | now rewrite app_cons, IH]. Qed.

Lemma app_assoc (a b c : string) : (a +:+ b) +:+ c = a +:+ (b +:+ c).
Proof. induction a as [|x a IH]; [reflexivity | now rewrite !app_cons, IH]. Qed.

Lemma string_length_app (a b : string) :
  String.length (a +:+ b) = (String.length a + String.length b)%nat.
Proof.
  induction a as [|c a IH]; [reflexivity |].
  rewrite app_cons. cbn [String.length]. now rewrite IH.
Qed.

Lemma append_eq_nil (a b : string) : a +:+ b = "" -> a = "" /\ b = "".
Proof. destruct a; [auto | rewrite app_cons; discriminate]. Qed.

Lemma all_space_app (a b : string) :
  all_space (a +:+ b) = all_space a && all_space b.
Proof.
  induction a as [|c a IH]; [reflexivity |].
  rewrite app_cons. simpl. rewrite IH. now rewrite andb_assoc.
Qed.

Lemma all_space_rev (s : string) : all_space (string_rev s) = all_space s.
Proof.
  induction s as [|c s IH]; simpl; [reflexivity |].
  rewrite all_space_app, IH. simpl. rewrite andb_true_r. apply andb_comm.
Qed.

Lemma all_space_lstrip (s : string) : all_space (lstrip s) = all_space s.
Proof.
  induction s as [|c s IH]; simpl; [reflexivity |].
  destruct (isspace c) eqn:E; simpl; [exact IH | now rewrite E].
Qed.

Lemma lstrip_nil_iff (s : string) : lstrip s = "" <-> all_space s = true.
Proof.
  induction s as [|c s IH]; simpl; [tauto |].
  destruct (isspace c); simpl; [exact IH | split; discriminate].
Qed.

Lemma string_rev_nil_iff (s : string) : string_rev s = "" <-> s = "".
Proof.
  split; [| intros ->; reflexivity].
  destruct s as [|c s]; simpl; [reflexivity |].
  intros E. apply append_eq_nil in E. destruct E as [_ E]. discriminate.
Qed.

(** [text.strip()] is empty exactly for the whitespace-only texts. *)
Lemma strip_nil_iff (s : string) : strip s = "" <-> all_space s = true.
Proof.
  unfold strip, rstrip.
  rewrite string_rev_nil_iff, lstrip_nil_iff, all_space_rev, all_space_lstrip.
  reflexivity.
Qed.

Lemma strip_eqb (s : string) : String.eqb (strip s) "" = all_space s.
Proof.
  destruct (all_space s) eqn:E.
  - apply String.eqb_eq, strip_nil_iff, E.
  - apply String.eqb_neq. intros St. apply strip_nil_iff in St. congruence.
Qed.

Lemma split_from_nil_iff (cur s : string) :
  split_from cur s = [] <-> cur = "" /\ all_space s = true.
Proof.
  revert cur. induction s as [|c s IH]; intros cur; simpl.
  - destruct (String.eqb_spec cur "") as [->|Hne].
    + tauto.
    + split; [discriminate | intros [E _]; congruence].
  - destruct (isspace c); simpl.
    + destruct (String.eqb_spec cur "") as [->|Hne].
      * rewrite IH. tauto.
      * split; [discriminate | intros [E _]; congruence].
    + rewrite IH. split; [| intros [_ E]; discriminate].
      intros [E _]. apply append_eq_nil in E. destruct E as [_ E]. discriminate.
Qed.

(** [text.split()] is empty exactly for the whitespace-only texts. *)
Lemma split_nil_iff (s : string) : split s = [] <-> all_space s = true.
Proof. unfold split. rewrite split_from_nil_iff. tauto. Qed.

(** ** Chunking *)

Section ChunkingProps.
Context `{Externals}.

Lemma range_from_zero (n step : Z) :
  0 < step ->
  range 0 n step =
  Ok (map (fun k => step * Z.of_nat k) (seq 0 (Z.to_nat ((n + step - 1) / step)))).
Proof.
  intros Hs. unfold range.
  destruct (Z.eqb_spec step 0) as [E|_]; [lia |].
  destruct (Z.ltb_spec 0 step) as [_|E]; [| lia].
  f_equal. replace (n - 0 + step - 1) with (n + step - 1) by lia.
  apply map_ext. intros k. lia.
Qed.

(** The loop, started at ordinal [k0] with [k0] chunks built, runs up to
    the first ordinal [m] whose window reaches the end of the words. *)
Lemma chunk_loop_run (words : list string) (src : pyval) (cs step : Z) (u0 : nat) :
  forall (cnt k0 m : nat) (chunks : list dict),
    (k0 <= m < k0 + cnt)%nat ->
    (forall k, (k0 <= k < m)%nat -> step * Z.of_nat k + cs < len words) ->
    step * Z.of_nat m + cs >= len words ->
    length chunks = k0 ->
    IngestionAgent.chunk_loop words src cs
      (map (fun k => step * Z.of_nat k) (seq k0 cnt)) chunks (u0 + k0)
    = (chunks ++ map (chunk_at words src cs step u0) (seq k0 (S m - k0)),
       (u0 + S m)%nat).
Proof.
  induction cnt as [|cnt IH]; intros k0 m chunks Hm Hlt Hge Hlen; [lia |].
  cbn [seq map IngestionAgent.chunk_loop].
  assert (Hc : len chunks = Z.of_nat k0) by (unfold len; now rewrite Hlen).
  rewrite Hc.
  destruct (Z.geb_spec (step * Z.of_nat k0 + cs) (len words)) as [Hstop|Hgo].
  - assert (m = k0) as ->.
    { destruct (Nat.eq_dec m k0) as [|Hne]; [assumption |].
      specialize (Hlt k0 ltac:(lia)). lia. }
    replace (S k0 - k0)%nat with 1%nat by lia.
    cbn [seq map]. f_equal. lia.
  - assert (Hk : (k0 < m)%nat).
    { destruct (Nat.eq_dec m k0) as [->|Hne]; lia. }
    replace (S (u0 + k0)) with (u0 + S k0)%nat by lia.
    rewrite (IH (S k0) m).
    + replace (S m - k0)%nat with (S (S m - S k0)) by lia.
      cbn [seq map]. rewrite <- List.app_assoc. reflexivity.
    + lia.
    + intros k Hk'. apply Hlt. lia.
    + assumption.
    + rewrite length_app. cbn. lia.
Qed.

Lemma last_ordinal_spec (n : Z) :
  1 <= n ->
  800 * Z.of_nat (last_ordinal n) + 1000 >= n
  /\ (forall k, (k < last_ordinal n)%nat -> 800 * Z.of_nat k + 1000 < n)
  /\ (last_ordinal n < Z.to_nat ((n + 800 - 1) / 800))%nat.
Proof.
  intros Hn. unfold last_ordinal.
  pose proof (Z.div_mod (n - 201) 800 ltac:(lia)) as E1.
  pose proof (Z.mod_pos_bound (n - 201) 800 ltac:(lia)) as B1.
  pose proof (Z.div_mod (n + 800 - 1) 800 ltac:(lia)) as E2.
  pose proof (Z.mod_pos_bound (n + 800 - 1) 800 ltac:(lia)) as B2.
  set (q1 := (n - 201) / 800) in *. set (q2 := (n + 800 - 1) / 800) in *.
  destruct (Z.le_gt_cases 0 q1) as [Hq|Hq].
  - rewrite Z2Nat.id by assumption. repeat split; lia.
  - replace (Z.to_nat q1) with 0%nat by lia. repeat split; lia.
Qed.

(** The run of [_chunk_text] with the default window on a text that
    holds a word. *)
Lemma chunk_text_default_run (text : string) (src : pyval) (u : nat) :
  all_space text = false ->
  IngestionAgent._chunk_text text src 1000 200 u =
  (Ok (map (chunk_at (split text) src 1000 800 u)
         (seq 0 (S (last_ordinal (len (split text)))))),
   (u + S (last_ordinal (len (split text))))%nat).
Proof.
  intros Hsp. unfold IngestionAgent._chunk_text.
  rewrite strip_eqb, Hsp.
  assert (Hn : 1 <= len (split text)).
  { destruct (split text) eqn:E.
    - apply split_nil_iff in E. congruence.
    - unfold len. cbn. lia. }
  change (1000 - 200) with 800.
  rewrite range_from_zero by lia.
  destruct (last_ordinal_spec _ Hn) as (Hge & Hlt & Hcnt).
  pose proof (chunk_loop_run (split text) src 1000 800 u
                (Z.to_nat ((len (split text) + 800 - 1) / 800)) 0
                (last_ordinal (len (split text))) []) as Hrun.
  rewrite Nat.add_0_r in Hrun. rewrite Hrun.
  - rewrite Nat.sub_0_r. reflexivity.
  - lia.
  - intros k Hk. apply Hlt. lia.
  - assumption.
  - reflexivity.
Qed.

End ChunkingProps.

(** C1, as the specification states it, fails on a text of 2500 words:
    the loop leaves at offset 1600, whose window already reaches the last
    word, and no chunk starts at offset 2400. *)
Lemma chunk_text_2500_words_not_four :
  len (split (repeat_words 2500)) = 2500
  /\ offsets_of_run
       (IngestionAgent._chunk_text (H:=demo_externals) (repeat_words 2500)
          (PStr "doc.txt") 1000 200 0)
     <> [ (PInt 0, PInt 1000); (PInt 800, PInt 1800);
          (PInt 1600, PInt 2500); (PInt 2400, PInt 2500) ].
Proof.
  split; [vm_compute; reflexivity |].
  assert (E3 : offsets_of_run
                 (IngestionAgent._chunk_text (H:=demo_externals) (repeat_words 2500)
                    (PStr "doc.txt") 1000 200 0)
               = [ (PInt 0, PInt 1000); (PInt 800, PInt 1800);
                   (PInt 1600, PInt 2500) ])
    by (vm_compute; reflexivity).
  rewrite E3. discriminate.
Qed.

(** C1 (amended): for a text of 2500 words, with the default
    [chunk_size=1000] and [overlap=200], chunking yields exactly three
    chunks, with start offsets 0, 800, 1600 and end offsets 1000, 1800,
    2500. *)
Theorem chunk_text_2500_words `{Externals} (text : string) (src : pyval) (u : nat) :
  len (split text) = 2500 ->
  exists chunks,
    IngestionAgent._chunk_text text src 1000 200 u = (Ok chunks, (u + 3)%nat)
    /\ length chunks = 3%nat
    /\ chunk_offsets chunks =
       [ (PInt 0, PInt 1000); (PInt 800, PInt 1800); (PInt 1600, PInt 2500) ].
Proof.
  intros Hn.
  assert (Hsp : all_space text = false).
  { destruct (all_space text) eqn:E; [| reflexivity].
    apply split_nil_iff in E. rewrite E in Hn. discriminate Hn. }
  rewrite (chunk_text_default_run text src u Hsp), Hn.
  change (last_ordinal 2500) with 2%nat.
  eexists. split; [reflexivity |]. split; [reflexivity |].
  unfold chunk_offsets, chunk_at. cbn [seq map]. rewrite Hn. reflexivity.
Qed.

Lemma chunk_text_2500_words_witness :
  len (split (repeat_words 2500)) = 2500
  /\ exists chunks,
       IngestionAgent._chunk_text (H:=demo_externals) (repeat_words 2500)
         (PStr "doc.txt") 1000 200 0 = (Ok chunks, 3%nat)
       /\ length chunks = 3%nat
       /\ chunk_offsets chunks =
          [ (PInt 0, PInt 1000); (PInt 800, PInt 1800); (PInt 1600, PInt 2500) ].
Proof.
  split; [vm_compute; reflexivity |].
  apply (chunk_text_2500_words (H:=demo_externals) (repeat_words 2500) (PStr "doc.txt") 0).
  vm_compute; reflexivity.
Defined.

(** C2: for every text, chunking with the default window enumerates the
    offsets 0, 800, 1600, ...; the chunk at offset [i] has
    [start_word = i], [end_word = min(i + 1000, total_words)] and an
    ordinal index equal to the number of chunks emitted before it; the
    loop stops after the chunk at the first offset with
    [i + 1000 >= total_words]; an empty or whitespace-only text yields
    no chunk. *)
Theorem chunk_text_enumerates_offsets `{Externals}
    (text : string) (src : pyval) (u : nat) :
  let words := split text in
  let m := last_ordinal (len words) in
  IngestionAgent._chunk_text text src 1000 200 u =
    (if all_space text then (Ok [], u)
     else (Ok (map (chunk_at words src 1000 800 u) (seq 0 (S m))), (u + S m)%nat))
  /\ (all_space text = true
      \/ (800 * Z.of_nat m + 1000 >= len words
          /\ Forall (fun k => 800 * Z.of_nat k + 1000 < len words) (seq 0 m)))
  /\ Forall (fun k =>
       let c := chunk_at words src 1000 800 u k in
       dict_lookup "start_word" c = Some (PInt (800 * Z.of_nat k))
       /\ dict_lookup "end_word" c
          = Some (PInt (Z.min (800 * Z.of_nat k + 1000) (len words)))
       /\ dict_lookup "chunk_index" c = Some (PInt (Z.of_nat k)))
     (seq 0 (S m)).
Proof.
  intros words m. destruct (all_space text) eqn:Hsp.
  - split; [| split].
    + unfold IngestionAgent._chunk_text. now rewrite strip_eqb, Hsp.
    + now left.
    + apply Forall_forall. intros k _. cbn. auto.
  - split; [| split].
    + apply chunk_text_default_run, Hsp.
    + right.
      assert (Hn : 1 <= len words).
      { subst words. destruct (split text) eqn:E.
        - apply split_nil_iff in E. congruence.
        - unfold len. cbn. lia. }
      destruct (last_ordinal_spec _ Hn) as (Hge & Hlt & _).
      split; [exact Hge |].
      apply Forall_forall. intros k Hk. apply Hlt.
      apply elem_of_seq in Hk. lia.
    + apply Forall_forall. intros k _. cbn. auto.
Qed.

(** ** Dictionaries *)

Lemma dict_lookup_set_eq (k : string) (v : pyval) (d : dict) :
  dict_lookup k (dict_set k v d) = Some v.
Proof.
  induction d as [|[k' v'] d IH]; cbn.
  - now rewrite String.eqb_refl.
  - destruct (String.eqb_spec k k') as [->|Hne]; cbn.
    + now rewrite String.eqb_refl.
    + destruct (String.eqb_spec k k'); [contradiction | exact IH].
Qed.

Lemma dict_lookup_set_ne (k k0 : string) (v : pyval) (d : dict) :
  k0 <> k -> dict_lookup k0 (dict_set k v d) = dict_lookup k0 d.
Proof.
  intros Hne. induction d as [|[k' v'] d IH]; cbn.
  - destruct (String.eqb_spec k0 k); [contradiction | reflexivity].
  - destruct (String.eqb_spec k k') as [->|Hk]; cbn.
    + destruct (String.eqb_spec k0 k'); [contradiction | reflexivity].
    + destruct (String.eqb_spec k0 k'); [reflexivity | exact IH].
Qed.

Lemma dict_set_idem (k : string) (v : pyval) (d : dict) :
  dict_set k v (dict_set k v d) = dict_set k v d.
Proof.
  induction d as [|[k' v'] d IH]; cbn.
  - now rewrite String.eqb_refl.
  - destruct (String.eqb_spec k k') as [->|Hne]; cbn.
    + now rewrite String.eqb_refl.
    + destruct (String.eqb_spec k k'); [contradiction | now rewrite IH].
Qed.

(** ** Vector store *)

Section VectorStoreProps.
Context `{Externals}.

Import VectorStore.

Lemma is_active_after_flag (h : heap) (a : addr) (o : dict) :
  is_active (<[a := dict_set "deleted" (PBool true) o]> h) a = false.
Proof.
  unfold is_active, deref, dict_get. rewrite lookup_insert_eq.
  cbn [default from_option id]. now rewrite dict_lookup_set_eq.
Qed.

Lemma is_active_other (h : heap) (a a' : addr) (o : dict) :
  a' <> a -> is_active (<[a := o]> h) a' = is_active h a'.
Proof.
  intros Hne. unfold is_active, deref. now rewrite lookup_insert_ne.
Qed.

Lemma filter_length_ext {A} (P Q : A -> Prop) `{!forall x, Decision (P x)}
    `{!forall x, Decision (Q x)} (l : list A) :
  (forall x, x ∈ l -> (P x <-> Q x)) ->
  length (filter P l) = length (filter Q l).
Proof.
  induction l as [|x l IH]; intros Hpq; [reflexivity |].
  rewrite !filter_cons.
  assert (Hx : P x <-> Q x) by (apply Hpq; left).
  assert (Hl : length (filter P l) = length (filter Q l)).
  { apply IH. intros y Hy. apply Hpq. now right. }
  destruct (decide (P x)), (decide (Q x)); cbn; tauto || lia.
Qed.

(** The count of active records, split at one identifier. *)
Lemma active_vectors_split (vs : t) (h : heap) (id : string) (a : addr) :
  metadata_store vs !! id = Some a ->
  active_vectors vs h =
  (if is_active h a then 1 else 0)
  + len (filter (fun kv : string * addr => is_active h kv.2 = true)
           (map_to_list (delete id (metadata_store vs)))).
Proof.
  intros Hid. unfold active_vectors, len.
  rewrite <- (insert_delete_id (metadata_store vs) id a Hid) at 1.
  rewrite (map_to_list_insert (delete id (metadata_store vs)) id a)
    by apply lookup_delete_eq.
  rewrite filter_cons. cbn [snd].
  destruct (decide (is_active h a = true)) as [E|E].
  - rewrite E. cbn [length]. lia.
  - destruct (is_active h a); [congruence | cbn; lia].
Qed.

End VectorStoreProps.

Section SoftDelete.
Context `{Externals}.

Import VectorStore.

(** C5 (amended): for an id present in the store whose metadata is not
    flagged deleted and is not shared with the record of another id,
    [remove_vector] returns true and only sets the deleted flag of that
    metadata: the store's index, mappings and counters and every other
    object are unchanged, [active_vectors] decreases by exactly one,
    [total_vectors] does not change, and every search returns what it
    returned before, the removed id included. *)
Theorem remove_vector_soft_delete (vs : t) (h : heap) (id : string) (a : addr) :
  metadata_store vs !! id = Some a ->
  is_active h a = true ->
  (forall id', metadata_store vs !! id' = Some a -> id' = id) ->
  let '(b, vs', h') := remove_vector vs h id in
  b = true
  /\ vs' = vs
  /\ h' = <[a := dict_set "deleted" (PBool true) (deref h a)]> h
  /\ dict_lookup "deleted" (deref h' a) = Some (PBool true)
  /\ (forall k, k <> "deleted" ->
        dict_lookup k (deref h' a) = dict_lookup k (deref h a))
  /\ (forall a', a' <> a -> h' !! a' = h !! a')
  /\ (forall id' a', id' <> id -> metadata_store vs !! id' = Some a' ->
        deref h' a' = deref h a')
  /\ active_vectors vs' h' = active_vectors vs h - 1
  /\ dict_lookup "total_vectors" (get_statistics vs' h')
     = dict_lookup "total_vectors" (get_statistics vs h)
  /\ (forall q top_k, search vs' q top_k = search vs q top_k).
Proof.
  intros Hid Hact Hown. unfold remove_vector. rewrite Hid.
  set (h' := <[a := dict_set "deleted" (PBool true) (deref h a)]> h).
  assert (Hda : deref h' a = dict_set "deleted" (PBool true) (deref h a)).
  { unfold deref at 1, h'. now rewrite lookup_insert_eq. }
  repeat split.
  - rewrite Hda. apply dict_lookup_set_eq.
  - intros k Hk. rewrite Hda. now apply dict_lookup_set_ne.
  - intros a' Ha'. unfold h'. now rewrite lookup_insert_ne.
  - intros id' a' Hne Hid'. unfold deref, h'.
    rewrite lookup_insert_ne; [reflexivity |].
    intros ->. apply Hne. now apply Hown.
  - rewrite (active_vectors_split vs h' id a Hid).
    rewrite (active_vectors_split vs h id a Hid).
    unfold h' at 1. rewrite is_active_after_flag, Hact.
    unfold len.
    rewrite (filter_length_ext
               (fun kv : string * addr => is_active h' kv.2 = true)
               (fun kv : string * addr => is_active h kv.2 = true)).
    + lia.
    + intros [id' a'] Hin. cbn [snd].
      apply elem_of_map_to_list in Hin.
      apply lookup_delete_Some in Hin. destruct Hin as [Hne Hid'].
      unfold h'. rewrite is_active_other; [reflexivity |].
      intros ->. apply Hne. symmetry. now apply Hown.
Qed.

(** C9: [remove_vector] returns true exactly when the id is present in
    the metadata store, whatever its deleted flag; a second call on the
    same id returns the same flag and leaves the store and the objects,
    hence [active_vectors], as the first call left them. *)
Theorem remove_vector_idempotent (vs : t) (h : heap) (vid : string) :
  let '(b1, vs1, h1) := remove_vector vs h vid in
  let '(b2, vs2, h2) := remove_vector vs1 h1 vid in
  (b1 = true <-> is_Some (metadata_store vs !! vid))
  /\ b2 = b1 /\ vs2 = vs1 /\ h2 = h1
  /\ active_vectors vs2 h2 = active_vectors vs1 h1
  /\ get_statistics vs2 h2 = get_statistics vs1 h1.
Proof.
  unfold remove_vector.
  destruct (metadata_store vs !! vid) as [a|] eqn:Hid; rewrite Hid.
  - assert (E : <[a := dict_set "deleted" (PBool true)
                        (deref (<[a := dict_set "deleted" (PBool true) (deref h a)]> h) a)]>
                  (<[a := dict_set "deleted" (PBool true) (deref h a)]> h)
                = <[a := dict_set "deleted" (PBool true) (deref h a)]> h).
    { unfold deref at 1. rewrite lookup_insert_eq. cbn [default from_option id].
      rewrite dict_set_idem. apply insert_insert_eq. }
    rewrite E. repeat split; eauto.
  - repeat split; try reflexivity.
    + discriminate.
    + intros [x Hx]. discriminate Hx.
Qed.

End SoftDelete.

(** C5, as the specification states it, fails when two ids were inserted
    with one and the same metadata dictionary: removing one of them flags
    the record of the other too and [active_vectors] falls from 2 to 0. *)
Lemma remove_vector_shared_metadata :
  VectorStore.metadata_store shared_store !! "a" = Some 0%nat
  /\ VectorStore.is_active two_objects 0 = true
  /\ VectorStore.active_vectors shared_store two_objects = 2
  /\ VectorStore.active_vectors shared_store
       (VectorStore.remove_vector shared_store two_objects "a").2 = 0
  /\ VectorStore.get_metadata shared_store "b" = Some 0%nat
  /\ VectorStore.deref
       (VectorStore.remove_vector shared_store two_objects "a").2 0
     <> VectorStore.deref two_objects 0.
Proof.
  repeat split; try (vm_compute; reflexivity).
  intros E. vm_compute in E. discriminate E.
Qed.

Lemma remove_vector_soft_delete_witness :
  VectorStore.metadata_store separate_store !! "a" = Some 0%nat
  /\ VectorStore.active_vectors separate_store two_objects = 2
  /\ VectorStore.active_vectors separate_store
       (VectorStore.remove_vector separate_store two_objects "a").2 = 1
  /\ VectorStore.search separate_store [3; 4] (PInt 5)
     = Ok [("a", 0); ("b", 0)].
Proof.
  assert (Hid : VectorStore.metadata_store separate_store !! "a" = Some 0%nat)
    by (vm_compute; reflexivity).
  assert (Hown : forall id', VectorStore.metadata_store separate_store !! id' = Some 0%nat
                             -> id' = "a").
  { intros id' Hid'.
    destruct (decide (id' = "a")) as [|Hne]; [assumption |].
    destruct (decide (id' = "b")) as [->|Hnb]; [vm_compute in Hid'; discriminate |].
    exfalso.
    assert (Hm : VectorStore.metadata_store separate_store
                 = <["b" := 1%nat]> (<["a" := 0%nat]> ∅)) by reflexivity.
    rewrite Hm in Hid'.
    rewrite lookup_insert_ne in Hid' by congruence.
    rewrite lookup_insert_ne in Hid' by congruence.
    rewrite lookup_empty in Hid'. discriminate Hid'. }
  pose proof (remove_vector_soft_delete (H:=demo_externals) separate_store two_objects
                "a" 0%nat Hid ltac:(vm_compute; reflexivity) Hown) as W.
  destruct (VectorStore.remove_vector separate_store two_objects "a") as [[b vs'] h'] eqn:E.
  destruct W as (_ & -> & _ & _ & _ & _ & _ & Hact & _ & Hsearch).
  cbn [snd]. split; [exact Hid |].
  split; [vm_compute; reflexivity |].
  split; [rewrite Hact; vm_compute; reflexivity |].
  vm_compute; reflexivity.
Defined.

(** ** Vector store: insertion and search, floating point apart *)

Section VectorStoreShape.
Context `{Externals}.

Import VectorStore.

(** Insertion appends one row: the quotient by the norm when the norm
    tests positive, the converted vector itself otherwise. What the
    quotient is worth numerically is a matter of float32 arithmetic and
    is not modelled. *)
Lemma add_vector_row (vs vs' : t) (vector_id : string) (embedding : ndarray)
    (metadata : addr) :
  add_vector vs vector_id embedding metadata = Ok vs' ->
  xb (index vs') =
  xb (index vs)
  ++ [ if norm_is_positive (astype_float32 embedding)
       then divide_by_norm (astype_float32 embedding)
       else astype_float32 embedding ]
  /\ ntotal (index vs') = ntotal (index vs) + 1
  /\ metadata_store vs' !! vector_id = Some metadata.
Proof.
  unfold add_vector, index_add, normalize.
  destruct (array_len _ =? d (index vs)); [| discriminate].
  intros E. injection E as <-. cbn [index xb metadata_store].
  split; [reflexivity |]. split.
  - unfold ntotal, len. cbn [xb]. rewrite length_app. cbn [length]. lia.
  - apply lookup_insert_eq.
Qed.

(** The conversion loop keeps the hits in the order of the index and
    never adds one. *)
Lemma convert_results_sublist (index_to_id : gmap Z string) (hits : list (Z * Z)) :
  sublist (map snd (convert_results index_to_id hits)) (map fst hits).
Proof.
  induction hits as [|[similarity ix] hits IH]; cbn [convert_results map fst].
  - constructor.
  - destruct (index_to_id !! ix).
    + cbn [map snd]. now constructor.
    + now constructor.
Qed.

(** For an integer [top_k] the index is asked for the smaller of
    [top_k] and the number of its rows. *)
Lemma min_with_int_int (top_k n : Z) :
  min_with_int (PInt top_k) n = Ok (PInt (Z.min top_k n)).
Proof.
  cbn [min_with_int]. destruct (Z.ltb_spec n top_k); do 2 f_equal; lia.
Qed.

(** Provided the index returns at most [k] rows for a request of [k],
    a search for an integer [top_k >= 0] returns at most [top_k]
    results. *)
Lemma search_at_most_top_k (vs : t) (q : ndarray) (top_k : Z)
    (results : list (string * Z)) :
  (forall rows q k hits,
      faiss_search rows q (PInt k) = Ok hits -> len hits <= Z.max 0 k) ->
  0 <= top_k ->
  search vs q (PInt top_k) = Ok results ->
  len results <= top_k.
Proof.
  intros Hfaiss Hk. unfold search.
  destruct (ntotal (index vs) =? 0); [intros E; injection E as <-; unfold len; cbn [length]; lia |].
  rewrite min_with_int_int.
  destruct (faiss_search _ _ _) as [hits|e] eqn:Eh; [| discriminate].
  intros E. injection E as <-.
  apply Hfaiss in Eh.
  pose proof (sublist_length _ _ (convert_results_sublist (index_to_id vs) hits)) as Hl.
  rewrite !length_map in Hl. unfold len in *. lia.
Qed.

End VectorStoreShape.

(** ** Symbolic execution *)

(** The world projections commute with the field updates. *)
Ltac world_simpl :=
  cbn [clock uuids stdout objects next_addr invoked processed_documents
       vector_store embedding_generator document_chunks message_history
       trace_sessions set_clock set_uuids set_stdout set_objects set_next_addr
       set_invoked set_processed_documents set_vector_store
       set_embedding_generator set_document_chunks set_message_history
       set_trace_sessions
       sender receiver type trace_id payload timestamp fst snd].

Ltac run_monad :=
  repeat progress
    (cbv beta iota zeta delta
       [bind ret raise lift modify enter try_except get_world route_message
        new_message datetime_now create_response_message create_error_message
        print alloc uuid4 negb];
     world_simpl).

(** ** Embedding generator *)

(** [generate_embedding] never raises: it returns the vector of the
    vectorizer, or prints its warning and returns a random vector. *)
Lemma generate_embedding_run `{Externals} (text : pyval) (w : World) :
  LocalEmbeddingGenerator.generate_embedding text w =
  (Ok (embedding_vector (embedding_generator w) text), world_after_embedding text w).
Proof.
  unfold LocalEmbeddingGenerator.generate_embedding, LocalEmbeddingGenerator.vectorize,
    LocalEmbeddingGenerator.random_embedding, try_except, world_after_embedding,
    embedding_lines, embedding_vector, bind, print, modify.
  destruct (tfidf_vector (embedding_generator w) text) as [g [v|e]].
  - cbn [fst snd]. rewrite List.app_nil_r. reflexivity.
  - world_simpl. destruct (random_vector g) as [g' v]. reflexivity.
Qed.

(** ** Coordinator: query workflow *)

Section CoordinatorProps.
Context `{Externals}.

Lemma create_error_message_ok (m : MCPMessage) (sender_name e : string) (w : World) :
  create_error_message m sender_name e w =
  (Ok {| sender := sender_name; receiver := sender m; type := ERROR;
         trace_id := trace_id m;
         payload := [ ("error", PStr e); ("original_type", PStr (type m)) ];
         timestamp := Some (now_isoformat (clock w)) |},
   set_clock (S (clock w)) w).
Proof. reflexivity. Qed.

(** A [try] whose handler only builds an error message never raises. *)
Lemma try_except_error_message_ok (body : M MCPMessage) (m : MCPMessage)
    (sender_name : string) (text : exn -> string) (w : World) :
  exists out w',
    try_except body (fun e => create_error_message m sender_name (text e)) w
    = (Ok out, w').
Proof.
  unfold try_except. destruct (body w) as [[out|e] w1].
  - eexists _, _. reflexivity.
  - rewrite create_error_message_ok. eexists _, _. reflexivity.
Qed.

(** The entry point converts every failure into a message. *)
Lemma coordinator_never_raises (message : MCPMessage) (w : World) :
  exists out w', CoordinatorAgent.handle_message message w = (Ok out, w').
Proof.
  unfold CoordinatorAgent.handle_message.
  unfold bind at 1. unfold enter, modify.
  apply (try_except_error_message_ok _ message CoordinatorAgent.name
           (fun e => "Coordination error: " +:+ e)).
Qed.

(** C3: in the query workflow, when the Retrieval Agent answers the
    coordinator's request with an ERROR message, the coordinator returns
    normally a failure result whose error text names the retrieval stage,
    and all it does after the Retrieval Agent returned is to route that
    answer and stamp its own: no other agent, the Response Synthesizer in
    particular, is entered. *)
Theorem query_retrieval_error_stops_workflow
    (message response : MCPMessage) (w w1 : World) :
  type message = QUERY_REQUEST ->
  RetrievalAgent.handle_message (retrieval_request message w)
    (world_at_retrieval message w) = (Ok response, w1) ->
  type response = ERROR ->
  CoordinatorAgent.handle_message message w =
    (Ok {| sender := CoordinatorAgent.name;
           receiver := sender message;
           type := ERROR;
           trace_id := trace_id message;
           payload :=
             [ ("status", PStr "failed");
               ("error", PStr ("Retrieval failed: "
                  +:+ py_str (dict_get "error" PNone (payload response)))) ];
           timestamp := Some (now_isoformat (clock w1)) |},
     world_after_failure response w1)
  /\ invoked (world_after_failure response w1) = invoked w1
  /\ message_history (world_after_failure response w1)
     = message_history w1 ++ [response].
Proof.
  intros Hty Hret Herr.
  split; [| split; reflexivity].
  unfold CoordinatorAgent.handle_message, CoordinatorAgent._handle_query_request.
  rewrite Hty.
  change (String.eqb QUERY_REQUEST DOCUMENT_UPLOAD) with false.
  change (String.eqb QUERY_REQUEST QUERY_REQUEST) with true.
  cbv beta iota zeta delta
    [bind ret modify enter try_except route_message new_message datetime_now
     create_response_message].
  change (RetrievalAgent.handle_message _ _)
    with (RetrievalAgent.handle_message (retrieval_request message w)
            (world_at_retrieval message w)).
  rewrite Hret. cbv beta iota zeta. rewrite Herr.
  change (String.eqb ERROR ERROR) with true.
  cbv beta iota zeta. reflexivity.
Qed.

End CoordinatorProps.

Section QueryOnEmptyIndex.
Context `{Externals}.

(** The Retrieval Agent refuses a request without query text. *)
Lemma retrieval_rejects_empty_query (request : MCPMessage) (w : World) :
  type request = RETRIEVAL_REQUEST ->
  truthy (dict_get "query" PNone (payload request)) = false ->
  RetrievalAgent.handle_message request w =
  (Ok {| sender := RetrievalAgent.name; receiver := sender request;
         type := ERROR; trace_id := trace_id request;
         payload := [ ("error", PStr "No query provided for retrieval");
                      ("original_type", PStr (type request)) ];
         timestamp := Some (now_isoformat (clock w)) |},
   set_clock (S (clock w)) (set_invoked (invoked w ++ [RetrievalAgent.name]) w)).
Proof.
  intros Hty Hq. destruct request as [sd rc ty tr pl ts].
  cbn [type payload] in Hty, Hq. subst ty.
  unfold RetrievalAgent.handle_message, RetrievalAgent._retrieve_context.
  cbn [type payload]. rewrite Hq.
  change (String.eqb RETRIEVAL_REQUEST DOCUMENT_PARSED) with false.
  change (String.eqb RETRIEVAL_REQUEST RETRIEVAL_REQUEST) with true.
  reflexivity.
Qed.

(** On an index that holds no vector, a request with query text is
    answered with an empty result. *)
Lemma retrieval_on_empty_index (request : MCPMessage) (w : World) :
  type request = RETRIEVAL_REQUEST ->
  truthy (dict_get "query" PNone (payload request)) = true ->
  VectorStore.ntotal (VectorStore.index (vector_store w)) = 0 ->
  RetrievalAgent.handle_message request w =
  (Ok {| sender := RetrievalAgent.name; receiver := sender request;
         type := RETRIEVAL_RESULT; trace_id := trace_id request;
         payload := [ ("status", PStr "success");
                      ("query", dict_get "query" PNone (payload request));
                      ("retrieved_chunks", PList []);
                      ("sources", PList []);
                      ("total_results", PInt 0) ];
         timestamp := Some (now_isoformat (clock w)) |},
   set_clock (S (clock w))
     (world_after_embedding (dict_get "query" PNone (payload request))
        (set_invoked (invoked w ++ [RetrievalAgent.name]) w))).
Proof.
  intros Hty Hq Hn. destruct request as [sd rc ty tr pl ts].
  cbn [type payload sender trace_id] in *. subst ty.
  unfold RetrievalAgent.handle_message, RetrievalAgent._retrieve_context.
  cbn [type payload]. rewrite Hq.
  change (String.eqb RETRIEVAL_REQUEST DOCUMENT_PARSED) with false.
  change (String.eqb RETRIEVAL_REQUEST RETRIEVAL_REQUEST) with true.
  run_monad. rewrite generate_embedding_run.
  unfold world_after_embedding. run_monad. unfold VectorStore.search. rewrite Hn.
  cbn [Z.eqb RetrievalAgent.format_results]. run_monad. reflexivity.
Qed.

(** Given no retrieved chunk, the Response Agent answers with the fixed
    message. *)
Lemma llm_on_no_chunks (request : MCPMessage) (w : World) :
  type request = RETRIEVAL_RESULT ->
  truthy (dict_get "query" PNone (payload request)) = true ->
  dict_get "retrieved_chunks" (PList []) (payload request) = PList [] ->
  LLMResponseAgent.handle_message request w =
  (Ok {| sender := LLMResponseAgent.name; receiver := sender request;
         type := LLM_RESPONSE; trace_id := trace_id request;
         payload := [ ("status", PStr "success");
                      ("query", dict_get "query" PNone (payload request));
                      ("response", PStr LocalLLMGenerator.no_context_response);
                      ("sources", dict_get "sources" (PList []) (payload request));
                      ("context_chunks_used", PInt 0) ];
         timestamp := Some (now_isoformat (clock w)) |},
   set_clock (S (clock w))
     (set_invoked (invoked w ++ [LLMResponseAgent.name]) w)).
Proof.
  intros Hty Hq Hc. destruct request as [sd rc ty tr pl ts].
  cbn [type payload sender trace_id] in *. subst ty.
  unfold LLMResponseAgent.handle_message, LLMResponseAgent._generate_response.
  cbn [type payload]. rewrite Hq, Hc.
  change (String.eqb RETRIEVAL_RESULT RETRIEVAL_RESULT) with true.
  reflexivity.
Qed.

(** The fixed message, in one piece. *)
Lemma no_context_response_text :
  LocalLLMGenerator.no_context_response
  = "I don't have enough information in the uploaded documents to answer your question. Please make sure you've uploaded relevant documents and try asking a more specific question about the content in those documents.".
Proof. reflexivity. Qed.

(** C8 (amended): given a chunks list that is empty the synthesizer
    returns the fixed message, word for word; a search over an index that
    holds no vector returns no result; and a query that has a text, run
    by the coordinator against such an index, resolves to a success
    result carrying that message, an empty list of sources and a count of
    zero context chunks. *)
Theorem query_on_empty_index (message : MCPMessage) (w : World) :
  type message = QUERY_REQUEST ->
  truthy (dict_get "query" PNone (payload message)) = true ->
  VectorStore.ntotal (VectorStore.index (vector_store w)) = 0 ->
  (forall query chunks history,
      truthy chunks = false ->
      LocalLLMGenerator.generate_response query chunks history
      = "I don't have enough information in the uploaded documents to answer your question. Please make sure you've uploaded relevant documents and try asking a more specific question about the content in those documents.")
  /\ (forall q top_k,
        VectorStore.search (vector_store w) q top_k = Ok [])
  /\ exists out w',
      CoordinatorAgent.handle_message message w = (Ok out, w')
      /\ type out = SUCCESS
      /\ receiver out = sender message
      /\ payload out =
         [ ("status", PStr "success");
           ("query", dict_get "query" PNone (payload message));
           ("response",
             PStr "I don't have enough information in the uploaded documents to answer your question. Please make sure you've uploaded relevant documents and try asking a more specific question about the content in those documents.");
           ("sources", PList []);
           ("context_chunks_used", PInt 0);
           ("workflow", PStr "query_processing_complete") ].
Proof.
  intros Hty Hq Hn.
  split.
  { intros query chunks history Hc. unfold LocalLLMGenerator.generate_response.
    rewrite Hc. reflexivity. }
  split.
  { intros q top_k. unfold VectorStore.search. now rewrite Hn. }
  rewrite <- no_context_response_text.
  destruct message as [sd rc ty tr pl ts].
  cbn [type payload sender] in *. subst ty.
  unfold CoordinatorAgent.handle_message, CoordinatorAgent._handle_query_request.
  cbn [type payload trace_id sender].
  change (String.eqb QUERY_REQUEST DOCUMENT_UPLOAD) with false.
  change (String.eqb QUERY_REQUEST QUERY_REQUEST) with true.
  run_monad.
  rewrite retrieval_on_empty_index; [| reflexivity | exact Hq | exact Hn].
  cbv beta iota zeta. world_simpl.
  change (String.eqb RETRIEVAL_RESULT ERROR) with false.
  cbv beta iota zeta.
  rewrite llm_on_no_chunks; [| reflexivity | exact Hq | reflexivity].
  cbv beta iota zeta. world_simpl.
  change (String.eqb LLM_RESPONSE ERROR) with false.
  cbv beta iota zeta.
  eexists _, _. split; [reflexivity |]. repeat split.
Qed.

End QueryOnEmptyIndex.

(** C8, as the specification states it, fails for a query without text:
    against an index that holds no vector the workflow resolves to a
    failure result, which carries no response, and the synthesizer is
    not entered. *)
Lemma query_on_empty_index_empty_query :
  type empty_query = QUERY_REQUEST
  /\ VectorStore.ntotal
       (VectorStore.index (vector_store (initial_world (H:=demo_externals)))) = 0
  /\ let run :=
       CoordinatorAgent.handle_message (H:=demo_externals) empty_query initial_world in
     (exists out,
        run.1 = Ok out
        /\ type out = ERROR
        /\ dict_lookup "response" (payload out) = None
        /\ dict_lookup "error" (payload out)
           = Some (PStr "Retrieval failed: No query provided for retrieval"))
     /\ invoked run.2 = ["CoordinatorAgent"; "RetrievalAgent"].
Proof.
  split; [reflexivity |]. split; [reflexivity |]. split.
  - eexists. split; [vm_compute; reflexivity |]. repeat split.
  - vm_compute. reflexivity.
Qed.

Lemma query_on_empty_index_witness :
  type plain_query = QUERY_REQUEST
  /\ VectorStore.ntotal
       (VectorStore.index (vector_store (initial_world (H:=demo_externals)))) = 0
  /\ exists out w',
       CoordinatorAgent.handle_message (H:=demo_externals) plain_query initial_world
       = (Ok out, w')
       /\ type out = SUCCESS
       /\ dict_lookup "response" (payload out)
          = Some (PStr "I don't have enough information in the uploaded documents to answer your question. Please make sure you've uploaded relevant documents and try asking a more specific question about the content in those documents.")
       /\ dict_lookup "sources" (payload out) = Some (PList []).
Proof.
  split; [reflexivity |]. split; [reflexivity |].
  destruct (query_on_empty_index (H:=demo_externals) plain_query initial_world
              eq_refl eq_refl eq_refl) as (_ & _ & out & w' & Hrun & Hty & _ & Hpl).
  exists out, w'. rewrite Hpl. repeat split; assumption.
Defined.

Lemma query_retrieval_error_stops_workflow_witness :
  exists out w',
    CoordinatorAgent.handle_message (H:=demo_externals) empty_query initial_world
    = (Ok out, w')
    /\ type out = ERROR
    /\ dict_lookup "error" (payload out)
       = Some (PStr "Retrieval failed: No query provided for retrieval")
    /\ invoked w' = ["CoordinatorAgent"; "RetrievalAgent"].
Proof.
  pose proof (retrieval_rejects_empty_query (H:=demo_externals)
                (retrieval_request (H:=demo_externals) empty_query initial_world)
                (world_at_retrieval (H:=demo_externals) empty_query initial_world)
                eq_refl eq_refl) as Hret.
  destruct (query_retrieval_error_stops_workflow (H:=demo_externals)
              empty_query _ initial_world _ eq_refl Hret eq_refl)
    as (Hrun & Hinv & _).
  eexists _, _. split; [exact Hrun |].
  split; [reflexivity |]. split; [reflexivity |].
  rewrite Hinv. reflexivity.
Defined.

(** ** Retrieval agent: indexing *)

Section IndexingProps.
Context `{Externals}.

(** The loop follows the specification of the batch and never raises on
    chunks that are dictionaries. *)
Lemma index_loop_outcomes (document_id file_name metadata : pyval) :
  forall (chunks : list dict) (acc : list string) (w : World),
    RetrievalAgent.index_loop document_id file_name metadata (map PDict chunks) acc w
    = (Ok (acc ++ succeeded (chunk_outcomes document_id file_name metadata chunks w).1),
       (chunk_outcomes document_id file_name metadata chunks w).2).
Proof.
  induction chunks as [|chunk rest IH]; intros acc w.
  - cbn. now rewrite List.app_nil_r.
  - cbn [map RetrievalAgent.index_loop chunk_outcomes].
    unfold bind at 1. unfold try_except. unfold bind at 1.
    destruct (RetrievalAgent.index_chunk document_id file_name metadata (PDict chunk) w)
      as [[chunk_id|e] w1].
    + cbn [ret]. rewrite IH.
      destruct (chunk_outcomes document_id file_name metadata rest w1) as [rs w3].
      cbn [fst snd succeeded]. now rewrite <- List.app_assoc.
    + cbn [RetrievalAgent.warn_failed]. unfold bind, print, modify, ret.
      fold (warning_line chunk e). rewrite IH.
      destruct (chunk_outcomes document_id file_name metadata rest
                  (set_stdout (stdout w1 ++ [warning_line chunk e]) w1)) as [rs w3].
      reflexivity.
Qed.

Lemma chunk_outcomes_length (document_id file_name metadata : pyval) :
  forall (chunks : list dict) (w : World),
    length (chunk_outcomes document_id file_name metadata chunks w).1 = length chunks.
Proof.
  induction chunks as [|chunk rest IH]; intros w; [reflexivity |].
  cbn [chunk_outcomes].
  destruct (RetrievalAgent.index_chunk document_id file_name metadata (PDict chunk) w)
    as [r w1].
  specialize (IH (match r with
                  | Ok _ => w1
                  | Error e => set_stdout (stdout w1 ++ [warning_line chunk e]) w1
                  end)).
  destruct (chunk_outcomes document_id file_name metadata rest _) as [rs w3].
  cbn [fst length] in *. now rewrite IH.
Qed.

Lemma succeeded_length (outcomes : list (result string exn)) :
  (length (succeeded outcomes) <= length outcomes)%nat.
Proof.
  induction outcomes as [|[id|e] rest IH]; cbn; lia.
Qed.

(** What indexing one chunk prints, and the generator it leaves: those
    of the embedding of its text, when it has one. *)
Lemma index_chunk_output (document_id file_name metadata : pyval) (c : dict)
    (w : World) (r : result string exn) (w1 : World) :
  RetrievalAgent.index_chunk document_id file_name metadata (PDict c) w = (r, w1) ->
  let out :=
    match dict_lookup "text" c with
    | Some text => embedding_lines (embedding_generator w) text
    | None => ([], embedding_generator w)
    end in
  stdout w1 = stdout w ++ out.1 /\ embedding_generator w1 = out.2.
Proof.
  cbv zeta. unfold RetrievalAgent.index_chunk, dict_item.
  destruct (dict_lookup "text" c) as [text|].
  2: { intros E. injection E as <- <-. cbn. rewrite List.app_nil_r. now split. }
  run_monad. rewrite generate_embedding_run.
  unfold world_after_embedding.
  destruct (embedding_lines (embedding_generator w) text) as [lines g].
  run_monad.
  destruct (dict_lookup "id" c) as [idv|];
    [| intros E; injection E as <- <-; world_simpl; now split].
  destruct (as_str "vector_id" idv) as [chunk_id|e];
    [| intros E; injection E as <- <-; world_simpl; now split].
  destruct metadata;
    try (intros E; injection E as <- <-; world_simpl; now split).
  destruct (VectorStore.add_vector _ _ _ _) as [vs|e];
    intros E; injection E as <- <-; world_simpl; now split.
Qed.

Lemma chunk_outcomes_stdout (document_id file_name metadata : pyval) :
  forall (chunks : list dict) (w : World),
    stdout (chunk_outcomes document_id file_name metadata chunks w).2
    = stdout w
      ++ batch_output (embedding_generator w) chunks
           (chunk_outcomes document_id file_name metadata chunks w).1.
Proof.
  induction chunks as [|chunk rest IH]; intros w.
  - cbn. now rewrite List.app_nil_r.
  - cbn [chunk_outcomes].
    destruct (RetrievalAgent.index_chunk document_id file_name metadata (PDict chunk) w)
      as [r w1] eqn:E.
    destruct (index_chunk_output _ _ _ _ _ _ _ E) as [Hs Hg].
    specialize (IH (match r with
                    | Ok _ => w1
                    | Error e => set_stdout (stdout w1 ++ [warning_line chunk e]) w1
                    end)).
    destruct (chunk_outcomes document_id file_name metadata rest _) as [rs w3].
    cbn [fst snd batch_output] in *. rewrite IH.
    destruct (match dict_lookup "text" chunk with
              | Some text => embedding_lines (embedding_generator w) text
              | None => ([], embedding_generator w)
              end) as [lines g].
    cbn [fst snd] in Hs, Hg.
    destruct r as [chunk_id|e]; world_simpl; rewrite Hs, Hg;
      rewrite <- ?List.app_assoc; reflexivity.
Qed.

(** A chunk is indexed under its own identifier, and a chunk without
    text fails on that key. *)
Lemma index_chunk_indexed_as (document_id file_name metadata : pyval) (c : dict)
    (w : World) (r : result string exn) (w1 : World) :
  RetrievalAgent.index_chunk document_id file_name metadata (PDict c) w = (r, w1) ->
  indexed_as c r.
Proof.
  unfold RetrievalAgent.index_chunk, dict_item.
  destruct (dict_lookup "text" c) as [text|] eqn:Et.
  2: { intros E. injection E as <- <-. intros _. reflexivity. }
  run_monad. rewrite generate_embedding_run. run_monad.
  destruct (dict_lookup "id" c) as [idv|] eqn:Ei;
    [| intros E; injection E as <- <-; intros Hn; congruence].
  destruct idv; cbn [as_str];
    try (intros E; injection E as <- <-; intros Hn; congruence).
  destruct metadata;
    try (intros E; injection E as <- <-; intros Hn; congruence).
  destruct (VectorStore.add_vector _ _ _ _) as [vs|e];
    intros E; injection E as <- <-; [| intros Hn; congruence].
  split; [exact Ei | eauto].
Qed.

Lemma chunk_outcomes_indexed_as (document_id file_name metadata : pyval) :
  forall (chunks : list dict) (w : World),
    Forall2 indexed_as chunks (chunk_outcomes document_id file_name metadata chunks w).1.
Proof.
  induction chunks as [|chunk rest IH]; intros w; [constructor |].
  cbn [chunk_outcomes].
  destruct (RetrievalAgent.index_chunk document_id file_name metadata (PDict chunk) w)
    as [r w1] eqn:E.
  pose proof (index_chunk_indexed_as _ _ _ _ _ _ _ E) as Hc.
  specialize (IH (match r with
                  | Ok _ => w1
                  | Error e => set_stdout (stdout w1 ++ [warning_line chunk e]) w1
                  end)).
  destruct (chunk_outcomes document_id file_name metadata rest _) as [rs w3].
  cbn [fst] in *. now constructor.
Qed.

Lemma stdout_set_clock (c : nat) (w : World) : stdout (set_clock c w) = stdout w.
Proof. reflexivity. Qed.


End IndexingProps.


(** ** Suffixes *)

Lemma substring_all (s : string) : substring 0 (String.length s) s = s.
Proof. induction s as [|c s IH]; cbn; [reflexivity | now rewrite IH]. Qed.

Lemma endswith_cons (x : ascii) (s c : string) :
  (String.length c <= String.length s)%nat ->
  endswith (String x s) c = endswith s c.
Proof.
  intros Hle. unfold endswith. cbn [String.length].
  replace (String.length c <=? S (String.length s))%nat with true
    by (symmetry; apply Nat.leb_le; lia).
  replace (String.length c <=? String.length s)%nat with true
    by (symmetry; apply Nat.leb_le; lia).
  cbn [andb].
  replace (S (String.length s) - String.length c)%nat
    with (S (String.length s - String.length c)) by lia.
  reflexivity.
Qed.

Lemma endswith_same_length (s c : string) :
  String.length s = String.length c -> endswith s c = String.eqb s c.
Proof.
  intros Hl. unfold endswith. rewrite <- Hl, Nat.leb_refl, Nat.sub_diag.
  now rewrite substring_all.
Qed.

Lemma endswith_shorter (s c : string) :
  (String.length s < String.length c)%nat -> endswith s c = false.
Proof.
  intros Hl. unfold endswith.
  replace (String.length c <=? String.length s)%nat with false
    by (symmetry; apply Nat.leb_gt; lia).
  reflexivity.
Qed.

Lemma endswith_iff (s c : string) :
  endswith s c = true <-> exists p, s = p +:+ c.
Proof.
  split.
  - induction s as [|x s IH]; intros E.
    + destruct c as [|y c]; [now exists "" | discriminate E].
    + destruct (Nat.le_gt_cases (String.length c) (String.length s)) as [Hle|Hgt].
      * rewrite endswith_cons in E by assumption.
        destruct (IH E) as [p ->]. now exists (String x p).
      * destruct (Nat.eq_dec (String.length (String x s)) (String.length c)) as [Hl|Hl].
        -- rewrite endswith_same_length in E by assumption.
           apply String.eqb_eq in E. exists "". now rewrite E.
        -- rewrite endswith_shorter in E; [discriminate E |].
           cbn [String.length] in *. lia.
  - intros [p ->]. induction p as [|x p IH].
    + rewrite app_nil_l, endswith_same_length by reflexivity. apply String.eqb_refl.
    + rewrite app_cons, endswith_cons; [exact IH |].
      rewrite string_length_app. lia.
Qed.

Lemma suffix_of_longer (a b p c : string) :
  a +:+ b = p +:+ c ->
  (String.length b <= String.length c)%nat ->
  exists q, c = q +:+ b.
Proof.
  revert a. induction p as [|x p IH]; intros a E Hl.
  - exists a. now rewrite app_nil_l in E.
  - destruct a as [|y a].
    + rewrite app_nil_l in E. subst b. rewrite app_cons in Hl.
      cbn [String.length] in Hl. rewrite string_length_app in Hl. lia.
    + rewrite !app_cons in E. injection E as _ E. exact (IH a E Hl).
Qed.

(** A name that ends with [b] ends with [c] exactly when [b] does, for
    [c] not longer than [b]; and not at all when [c] is at least as long
    as [b] and does not end with it. *)
Lemma endswith_app_short (a b c : string) :
  (String.length c <= String.length b)%nat ->
  endswith (a +:+ b) c = endswith b c.
Proof.
  intros Hl. induction a as [|x a IH]; [reflexivity |].
  rewrite app_cons, endswith_cons; [exact IH |].
  rewrite string_length_app. lia.
Qed.

Lemma endswith_app_long (a b c : string) :
  (String.length b <= String.length c)%nat ->
  endswith c b = false ->
  endswith (a +:+ b) c = false.
Proof.
  intros Hl Hc. destruct (endswith (a +:+ b) c) eqn:E; [| reflexivity].
  apply endswith_iff in E as [p E].
  destruct (suffix_of_longer a b p c E Hl) as [q ->].
  assert (Ht : endswith (q +:+ b) b = true) by (apply endswith_iff; eauto).
  congruence.
Qed.

Lemma lower_app (a b : string) : lower (a +:+ b) = lower a +:+ lower b.
Proof.
  induction a as [|x a IH]; [reflexivity |].
  rewrite app_cons. cbn [lower]. now rewrite IH, app_cons.
Qed.

Ltac decide_suffix :=
  first
    [ rewrite endswith_app_short by (cbn; lia)
    | rewrite endswith_app_long by (first [cbn; lia | reflexivity]) ].

(** The parser is the one of the extension the name ends with, once
    put in lower case. *)
Lemma infer_parser_type_extension (stem ext parser_type : string) :
  In (lower ext, parser_type) parser_of_extension ->
  IngestionAgent.infer_parser_type (stem +:+ ext) = Ok parser_type.
Proof.
  intros Hin. unfold IngestionAgent.infer_parser_type.
  rewrite lower_app.
  cbn [parser_of_extension In] in Hin.
  destruct Hin as [E|[E|[E|[E|[E|[E|[]]]]]]];
    injection E as <- <-;
    repeat (decide_suffix; cbn [endswith String.length Nat.leb Nat.sub substring
                                 String.eqb Ascii.eqb Bool.eqb andb orb]);
    reflexivity.
Qed.

(** A name with a known extension is not empty. *)
Lemma extension_name_truthy (stem ext parser_type : string) :
  In (lower ext, parser_type) parser_of_extension ->
  truthy (PStr (stem +:+ ext)) = true.
Proof.
  intros Hin. destruct ext as [|c ext].
  - cbn in Hin. repeat (destruct Hin as [Hin|Hin]; [discriminate Hin |]).
    contradiction.
  - destruct stem; reflexivity.
Qed.

(** ** Ingestion agent: validation and parsing *)

Section IngestionProps.
Context `{Externals}.

(** With the default window, chunking never raises. *)
Lemma chunk_text_default_ok (text : string) (src : pyval) (u : nat) :
  exists chunks u',
    IngestionAgent._chunk_text text src 1000 200 u = (Ok chunks, u').
Proof.
  destruct (all_space text) eqn:Hsp.
  - exists [], u. unfold IngestionAgent._chunk_text. now rewrite strip_eqb, Hsp.
  - eexists _, _. apply chunk_text_default_run, Hsp.
Qed.

(** C10 (amended): validation looks at [file_name] and [file_content]
    only. A message lacking one of them is refused; a message whose file
    name ends, in whatever case, with one of the supported extensions and
    whose content the parser of that extension turns into a text is never
    refused for its [file_type], whatever that is and in particular when
    it is missing or empty: the parser run is the one of the extension,
    and the document is stored with the declared type as received and
    announced as parsed. *)
Theorem process_document_ignores_file_type (message : MCPMessage) (w : World) :
  let file_name := dict_get "file_name" PNone (payload message) in
  let file_content := dict_get "file_content" PNone (payload message) in
  let file_type := dict_get "file_type" PNone (payload message) in
  (truthy file_name && truthy file_content = false ->
     IngestionAgent._process_document message w =
     create_error_message message IngestionAgent.name
       "Missing required fields: file_name or file_content" w)
  /\ (forall (stem ext parser_type text : string) (parsed_data extra : dict),
        file_name = PStr (stem +:+ ext) ->
        In (lower ext, parser_type) parser_of_extension ->
        truthy file_content = true ->
        document_parse file_content parser_type = Ok parsed_data ->
        dict_lookup "text" parsed_data = Some (PStr text) ->
        dict_get "metadata" (PDict []) parsed_data = PDict extra ->
        exists out w' chunks doc,
          IngestionAgent._process_document message w = (Ok out, w')
          /\ type out = DOCUMENT_PARSED
          /\ dict_lookup "document_id" (payload out) = Some (PStr (uuid4_str (uuids w' - 1)))
          /\ dict_lookup "chunks" (payload out) = Some (PList (map PDict chunks))
          /\ (IngestionAgent._chunk_text text file_name 1000 200 (uuids w)).1 = Ok chunks
          /\ processed_documents w' !! uuid4_str (uuids w' - 1) = Some doc
          /\ dict_lookup "name" doc = Some file_name
          /\ dict_lookup "type" doc = Some file_type
          /\ dict_lookup "content" doc = Some (PStr text)).
Proof.
  intros file_name file_content file_type. split.
  - intros Hv. unfold IngestionAgent._process_document.
    fold file_name file_content. rewrite Hv. cbn [negb].
    unfold try_except. now rewrite create_error_message_ok.
  - intros stem ext parser_type text parsed_data extra Hname Hext Hc Hparse Htext Hextra.
    pose proof (infer_parser_type_extension stem ext parser_type Hext) as Hinfer.
    assert (Hv : truthy file_name && truthy file_content = true).
    { rewrite Hname, (extension_name_truthy stem ext parser_type Hext). exact Hc. }
    destruct (chunk_text_default_ok text file_name (uuids w)) as (chunks & u' & Hchunk).
    unfold IngestionAgent._process_document.
    fold file_name file_content file_type. rewrite Hv. cbn [negb].
    unfold IngestionAgent._parse_document, IngestionAgent.chunk_text, dict_item.
    rewrite Hname in *. run_monad.
    rewrite Hinfer. run_monad. rewrite Hparse. run_monad.
    rewrite Htext. run_monad. rewrite Hchunk. run_monad.
    rewrite Hextra. run_monad.
    eexists _, _, chunks, _. split; [reflexivity |].
    world_simpl. replace (S u' - 1)%nat with u' by lia.
    rewrite lookup_insert_eq. cbn [fst]. repeat split.
Qed.

End IngestionProps.

(** C10, as the specification states it, fails for a file whose
    extension names no parser: with a file name and a content that are
    not empty, and no declared type, the document is refused and nothing
    is stored. *)
Lemma process_document_unsupported_extension :
  truthy (dict_get "file_name" PNone (payload upload_rtf_without_type)) = true
  /\ truthy (dict_get "file_content" PNone (payload upload_rtf_without_type)) = true
  /\ dict_lookup "file_type" (payload upload_rtf_without_type) = None
  /\ let run :=
       IngestionAgent._process_document (H:=demo_externals) upload_rtf_without_type
         initial_world in
     (exists out,
        run.1 = Ok out
        /\ type out = ERROR
        /\ dict_lookup "error" (payload out)
           = Some (PStr ("Document processing failed: Failed to parse document "
                         +:+ "notes.rtf: Unsupported file type: notes.rtf")))
     /\ processed_documents run.2 = ∅.
Proof.
  split; [reflexivity |]. split; [reflexivity |]. split; [reflexivity |]. split.
  - eexists. split; [vm_compute; reflexivity |]. repeat split.
  - vm_compute. reflexivity.
Qed.

Lemma process_document_ignores_file_type_witness :
  dict_lookup "file_type" (payload upload_without_type) = None
  /\ exists out w' doc,
       IngestionAgent._process_document (H:=demo_externals) upload_without_type
         initial_world = (Ok out, w')
       /\ type out = DOCUMENT_PARSED
       /\ processed_documents w' !! "uuid-1" = Some doc
       /\ dict_lookup "type" doc = Some PNone.
Proof.
  split; [reflexivity |].
  destruct (process_document_ignores_file_type (H:=demo_externals)
              upload_without_type initial_world) as [_ Hstore].
  destruct (Hstore "Notes" ".TXT" "text" "alpha beta gamma"
              [("text", PStr "alpha beta gamma");
               ("metadata", PDict [("parser", PStr "text")])]
              [("parser", PStr "text")]
              eq_refl ltac:(do 4 right; left; reflexivity) eq_refl eq_refl eq_refl eq_refl)
    as (out & w' & chunks & doc & Hrun & Hty & _ & _ & _ & Hdoc & _ & Htype & _).
  exists out, w', doc. split; [exact Hrun |]. split; [exact Hty |].
  split; [| exact Htype].
  assert (Hu : uuids w' = 2%nat).
  { apply (f_equal snd) in Hrun. cbn [snd] in Hrun. rewrite <- Hrun.
    vm_compute. reflexivity. }
  rewrite Hu in Hdoc. exact Hdoc.
Defined.

(** ** JSON: strings *)

(** The scanner undoes the escape of one character. *)
Lemma scanstring_escape_char (c : ascii) (t : string) :
  Json.scanstring (Json.escape_char c +:+ t) =
  match Json.scanstring t with
  | Some (u, r) => Some (String c u, r)
  | None => None
  end.
Proof.
  destruct c as [b0 b1 b2 b3 b4 b5 b6 b7].
  destruct b0, b1, b2, b3, b4, b5, b6, b7; reflexivity.
Qed.

Lemma scanstring_escape_string (s rest : string) :
  Json.scanstring (Json.escape_string s +:+ String Json.quote rest) = Some (s, rest).
Proof.
  induction s as [|c s IH].
  - reflexivity.
  - cbn [Json.escape_string]. rewrite app_assoc, scanstring_escape_char, IH.
    reflexivity.
Qed.

(** A string literal is read back, whatever follows it. *)
Lemma scanstring_encode_str (s rest : string) :
  exists body,
    Json.encode_str s +:+ rest = String Json.quote body
    /\ Json.scanstring body = Some (s, rest).
Proof.
  exists (Json.escape_string s +:+ String Json.quote rest). split.
  - unfold Json.encode_str. rewrite app_cons, app_assoc. reflexivity.
  - apply scanstring_escape_string.
Qed.

(** ** JSON: integers *)

Lemma unorm_head (d : Decimal.uint) :
  match Decimal.unorm d with
  | Decimal.Nil => False
  | Decimal.D0 Decimal.Nil => True
  | Decimal.D0 _ => False
  | _ => True
  end.
Proof. induction d; cbn; auto. Qed.

(** The decimal digits of a positive number do not start with a zero. *)
Lemma to_uint_head (p : positive) :
  match Pos.to_uint p with
  | Decimal.Nil | Decimal.D0 _ => False
  | _ => True
  end.
Proof.
  pose proof (DecimalPos.Unsigned.to_of (Pos.to_uint p)) as E.
  rewrite DecimalPos.Unsigned.of_to in E. cbn [N.to_uint] in E.
  pose proof (unorm_head (Pos.to_uint p)) as Hh. rewrite <- E in Hh.
  pose proof (Unsigned.to_uint_nonzero p) as Hnz.
  destruct (Pos.to_uint p) as [|u|u|u|u|u|u|u|u|u|u]; auto.
  destruct u; auto.
Qed.

(** What may follow a value starts with no digit. *)
Lemma follows_value_head (rest : string) (c : ascii) (t : string) :
  follows_value rest = true -> rest = String c t -> Json.is_digit c = false.
Proof.
  intros Hr ->. cbn [follows_value] in Hr. apply orb_true_iff in Hr.
  destruct Hr as [Hr|Hr]; apply Ascii.eqb_eq in Hr; subst c; reflexivity.
Qed.

Lemma span_digits_stop (rest : string) :
  (forall c t, rest = String c t -> Json.is_digit c = false) ->
  Json.span_digits rest = ("", rest).
Proof.
  intros Hr. destruct rest as [|c t]; [reflexivity |].
  cbn [Json.span_digits]. now rewrite (Hr c t eq_refl).
Qed.

Lemma span_digits_uint (d : Decimal.uint) (rest : string) :
  (forall c t, rest = String c t -> Json.is_digit c = false) ->
  Json.span_digits (NilEmpty.string_of_uint d +:+ rest)
  = (NilEmpty.string_of_uint d, rest).
Proof.
  intros Hr. induction d; cbn [NilEmpty.string_of_uint];
    rewrite ?app_cons; cbn [Json.span_digits]; try (rewrite IHd; reflexivity).
  rewrite app_nil_l. now apply span_digits_stop.
Qed.

Lemma scan_frac_follows (rest : string) :
  follows_value rest = true -> Json.scan_frac rest = ("", rest).
Proof.
  intros Hr. destruct rest as [|c [|c' rest]]; try reflexivity.
  cbn [follows_value] in Hr. apply orb_true_iff in Hr.
  destruct Hr as [Hr|Hr]; apply Ascii.eqb_eq in Hr; subst c; reflexivity.
Qed.

Lemma scan_exp_follows (rest : string) :
  follows_value rest = true -> Json.scan_exp rest = ("", rest).
Proof.
  intros Hr. destruct rest as [|c rest]; try reflexivity.
  cbn [follows_value] in Hr. apply orb_true_iff in Hr.
  destruct Hr as [Hr|Hr]; apply Ascii.eqb_eq in Hr; subst c; reflexivity.
Qed.

Lemma int_of_str_of_int (z : Z) : Json.int_of_str (str_of_int z) = z.
Proof.
  unfold Json.int_of_str, str_of_int. rewrite NilZero.isi.
  - apply DecimalZ.of_to.
  - destruct z; cbn; try discriminate.
    intros E. injection E as E. now apply Unsigned.to_uint_nonnil in E.
  - destruct z; cbn; try discriminate.
    intros E. injection E as E. now apply Unsigned.to_uint_nonnil in E.
Qed.

(** The digits of a positive number, read as the integer part of a
    number, up to a character that is no digit. *)
Lemma scan_int_part_pos (p : positive) (rest : string) :
  (forall c t, rest = String c t -> Json.is_digit c = false) ->
  exists c t,
    NilEmpty.string_of_uint (Pos.to_uint p) = String c t
    /\ Ascii.eqb c "-" = false
    /\ Json.is_digit c = true
    /\ Json.scan_int_part (NilEmpty.string_of_uint (Pos.to_uint p) +:+ rest)
       = Some (NilEmpty.string_of_uint (Pos.to_uint p), rest).
Proof.
  intros Hr. pose proof (to_uint_head p) as Hh.
  pose proof (span_digits_uint (Pos.to_uint p) rest Hr) as Hs.
  destruct (Pos.to_uint p) as [|u|u|u|u|u|u|u|u|u|u]; try contradiction;
    cbn [NilEmpty.string_of_uint] in *; eexists _, _;
    (split; [reflexivity |]); (split; [reflexivity |]); (split; [reflexivity |]);
    rewrite app_cons in *; unfold Json.scan_int_part;
    cbn [Ascii.eqb Bool.eqb Json.is_digit N_of_ascii N_of_digits N.leb N.compare
         Pos.compare Pos.compare_cont andb N.add N.mul Pos.add Pos.mul Pos.succ];
    rewrite Hs; reflexivity.
Qed.

Lemma str_of_int_pos (p : positive) :
  str_of_int (Z.pos p) = NilEmpty.string_of_uint (Pos.to_uint p).
Proof.
  unfold str_of_int. cbn [Z.to_int NilZero.string_of_int NilZero.string_of_uint].
  pose proof (Unsigned.to_uint_nonnil p).
  destruct (Pos.to_uint p); [contradiction | reflexivity ..].
Qed.

Lemma str_of_int_neg (p : positive) :
  str_of_int (Z.neg p) = String "-" (NilEmpty.string_of_uint (Pos.to_uint p)).
Proof.
  unfold str_of_int. cbn [Z.to_int NilZero.string_of_int NilZero.string_of_uint].
  pose proof (Unsigned.to_uint_nonnil p).
  destruct (Pos.to_uint p); [contradiction | reflexivity ..].
Qed.

(** The digits of an integer, by its sign. *)
Lemma int_digits_pos (p : positive) :
  Json.int_digits (Z.pos p) = String.length (NilEmpty.string_of_uint (Pos.to_uint p)).
Proof.
  unfold Json.int_digits. change (Z.abs (Z.pos p)) with (Z.pos p).
  now rewrite str_of_int_pos.
Qed.

Lemma int_digits_neg (p : positive) :
  Json.int_digits (Z.neg p) = String.length (NilEmpty.string_of_uint (Pos.to_uint p)).
Proof.
  unfold Json.int_digits. change (Z.abs (Z.neg p)) with (Z.pos p).
  now rewrite str_of_int_pos.
Qed.

Lemma within_limit (n : nat) :
  (n <= Json.max_str_digits)%nat -> (Json.max_str_digits <? n)%nat = false.
Proof. intros Hn. now apply Nat.ltb_ge. Qed.

(** An integer within the digit limit is read back when a comma, a line
    break or the end of the text follows it. *)
Lemma scan_number_int `{Externals} (z : Z) (rest : string) :
  (Json.int_digits z <= Json.max_str_digits)%nat ->
  follows_value rest = true ->
  Json.scan_number (str_of_int z +:+ rest) = Some (PInt z, rest).
Proof.
  intros Hd Hr. pose proof (int_of_str_of_int z) as Hz.
  assert (Hstop : forall c t, rest = String c t -> Json.is_digit c = false)
    by (intros c t; now apply follows_value_head).
  destruct z as [|p|p].
  - change (str_of_int 0) with "0" in *. rewrite app_cons, app_nil_l.
    unfold Json.scan_number, Json.scan_number_parts.
    cbn [Ascii.eqb Bool.eqb Json.scan_int_part].
    rewrite (scan_frac_follows rest Hr), (scan_exp_follows rest Hr).
    cbn [String.eqb andb]. rewrite within_limit by exact Hd.
    rewrite app_nil_l, Hz. reflexivity.
  - rewrite int_digits_pos in Hd. rewrite str_of_int_pos in *.
    destruct (scan_int_part_pos p rest Hstop) as (c & t & Ehd & Hminus & _ & Hscan).
    unfold Json.scan_number, Json.scan_number_parts.
    rewrite Ehd at 1. rewrite app_cons, Hminus, Hscan.
    rewrite (scan_frac_follows rest Hr), (scan_exp_follows rest Hr).
    cbn [String.eqb andb]. rewrite within_limit by exact Hd.
    rewrite app_nil_l, Hz. reflexivity.
  - rewrite int_digits_neg in Hd. rewrite str_of_int_neg in *. rewrite app_cons.
    destruct (scan_int_part_pos p rest Hstop) as (c & t & _ & _ & _ & Hscan).
    unfold Json.scan_number, Json.scan_number_parts.
    cbn [Ascii.eqb Bool.eqb]. rewrite Hscan.
    rewrite (scan_frac_follows rest Hr), (scan_exp_follows rest Hr).
    cbn [String.eqb andb]. rewrite within_limit by exact Hd.
    change ("-" +:+ ?x) with (String "-" x).
    rewrite Hz. reflexivity.
Qed.

(** ** JSON: floats *)

(** The scanners of a number read the same from a text and from that
    text followed by what may follow a value, and they split the text
    they read. *)
Lemma span_digits_app (s rest : string) :
  follows_value rest = true ->
  Json.span_digits (s +:+ rest)
  = ((Json.span_digits s).1, (Json.span_digits s).2 +:+ rest).
Proof.
  intros Hr. induction s as [|c s IH].
  - rewrite app_nil_l. rewrite span_digits_stop; [reflexivity |].
    intros c t. now apply follows_value_head.
  - rewrite app_cons. cbn [Json.span_digits]. destruct (Json.is_digit c).
    + rewrite IH. destruct (Json.span_digits s) as [ds r]. reflexivity.
    + cbn [fst snd]. now rewrite app_cons.
Qed.

Lemma span_digits_text (s : string) :
  s = (Json.span_digits s).1 +:+ (Json.span_digits s).2.
Proof.
  induction s as [|c s IH]; [reflexivity |].
  cbn [Json.span_digits]. destruct (Json.is_digit c); [| reflexivity].
  destruct (Json.span_digits s) as [ds r]. cbn [fst snd] in *.
  rewrite app_cons. now rewrite <- IH.
Qed.

Lemma scan_int_part_app (s rest ip r : string) :
  follows_value rest = true ->
  Json.scan_int_part s = Some (ip, r) ->
  Json.scan_int_part (s +:+ rest) = Some (ip, r +:+ rest).
Proof.
  intros Hr. destruct s as [|c s]; [discriminate |].
  rewrite app_cons. unfold Json.scan_int_part.
  destruct (Ascii.eqb c "0").
  - intros E. injection E as <- <-. reflexivity.
  - destruct (Json.is_digit c); [| discriminate].
    intros E.
    assert (E' : Json.span_digits (String c s) = (ip, r)) by congruence.
    rewrite <- app_cons, span_digits_app, E' by exact Hr. reflexivity.
Qed.

Lemma scan_int_part_text (s ip r : string) :
  Json.scan_int_part s = Some (ip, r) ->
  s = ip +:+ r
  /\ exists c t, s = String c t /\ Json.is_digit c = true.
Proof.
  destruct s as [|c s]; [discriminate |]. unfold Json.scan_int_part.
  destruct (Ascii.eqb_spec c "0") as [->|Hc].
  - intros E. injection E as <- <-. split; [reflexivity |].
    eexists _, _. split; reflexivity.
  - destruct (Json.is_digit c) eqn:Hd; [| discriminate].
    intros E.
    assert (E' : Json.span_digits (String c s) = (ip, r)) by congruence. split.
    + rewrite (span_digits_text (String c s)) at 1. now rewrite E'.
    + eexists _, _. split; [reflexivity | exact Hd].
Qed.

Lemma scan_frac_app (s rest : string) :
  follows_value rest = true ->
  Json.scan_frac (s +:+ rest)
  = ((Json.scan_frac s).1, (Json.scan_frac s).2 +:+ rest).
Proof.
  intros Hr. destruct s as [|c [|d s]].
  - rewrite app_nil_l. now rewrite scan_frac_follows.
  - rewrite app_cons, app_nil_l. destruct rest as [|d t]; [reflexivity |].
    cbn [Json.scan_frac].
    rewrite (follows_value_head _ d t Hr eq_refl), andb_false_r. reflexivity.
  - rewrite !app_cons. cbn [Json.scan_frac].
    destruct (Ascii.eqb c "." && Json.is_digit d).
    + rewrite <- app_cons, span_digits_app by exact Hr.
      destruct (Json.span_digits (String d s)) as [ds r]. reflexivity.
    + cbn [fst snd]. now rewrite !app_cons.
Qed.

Lemma scan_frac_text (s : string) :
  s = (Json.scan_frac s).1 +:+ (Json.scan_frac s).2.
Proof.
  destruct s as [|c [|d s]]; try reflexivity.
  cbn [Json.scan_frac]. destruct (Ascii.eqb c "." && Json.is_digit d); [| reflexivity].
  pose proof (span_digits_text (String d s)) as E.
  destruct (Json.span_digits (String d s)) as [ds r]. cbn [fst snd] in *.
  rewrite app_cons. now rewrite <- E.
Qed.

Lemma scan_exp_app (s rest : string) :
  follows_value rest = true ->
  Json.scan_exp (s +:+ rest)
  = ((Json.scan_exp s).1, (Json.scan_exp s).2 +:+ rest).
Proof.
  intros Hr.
  assert (Hstop : Json.span_digits rest = ("", rest)).
  { apply span_digits_stop. intros c t. now apply follows_value_head. }
  destruct s as [|e s].
  - rewrite app_nil_l. now rewrite scan_exp_follows.
  - rewrite app_cons. cbn [Json.scan_exp].
    destruct (Ascii.eqb e "e" || Ascii.eqb e "E"); [| cbn [fst snd]; now rewrite app_cons].
    destruct s as [|g s].
    + rewrite app_nil_l. cbn [Json.span_digits fst snd].
      destruct rest as [|g t]; [reflexivity |].
      assert (Hg : Ascii.eqb g "+" || Ascii.eqb g "-" = false).
      { cbn [follows_value] in Hr. apply orb_true_iff in Hr.
        destruct Hr as [Hr|Hr]; apply Ascii.eqb_eq in Hr; subst g; reflexivity. }
      rewrite Hg, Hstop. reflexivity.
    + rewrite app_cons.
      destruct (Ascii.eqb g "+" || Ascii.eqb g "-").
      * rewrite span_digits_app by exact Hr.
        destruct (Json.span_digits s) as [[|d ds] r]; cbn [fst snd];
          rewrite ?app_cons; reflexivity.
      * rewrite <- app_cons, span_digits_app by exact Hr.
        destruct (Json.span_digits (String g s)) as [[|d ds] r]; cbn [fst snd];
          rewrite ?app_cons; reflexivity.
Qed.

Lemma scan_exp_text (s : string) :
  s = (Json.scan_exp s).1 +:+ (Json.scan_exp s).2.
Proof.
  destruct s as [|e s]; [reflexivity |]. cbn [Json.scan_exp].
  destruct (Ascii.eqb e "e" || Ascii.eqb e "E"); [| reflexivity].
  destruct s as [|g s]; [reflexivity |].
  destruct (Ascii.eqb_spec g "+") as [->|Hp]; cbn [orb].
  - pose proof (span_digits_text s) as E.
    destruct (Json.span_digits s) as [[|d ds] r]; cbn [fst snd] in *; [reflexivity |].
    rewrite E at 1. reflexivity.
  - destruct (Ascii.eqb_spec g "-") as [->|Hm].
    + pose proof (span_digits_text s) as E.
      destruct (Json.span_digits s) as [[|d ds] r]; cbn [fst snd] in *; [reflexivity |].
      rewrite E at 1. reflexivity.
    + pose proof (span_digits_text (String g s)) as E.
      destruct (Json.span_digits (String g s)) as [[|d ds] r]; cbn [fst snd] in *;
        [reflexivity |].
      rewrite E at 1. reflexivity.
Qed.

Lemma scan_number_parts_app (s rest sign ip frac ex r : string) :
  follows_value rest = true ->
  Json.scan_number_parts s = Some (sign, ip, frac, ex, r) ->
  Json.scan_number_parts (s +:+ rest) = Some (sign, ip, frac, ex, r +:+ rest).
Proof.
  intros Hr. unfold Json.scan_number_parts.
  destruct s as [|c s]; [discriminate |]. rewrite app_cons.
  assert (Hgen : forall s1,
    match Json.scan_int_part s1 with
    | Some (ip0, r0) =>
        let '(frac0, r1) := Json.scan_frac r0 in
        let '(ex0, r2) := Json.scan_exp r1 in
        Some (sign, ip0, frac0, ex0, r2)
    | None => None
    end = Some (sign, ip, frac, ex, r) ->
    match Json.scan_int_part (s1 +:+ rest) with
    | Some (ip0, r0) =>
        let '(frac0, r1) := Json.scan_frac r0 in
        let '(ex0, r2) := Json.scan_exp r1 in
        Some (sign, ip0, frac0, ex0, r2)
    | None => None
    end = Some (sign, ip, frac, ex, r +:+ rest)).
  { intros s1 E.
    destruct (Json.scan_int_part s1) as [[ip0 r0]|] eqn:Ei; [| discriminate E].
    rewrite (scan_int_part_app _ _ _ _ Hr Ei).
    rewrite scan_frac_app by exact Hr.
    destruct (Json.scan_frac r0) as [frac0 r1]. cbn [fst snd].
    rewrite scan_exp_app by exact Hr.
    destruct (Json.scan_exp r1) as [ex0 r2]. cbn [fst snd].
    now injection E as <- <- <- <-. }
  destruct (Ascii.eqb c "-").
  - intros E.
    destruct (Json.scan_int_part s) as [[ip0 r0]|] eqn:Ei; [| discriminate E].
    assert (Hs : sign = "-").
    { destruct (Json.scan_frac r0), (Json.scan_exp _). now injection E as <-. }
    subst sign. specialize (Hgen s). rewrite Ei in Hgen. exact (Hgen E).
  - intros E.
    destruct (Json.scan_int_part (String c s)) as [[ip0 r0]|] eqn:Ei; [| discriminate E].
    assert (Hs : sign = "").
    { destruct (Json.scan_frac r0), (Json.scan_exp _). now injection E as <-. }
    subst sign. specialize (Hgen (String c s)). rewrite Ei in Hgen.
    rewrite app_cons in Hgen. exact (Hgen E).
Qed.

Lemma scan_number_parts_text (s sign ip frac ex r : string) :
  Json.scan_number_parts s = Some (sign, ip, frac, ex, r) ->
  s = sign +:+ ip +:+ frac +:+ ex +:+ r
  /\ exists c t, s = String c t /\ (Json.is_digit c = true \/ c = "-"%char).
Proof.
  unfold Json.scan_number_parts.
  destruct s as [|c s]; [discriminate |].
  assert (Hgen : forall s1 sg,
    match Json.scan_int_part s1 with
    | Some (ip0, r0) =>
        let '(frac0, r1) := Json.scan_frac r0 in
        let '(ex0, r2) := Json.scan_exp r1 in
        Some (sg, ip0, frac0, ex0, r2)
    | None => None
    end = Some (sign, ip, frac, ex, r) ->
    sg = sign /\ s1 = ip +:+ frac +:+ ex +:+ r
    /\ exists c t, s1 = String c t /\ Json.is_digit c = true).
  { intros s1 sg E.
    destruct (Json.scan_int_part s1) as [[ip0 r0]|] eqn:Ei; [| discriminate E].
    destruct (scan_int_part_text _ _ _ Ei) as [Et Hh].
    pose proof (scan_frac_text r0) as Ef.
    destruct (Json.scan_frac r0) as [frac0 r1]. cbn [fst snd] in Ef.
    pose proof (scan_exp_text r1) as Ee.
    destruct (Json.scan_exp r1) as [ex0 r2]. cbn [fst snd] in Ee.
    injection E as <- <- <- <- <-. split; [reflexivity |].
    split; [| exact Hh]. now rewrite <- Ee, <- Ef. }
  destruct (Ascii.eqb_spec c "-") as [->|Hc]; intros E.
  - destruct (Hgen s "-" E) as (<- & Es & _). split.
    + rewrite app_cons, app_nil_l. now rewrite <- Es.
    + eexists _, _. split; [reflexivity | now right].
  - destruct (Hgen (String c s) "" E) as (<- & Es & c' & t' & Eh & Hd). split.
    + now rewrite app_nil_l.
    + injection Eh as <- <-. eexists _, _. split; [reflexivity | now left].
Qed.

(** A float literal is read back as the float of its text when a comma,
    a line break or the end of the text follows it. *)
Lemma scan_number_float `{Externals} (s rest : string) :
  float_literal s = true ->
  follows_value rest = true ->
  Json.scan_number (s +:+ rest) = Some (PFloat (float_of_str s), rest).
Proof.
  unfold float_literal. intros Hl Hr.
  destruct (Json.scan_number_parts s) as [[[[[sign ip] frac] ex] r]|] eqn:E;
    [| discriminate Hl].
  destruct r; [| discriminate Hl].
  apply negb_true_iff in Hl.
  unfold Json.scan_number. rewrite (scan_number_parts_app _ _ _ _ _ _ _ Hr E).
  rewrite Hl, app_nil_l.
  destruct (scan_number_parts_text _ _ _ _ _ _ E) as [Et _].
  rewrite !app_nil_r in Et. now rewrite <- Et.
Qed.

Lemma float_literal_head (s : string) :
  float_literal s = true ->
  exists c t, s = String c t /\ (Json.is_digit c = true \/ c = "-"%char).
Proof.
  unfold float_literal. intros Hl.
  destruct (Json.scan_number_parts s) as [[[[[sign ip] frac] ex] r]|] eqn:E;
    [| discriminate Hl].
  now destruct (scan_number_parts_text _ _ _ _ _ _ E) as [_ Hh].
Qed.

(** The exponent field of a finite float is not full. *)
Lemma floatstr_finite `{Externals} (f : Z) :
  is_finite f = true -> Json.floatstr f = float_repr f.
Proof.
  unfold is_finite, Json.floatstr, is_nan. intros Hf.
  apply andb_true_iff in Hf. destruct Hf as [_ Hf]. apply negb_true_iff in Hf.
  rewrite Hf. cbn [andb].
  destruct (Z.eqb_spec f pos_inf) as [->|_]; [vm_compute in Hf; discriminate Hf |].
  destruct (Z.eqb_spec f neg_inf) as [->|_]; [vm_compute in Hf; discriminate Hf |].
  reflexivity.
Qed.

Lemma floatstr_pos_inf `{Externals} : Json.floatstr pos_inf = "Infinity".
Proof. reflexivity. Qed.

Lemma floatstr_neg_inf `{Externals} : Json.floatstr neg_inf = "-Infinity".
Proof. reflexivity. Qed.

(** ** JSON: values *)

Lemma skip_ws_head (c : ascii) (s : string) :
  Json.is_ws c = false -> Json.skip_ws (String c s) = String c s.
Proof. intros Hc. cbn [Json.skip_ws]. now rewrite Hc. Qed.

Lemma skip_ws_spaces (n : nat) (s : string) :
  Json.skip_ws (Json.spaces n +:+ s) = Json.skip_ws s.
Proof. induction n as [|n IH]; [reflexivity | exact IH]. Qed.

Lemma skip_ws_newline_indent (lvl : nat) (s : string) :
  Json.skip_ws (Json.newline_indent lvl +:+ s) = Json.skip_ws s.
Proof. unfold Json.newline_indent. rewrite app_cons. apply skip_ws_spaces. Qed.

Lemma follows_newline_indent (lvl : nat) (s : string) :
  follows_value (Json.newline_indent lvl +:+ s) = true.
Proof. reflexivity. Qed.

(** ** Dictionaries rebuilt from their pairs *)

Lemma dict_lookup_app (k : string) (a b : dict) :
  dict_lookup k (a ++ b) =
  match dict_lookup k a with Some v => Some v | None => dict_lookup k b end.
Proof.
  induction a as [|[k' v'] a IH]; [reflexivity |].
  cbn. destruct (String.eqb k k'); [reflexivity | exact IH].
Qed.

Lemma dict_set_fresh (k : string) (v : pyval) (d : dict) :
  dict_lookup k d = None -> dict_set k v d = d ++ [(k, v)].
Proof.
  induction d as [|[k' v'] d IH]; intros Hk; [reflexivity |].
  cbn in *. destruct (String.eqb k k'); [discriminate |].
  now rewrite IH.
Qed.

Lemma dict_lookup_none_existsb (k : string) (d : dict) :
  existsb (fun kv => String.eqb k (fst kv)) d = false -> dict_lookup k d = None.
Proof.
  induction d as [|[k' v'] d IH]; [reflexivity |].
  cbn. destruct (String.eqb k k'); [discriminate | exact IH].
Qed.

Lemma dict_update_unique (d acc : dict) :
  unique_keys d = true ->
  (forall k v, In (k, v) d -> dict_lookup k acc = None) ->
  dict_update acc d = acc ++ d.
Proof.
  revert acc. induction d as [|[k v] d IH]; intros acc Hu Hacc.
  - cbn. now rewrite List.app_nil_r.
  - cbn [unique_keys] in Hu. apply andb_true_iff in Hu. destruct Hu as [Hk Hu].
    apply negb_true_iff in Hk.
    unfold dict_update in *. cbn [fold_left fst snd].
    rewrite (dict_set_fresh k v acc) by (apply (Hacc k v); now left).
    rewrite IH.
    + now rewrite <- List.app_assoc.
    + exact Hu.
    + intros k' v' Hin. rewrite dict_lookup_app.
      rewrite (Hacc k' v') by now right.
      cbn. destruct (String.eqb_spec k' k) as [->|Hne]; [| reflexivity].
      exfalso.
      assert (Hex : existsb (fun kv => String.eqb k (fst kv)) d = true).
      { apply existsb_exists. exists (k, v'). split; [exact Hin |].
        apply String.eqb_refl. }
      congruence.
Qed.

Lemma dict_update_nil_unique (d : dict) :
  unique_keys d = true -> dict_update [] d = d.
Proof. intros Hu. now rewrite dict_update_unique. Qed.

(** ** JSON: the first character of an encoded value *)

(** A digit or a minus sign starts a number and nothing else. *)
Lemma number_head (c : ascii) :
  Json.is_digit c = true \/ c = "-"%char ->
  Ascii.eqb c Json.quote = false /\ Ascii.eqb c "{" = false
  /\ Ascii.eqb c "[" = false /\ Ascii.eqb c "]" = false
  /\ Ascii.eqb "n" c = false /\ Ascii.eqb "t" c = false
  /\ Ascii.eqb "f" c = false /\ Json.is_ws c = false.
Proof.
  intros [Hd | ->]; [| repeat split].
  destruct c as [b0 b1 b2 b3 b4 b5 b6 b7].
  destruct b0, b1, b2, b3, b4, b5, b6, b7; try discriminate Hd; repeat split.
Qed.

Lemma str_of_int_head (z : Z) :
  exists c t, str_of_int z = String c t /\ (Json.is_digit c = true \/ c = "-"%char).
Proof.
  destruct z as [|p|p].
  - exists "0"%char, "". split; [reflexivity | now left].
  - rewrite str_of_int_pos.
    destruct (scan_int_part_pos p "" ltac:(discriminate)) as (c & t & E & _ & Hd & _).
    exists c, t. split; [exact E | now left].
  - rewrite str_of_int_neg. eexists _, _. split; [reflexivity | now right].
Qed.

(** The containers of a list are not deeper than the deepest of them. *)
Lemma list_max_In {A} (f : A -> nat) (l : list A) (x : A) :
  In x l -> (f x <= list_max (map f l))%nat.
Proof.
  induction l as [|y l IH]; [contradiction |].
  cbn [map list_max fold_right]. intros [->|Hin]; [lia |].
  specialize (IH Hin). unfold list_max in IH. lia.
Qed.

Section ValueProps.
Context `{Externals}.
Hypothesis float_law : float_repr_reads_back.

(** The guard of the encoder, when the value was encoded. *)
Lemma recursion_guard_ok (lvl need : nat) (r : result string exn) (text : string) :
  Json.recursion_guard lvl need r = Ok text -> r = Ok text.
Proof. unfold Json.recursion_guard. now destruct (_ <=? _)%nat. Qed.

Lemma int_repr_ok (z : Z) (text : string) :
  Json.int_repr z = Ok text ->
  text = str_of_int z /\ (Json.int_digits z <= Json.max_str_digits)%nat.
Proof.
  unfold Json.int_repr.
  destruct (Nat.ltb_spec Json.max_str_digits (Json.int_digits z)); [discriminate |].
  intros E. injection E as <-. now split.
Qed.

(** The text of a float that JSON represents starts like a number, or
    like one of the two infinities. *)
Lemma floatstr_head (f : Z) :
  json_float f = true ->
  exists c t,
    Json.floatstr f = String c t /\ Json.is_ws c = false /\ Ascii.eqb c "]" = false.
Proof.
  unfold json_float. intros Hf.
  destruct (is_finite f) eqn:Hfin.
  - rewrite (floatstr_finite f Hfin).
    destruct (float_law f Hfin) as [Hlit _].
    destruct (float_literal_head _ Hlit) as (c & t & E & Hc).
    destruct (number_head c Hc) as (_ & _ & _ & Hb & _ & _ & _ & Hw).
    exists c, t. auto.
  - cbn [orb] in Hf. apply orb_true_iff in Hf.
    destruct Hf as [Hf|Hf]; apply Z.eqb_eq in Hf; subst f;
      eexists _, _; repeat split.
Qed.

(** An encoded JSON value starts with a character that is neither
    whitespace nor a closing bracket. *)
Lemma encode_head (v : pyval) (lvl : nat) (text : string) :
  json_value v = true ->
  Json.encode lvl v = Ok text ->
  exists c t,
    text = String c t /\ Json.is_ws c = false /\ Ascii.eqb c "]" = false.
Proof.
  intros Hv He. destruct v as [|b|z|f|s|s|l|l|d]; try discriminate Hv;
    cbn [Json.encode] in He.
  - injection He as <-. eexists _, _. repeat split.
  - destruct b; injection He as <-; eexists _, _; repeat split.
  - apply int_repr_ok in He. destruct He as [-> _].
    destruct (str_of_int_head z) as (c & t & E & Hc).
    destruct (number_head c Hc) as (_ & _ & _ & Hb & _ & _ & _ & Hw).
    exists c, t. auto.
  - apply recursion_guard_ok in He. injection He as <-.
    now apply floatstr_head.
  - injection He as <-. eexists _, _. repeat split.
  - destruct l as [|x l]; apply recursion_guard_ok in He.
    + injection He as <-. eexists _, _. repeat split.
    + unfold Json.bracket in He.
      destruct (Json.join_items _ _) as [items|e]; [| discriminate He].
      injection He as <-. eexists _, _. repeat split.
  - destruct d as [|kv d]; apply recursion_guard_ok in He.
    + injection He as <-. eexists _, _. repeat split.
    + unfold Json.bracket in He.
      destruct (Json.join_items _ _) as [items|e]; [| discriminate He].
      injection He as <-. eexists _, _. repeat split.
Qed.

(** The items of a non-empty list start like the first of them. *)
Lemma join_items_head (lvl : nat) (x : pyval) (l : list pyval) (items : string) :
  json_value x = true ->
  Json.join_items lvl (map (Json.encode lvl) (x :: l)) = Ok items ->
  exists c t,
    items = String c t /\ Json.is_ws c = false /\ Ascii.eqb c "]" = false.
Proof.
  intros Hx He. cbn [map Json.join_items] in He.
  destruct (Json.encode lvl x) as [a|e] eqn:Ea.
  - destruct (encode_head x lvl a Hx Ea) as (c & t & -> & Hw & Hb).
    destruct l as [|y l].
    + injection He as <-. eauto.
    + cbn [map] in He.
      destruct (Json.join_items lvl (Json.encode lvl y :: map (Json.encode lvl) l))
        as [b|e]; [| discriminate He].
      injection He as <-. rewrite app_cons. eauto.
  - destruct l as [|y l]; [discriminate He |].
    cbn [map] in He. discriminate He.
Qed.

(** *** Scalars *)

Lemma decode_atom (fuel lvl : nat) (c : ascii) (s : string) :
  Ascii.eqb c Json.quote = false -> Ascii.eqb c "{" = false ->
  Ascii.eqb c "[" = false ->
  Json.decode (S fuel) lvl (String c s) = Json.scan_atom (String c s).
Proof.
  intros Hq Hb Hk. cbn [Json.decode]. now rewrite Hq, Hb, Hk.
Qed.

Lemma scan_atom_number (c : ascii) (s : string) (r : pyval * string) :
  Ascii.eqb "n" c = false -> Ascii.eqb "t" c = false -> Ascii.eqb "f" c = false ->
  Json.scan_number (String c s) = Some r ->
  Json.scan_atom (String c s) = Some r.
Proof.
  intros Hn Ht Hf Hs. unfold Json.scan_atom.
  cbn [Json.strip_prefix]. now rewrite Hn, Ht, Hf, Hs.
Qed.

Lemma round_trips_none : round_trips PNone.
Proof.
  intros lvl text rest [|fuel] He Hr Hf Hd; [cbn in Hf; lia |].
  injection He as <-. reflexivity.
Qed.

Lemma round_trips_bool (b : bool) : round_trips (PBool b).
Proof.
  intros lvl text rest [|fuel] He Hr Hf Hd; [cbn in Hf; lia |].
  destruct b; injection He as <-; reflexivity.
Qed.

Lemma round_trips_int (z : Z) : round_trips (PInt z).
Proof.
  intros lvl text rest [|fuel] He Hr Hf Hd; [cbn in Hf; lia |].
  cbn [Json.encode] in He. apply int_repr_ok in He. destruct He as [-> Hz].
  pose proof (scan_number_int z rest Hz Hr) as Hs.
  destruct (str_of_int_head z) as (c & t & E & Hc).
  destruct (number_head c Hc) as (Hq & Hb & Hk & _ & Hn & Ht & Hff & _).
  rewrite E in *. rewrite app_cons in *.
  rewrite decode_atom by assumption.
  now apply scan_atom_number.
Qed.

Lemma round_trips_float (f : Z) : json_float f = true -> round_trips (PFloat f).
Proof.
  intros Hj lvl text rest [|fuel] He Hr Hf Hd; [cbn in Hf; lia |].
  cbn [Json.encode] in He. apply recursion_guard_ok in He. injection He as <-.
  unfold json_float in Hj. destruct (is_finite f) eqn:Hfin.
  - rewrite (floatstr_finite f Hfin).
    destruct (float_law f Hfin) as [Hlit Hback].
    pose proof (scan_number_float _ rest Hlit Hr) as Hs. rewrite Hback in Hs.
    destruct (float_literal_head _ Hlit) as (c & t & E & Hc).
    destruct (number_head c Hc) as (Hq & Hb & Hk & _ & Hn & Ht & Hff & _).
    rewrite E in *. rewrite app_cons in *.
    rewrite decode_atom by assumption.
    now apply scan_atom_number.
  - cbn [orb] in Hj. apply orb_true_iff in Hj.
    destruct Hj as [Hj|Hj]; apply Z.eqb_eq in Hj; subst f.
    + rewrite floatstr_pos_inf. reflexivity.
    + rewrite floatstr_neg_inf. reflexivity.
Qed.

Lemma round_trips_str (s : string) : round_trips (PStr s).
Proof.
  intros lvl text rest [|fuel] He Hr Hf Hd; [cbn in Hf; lia |].
  cbn [Json.encode] in He. injection He as <-.
  destruct (scanstring_encode_str s rest) as (body & -> & Hs).
  cbn [Json.decode]. rewrite Ascii.eqb_refl, Hs. reflexivity.
Qed.

End ValueProps.

(** ** JSON: containers *)

Section ContainerProps.
Context `{Externals}.
Hypothesis float_law : float_repr_reads_back.

Lemma follows_comma (s : string) : follows_value ("," +:+ s) = true.
Proof. reflexivity. Qed.

Lemma skip_ws_comma (s : string) : Json.skip_ws ("," +:+ s) = String "," s.
Proof. reflexivity. Qed.

Lemma skip_ws_colon (s : string) : Json.skip_ws (": " +:+ s) = String ":" (" " +:+ s).
Proof. reflexivity. Qed.

Lemma skip_ws_space (s : string) : Json.skip_ws (" " +:+ s) = Json.skip_ws s.
Proof. reflexivity. Qed.

Lemma join_items_two (lvl : nat) (r r' : result string exn)
    (rs : list (result string exn)) :
  Json.join_items lvl (r :: r' :: rs) =
  match r, Json.join_items lvl (r' :: rs) with
  | Ok a, Ok b => Ok (a +:+ "," +:+ Json.newline_indent lvl +:+ b)
  | Error e, _ => Error e
  | _, Error e => Error e
  end.
Proof. reflexivity. Qed.

(** The items of a list, followed by the closing bracket at depth
    [lvl], are read back by the array loop. *)
Lemma decode_array_round_trip (lvl : nat) (l : list pyval) :
  Forall round_trips l ->
  Forall (fun x => json_value x = true) l ->
  Forall (fun x => (S lvl + depth x <= json_decoder_depth)%nat) l ->
  l <> [] ->
  forall (items rest : string) (fuel : nat),
    Json.join_items (S lvl) (map (Json.encode (S lvl)) l) = Ok items ->
    (list_sum (map (fun x => S (decode_cost x)) l) <= fuel)%nat ->
    Json.decode_array fuel (S lvl)
      (items +:+ Json.newline_indent lvl +:+ "]" +:+ rest)
    = Some (l, rest).
Proof.
  induction l as [|x l IH]; intros Hrt Hjv Hdp Hne items rest fuel He Hf;
    [contradiction |].
  apply Forall_cons in Hrt. destruct Hrt as [Hx Hrt].
  apply Forall_cons in Hjv. destruct Hjv as [Hjx Hjv].
  apply Forall_cons in Hdp. destruct Hdp as [Hdx Hdp].
  destruct l as [|y l]; cbn [map list_sum fold_right] in Hf;
    (destruct fuel as [|fuel]; [lia |]).
  - cbn [map Json.join_items] in He.
    cbn [Json.decode_array].
    rewrite (Hx (S lvl) items _ fuel He (follows_newline_indent lvl _)) by lia.
    rewrite skip_ws_newline_indent. reflexivity.
  - cbn [map] in He. rewrite join_items_two in He.
    destruct (Json.encode (S lvl) x) as [a|e] eqn:Ea.
    2: discriminate He.
    destruct (Json.join_items (S lvl)
                (Json.encode (S lvl) y :: map (Json.encode (S lvl)) l))
      as [b|e] eqn:Eb; [| discriminate He].
    injection He as <-.
    assert (Hjy : json_value y = true).
    { apply Forall_cons in Hjv. tauto. }
    destruct (join_items_head float_law (S lvl) y l b Hjy Eb) as (c & t & Ehd & Hw & _).
    rewrite !app_assoc. cbn [Json.decode_array].
    rewrite (Hx (S lvl) a _ fuel Ea (follows_comma _)) by lia.
    rewrite skip_ws_comma. cbn [Ascii.eqb Bool.eqb].
    rewrite skip_ws_newline_indent.
    rewrite Ehd at 1. rewrite app_cons, (skip_ws_head c _ Hw).
    rewrite <- app_cons, <- Ehd.
    rewrite (IH Hrt Hjv Hdp ltac:(discriminate) b rest fuel Eb)
      by (cbn [map list_sum fold_right]; lia).
    reflexivity.
Qed.

(** A member starts with the opening quote of its key. *)
Lemma encode_member_head (k : string) (r : result string exn) (text : string) :
  Json.encode_member k r = Ok text ->
  exists a, r = Ok a
    /\ text = String Json.quote
                (Json.escape_string k +:+ String Json.quote (": " +:+ a)).
Proof.
  unfold Json.encode_member. destruct r as [a|e]; [| discriminate].
  intros E. injection E as <-. exists a. split; [reflexivity |].
  unfold Json.encode_str. now rewrite app_cons, app_assoc.
Qed.

Lemma join_members_head (lvl : nat) (kv : string * pyval)
    (d : list (string * pyval)) (items : string) :
  Json.join_items lvl
    (map (fun kv => Json.encode_member (fst kv) (Json.encode lvl (snd kv))) (kv :: d))
  = Ok items ->
  exists t, items = String Json.quote t.
Proof.
  intros He. cbn [map Json.join_items] in He.
  destruct (Json.encode_member kv.1 (Json.encode lvl kv.2)) as [a|e] eqn:Ea.
  - destruct (encode_member_head _ _ _ Ea) as (a' & _ & ->).
    destruct d as [|kv' d].
    + injection He as <-. eauto.
    + cbn [map] in He.
      destruct (Json.join_items lvl _) as [b|e]; [| discriminate He].
      injection He as <-. rewrite app_cons. eauto.
  - destruct d as [|kv' d]; [discriminate He |].
    cbn [map] in He. discriminate He.
Qed.

(** The members of a dictionary, followed by the closing brace at depth
    [lvl], are read back by the object loop, which starts after the
    opening quote of the first key. *)
Lemma decode_object_round_trip (lvl : nat) (d : list (string * pyval)) :
  Forall (fun kv => round_trips (snd kv)) d ->
  Forall (fun kv => json_value (snd kv) = true) d ->
  Forall (fun kv => (S lvl + depth (snd kv) <= json_decoder_depth)%nat) d ->
  d <> [] ->
  forall (items rest : string) (fuel : nat),
    Json.join_items (S lvl)
      (map (fun kv => Json.encode_member (fst kv) (Json.encode (S lvl) (snd kv))) d)
    = Ok items ->
    (list_sum (map (fun kv => S (decode_cost (snd kv))) d) <= fuel)%nat ->
    exists body,
      items +:+ Json.newline_indent lvl +:+ "}" +:+ rest = String Json.quote body
      /\ Json.decode_object fuel (S lvl) body = Some (d, rest).
Proof.
  induction d as [|[k x] d IH]; intros Hrt Hjv Hdp Hne items rest fuel He Hf;
    [contradiction |].
  apply Forall_cons in Hrt. destruct Hrt as [Hx Hrt]. cbn [snd] in Hx.
  apply Forall_cons in Hjv. destruct Hjv as [Hjx Hjv]. cbn [snd] in Hjx.
  apply Forall_cons in Hdp. destruct Hdp as [Hdx Hdp]. cbn [snd] in Hdx.
  destruct d as [|kv' d]; cbn [map list_sum fold_right snd] in Hf;
    (destruct fuel as [|fuel]; [lia |]).
  - cbn [map Json.join_items fst snd] in He.
    destruct (encode_member_head _ _ _ He) as (a & Ea & ->).
    destruct (encode_head float_law x (S lvl) a Hjx Ea) as (c & t & Ehd & Hw & _).
    eexists. split; [rewrite app_cons; reflexivity |].
    cbn [Json.decode_object].
    rewrite !app_assoc, app_cons, scanstring_escape_string.
    rewrite !app_assoc, skip_ws_colon. cbn [Ascii.eqb Bool.eqb]. rewrite skip_ws_space.
    rewrite Ehd at 1. rewrite app_cons, (skip_ws_head c _ Hw).
    rewrite <- app_cons, <- Ehd.
    rewrite (Hx (S lvl) a _ fuel Ea (follows_newline_indent lvl _)) by lia.
    rewrite skip_ws_newline_indent. reflexivity.
  - cbn [map] in He. rewrite join_items_two in He. cbn [fst snd] in He.
    destruct (Json.encode_member k (Json.encode (S lvl) x)) as [m|e] eqn:Em.
    2: discriminate He.
    match type of He with
    | context [Json.join_items ?n ?rs] =>
        destruct (Json.join_items n rs) as [b|e] eqn:Eb; [| discriminate He]
    end.
    injection He as <-.
    destruct (encode_member_head _ _ _ Em) as (a & Ea & ->).
    destruct (encode_head float_law x (S lvl) a Hjx Ea) as (c & t & Ehd & Hw & _).
    destruct (IH Hrt Hjv Hdp ltac:(discriminate) b rest fuel Eb
                ltac:(cbn [map list_sum fold_right snd] in *; lia))
      as (body & Hbody & Hdec).
    eexists. split; [rewrite app_cons; reflexivity |].
    cbn [Json.decode_object].
    rewrite !app_assoc, app_cons, scanstring_escape_string.
    rewrite !app_assoc, skip_ws_colon. cbn [Ascii.eqb Bool.eqb]. rewrite skip_ws_space.
    rewrite Ehd at 1. rewrite app_cons, (skip_ws_head c _ Hw).
    rewrite <- app_cons, <- Ehd.
    rewrite (Hx (S lvl) a _ fuel Ea (follows_comma _)) by lia.
    rewrite skip_ws_comma. cbn [Ascii.eqb Bool.eqb].
    rewrite skip_ws_newline_indent, Hbody.
    rewrite (skip_ws_head Json.quote _ eq_refl). cbn [Ascii.eqb Bool.eqb].
    rewrite Hdec. reflexivity.
Qed.

End ContainerProps.

(** ** JSON: every value is read back *)

Section RoundTripProps.
Context `{Externals}.
Hypothesis float_law : float_repr_reads_back.

Lemma forallb_Forall_json (l : list pyval) :
  forallb json_value l = true -> Forall (fun x => json_value x = true) l.
Proof.
  intros Hall. apply Forall_forall. intros x Hx.
  rewrite forallb_forall in Hall. apply Hall. now apply list_elem_of_In.
Qed.

Lemma forallb_Forall_json_snd (d : list (string * pyval)) :
  forallb (fun kv => json_value (snd kv)) d = true ->
  Forall (fun kv => json_value (snd kv) = true) d.
Proof.
  intros Hall. apply Forall_forall. intros x Hx.
  rewrite forallb_forall in Hall. apply Hall. now apply list_elem_of_In.
Qed.

(** The items of a container lie one level below it. *)
Lemma depth_items (l : list pyval) (lvl bound : nat) :
  (lvl + S (list_max (map depth l)) <= bound)%nat ->
  Forall (fun x => (S lvl + depth x <= bound)%nat) l.
Proof.
  intros Hd. apply Forall_forall. intros x Hx. apply list_elem_of_In in Hx.
  pose proof (list_max_In depth l x Hx). lia.
Qed.

Lemma depth_members (d : list (string * pyval)) (lvl bound : nat) :
  (lvl + S (list_max (map (fun kv => depth (snd kv)) d)) <= bound)%nat ->
  Forall (fun kv => (S lvl + depth (snd kv) <= bound)%nat) d.
Proof.
  intros Hd. apply Forall_forall. intros x Hx. apply list_elem_of_In in Hx.
  pose proof (list_max_In (fun kv => depth (snd kv)) d x Hx). cbv beta in *. lia.
Qed.

Lemma decode_bracket (fuel lvl : nat) (s : string) :
  (lvl < json_decoder_depth)%nat ->
  Json.decode (S fuel) lvl ("[" +:+ s) =
  match Json.skip_ws s with
  | EmptyString => None
  | String c1 r1 =>
      if Ascii.eqb c1 "]" then Some (PList [], r1)
      else
        match Json.decode_array fuel (S lvl) (String c1 r1) with
        | Some (l, r) => Some (PList l, r)
        | None => None
        end
  end.
Proof.
  intros Hl. change ("[" +:+ s) with (String "[" s).
  cbn [Json.decode Ascii.eqb Bool.eqb Json.quote].
  now replace (json_decoder_depth <=? lvl)%nat with false
    by (symmetry; apply Nat.leb_gt; lia).
Qed.

Lemma decode_brace (fuel lvl : nat) (s : string) :
  (lvl < json_decoder_depth)%nat ->
  Json.decode (S fuel) lvl ("{" +:+ s) =
  match Json.skip_ws s with
  | EmptyString => None
  | String c1 r1 =>
      if Ascii.eqb c1 "}" then Some (PDict [], r1)
      else if Ascii.eqb c1 Json.quote then
        match Json.decode_object fuel (S lvl) r1 with
        | Some (pairs, r) => Some (PDict (dict_update [] pairs), r)
        | None => None
        end
      else None
  end.
Proof.
  intros Hl. change ("{" +:+ s) with (String "{" s).
  cbn [Json.decode Ascii.eqb Bool.eqb Json.quote].
  now replace (json_decoder_depth <=? lvl)%nat with false
    by (symmetry; apply Nat.leb_gt; lia).
Qed.

Lemma round_trips_list (l : list pyval) :
  Forall round_trips l ->
  Forall (fun x => json_value x = true) l ->
  round_trips (PList l).
Proof.
  intros Hrt Hjv lvl text rest fuel He Hr Hf Hd.
  destruct fuel as [|fuel]; [cbn in Hf; lia |].
  cbn [depth] in Hd.
  assert (Hl : (lvl < json_decoder_depth)%nat) by lia.
  cbn [Json.encode] in He.
  destruct l as [|x l]; apply recursion_guard_ok in He.
  - injection He as <-. change ("[]" +:+ rest) with ("[" +:+ "]" +:+ rest).
    now rewrite decode_bracket.
  - unfold Json.bracket in He.
    destruct (Json.join_items (S lvl) (map (Json.encode (S lvl)) (x :: l)))
      as [items|e] eqn:Ei; [| discriminate He].
    injection He as <-.
    assert (Hjx : json_value x = true) by (apply Forall_cons in Hjv; tauto).
    destruct (join_items_head float_law (S lvl) x l items Hjx Ei)
      as (c & t & Ehd & Hw & Hb).
    rewrite !app_assoc, decode_bracket by exact Hl.
    rewrite skip_ws_newline_indent.
    rewrite Ehd at 1. rewrite app_cons, (skip_ws_head c _ Hw), Hb.
    rewrite <- app_cons, <- Ehd.
    rewrite (decode_array_round_trip float_law lvl (x :: l) Hrt Hjv
               (depth_items _ _ _ Hd) ltac:(discriminate) items rest fuel Ei).
    + reflexivity.
    + cbn [decode_cost] in Hf. lia.
Qed.

Lemma round_trips_dict (d : list (string * pyval)) :
  Forall (fun kv => round_trips (snd kv)) d ->
  Forall (fun kv => json_value (snd kv) = true) d ->
  unique_keys d = true ->
  round_trips (PDict d).
Proof.
  intros Hrt Hjv Hu lvl text rest fuel He Hr Hf Hd.
  destruct fuel as [|fuel]; [cbn in Hf; lia |].
  cbn [depth] in Hd.
  assert (Hl : (lvl < json_decoder_depth)%nat) by lia.
  cbn [Json.encode] in He.
  destruct d as [|kv d]; apply recursion_guard_ok in He.
  - injection He as <-. change ("{}" +:+ rest) with ("{" +:+ "}" +:+ rest).
    now rewrite decode_brace.
  - unfold Json.bracket in He.
    match type of He with
    | context [Json.join_items ?n ?rs] =>
        destruct (Json.join_items n rs) as [items|e] eqn:Ei; [| discriminate He]
    end.
    injection He as <-.
    destruct (decode_object_round_trip float_law lvl (kv :: d) Hrt Hjv
                (depth_members _ _ _ Hd) ltac:(discriminate)
                items rest fuel Ei ltac:(cbn [decode_cost] in Hf; lia))
      as (body & Hbody & Hdec).
    rewrite !app_assoc, decode_brace by exact Hl.
    rewrite skip_ws_newline_indent, Hbody.
    rewrite (skip_ws_head Json.quote _ eq_refl).
    change (Ascii.eqb Json.quote "}") with false.
    rewrite Ascii.eqb_refl.
    rewrite Hdec, dict_update_nil_unique by exact Hu. reflexivity.
Qed.

(** Every JSON value is read back from its encoding. *)
Lemma json_round_trips (v : pyval) : json_value v = true -> round_trips v.
Proof.
  induction v using pyval_nested_ind; intros Hv; try discriminate Hv.
  - apply round_trips_none.
  - apply round_trips_bool.
  - apply round_trips_int.
  - now apply round_trips_float.
  - apply round_trips_str.
  - cbn [json_value] in Hv. apply forallb_Forall_json in Hv.
    apply round_trips_list; [| exact Hv].
    apply Forall_forall. intros x Hx.
    rewrite Forall_forall in H0, Hv. auto.
  - cbn [json_value] in Hv. apply andb_true_iff in Hv. destruct Hv as [Hu Hv].
    apply forallb_Forall_json_snd in Hv.
    apply round_trips_dict; [| exact Hv | exact Hu].
    apply Forall_forall. intros x Hx.
    rewrite Forall_forall in H0, Hv. auto.
Qed.

(** *** The fuel [loads] provides is enough *)

Lemma length_newline_indent (lvl : nat) :
  (1 <= String.length (Json.newline_indent lvl))%nat.
Proof. unfold Json.newline_indent. cbn [String.length]. lia. Qed.

Lemma join_items_size (l : list pyval) (lvl : nat) (items : string) :
  Forall (fun x => forall lvl text,
            Json.encode lvl x = Ok text -> (decode_cost x <= String.length text)%nat) l ->
  Json.join_items lvl (map (Json.encode lvl) l) = Ok items ->
  (list_sum (map (fun x => S (decode_cost x)) l) <= S (String.length items))%nat.
Proof.
  revert items. induction l as [|x l IH]; intros items Hs He.
  - cbn. lia.
  - apply Forall_cons in Hs. destruct Hs as [Hx Hs].
    destruct l as [|y l].
    + cbn [map Json.join_items] in He. apply Hx in He.
      cbn [map list_sum fold_right]. lia.
    + cbn [map] in He. rewrite join_items_two in He.
      destruct (Json.encode lvl x) as [a|e] eqn:Ea; [| discriminate He].
      destruct (Json.join_items lvl (Json.encode lvl y :: map (Json.encode lvl) l))
        as [b|e] eqn:Eb; [| discriminate He].
      injection He as <-.
      specialize (IH b Hs Eb). apply Hx in Ea.
      pose proof (length_newline_indent lvl).
      repeat (progress cbn [String.length] || rewrite string_length_app).
      cbn [map list_sum fold_right] in *. lia.
Qed.

Lemma join_members_size (d : list (string * pyval)) (lvl : nat) (items : string) :
  Forall (fun kv => forall lvl text,
            Json.encode lvl (snd kv) = Ok text ->
            (decode_cost (snd kv) <= String.length text)%nat) d ->
  Json.join_items lvl
    (map (fun kv => Json.encode_member (fst kv) (Json.encode lvl (snd kv))) d)
  = Ok items ->
  (list_sum (map (fun kv => S (decode_cost (snd kv))) d) <= S (String.length items))%nat.
Proof.
  revert items. induction d as [|[k x] d IH]; intros items Hs He.
  - cbn. lia.
  - apply Forall_cons in Hs. destruct Hs as [Hx Hs]. cbn [snd] in Hx.
    destruct d as [|kv' d].
    + cbn [map Json.join_items fst snd] in He.
      destruct (encode_member_head _ _ _ He) as (a & Ea & ->).
      apply Hx in Ea.
      repeat (progress cbn [String.length] || rewrite string_length_app).
      cbn [map list_sum fold_right snd]. lia.
    + cbn [map] in He. rewrite join_items_two in He. cbn [fst snd] in He.
      destruct (Json.encode_member k (Json.encode lvl x)) as [m|e] eqn:Em;
        [| discriminate He].
      match type of He with
      | context [Json.join_items ?n ?rs] =>
          destruct (Json.join_items n rs) as [b|e] eqn:Eb; [| discriminate He]
      end.
      injection He as <-.
      specialize (IH b Hs Eb).
      destruct (encode_member_head _ _ _ Em) as (a & Ea & ->).
      apply Hx in Ea. pose proof (length_newline_indent lvl).
      repeat (progress cbn [String.length] || rewrite string_length_app).
      cbn [map list_sum fold_right snd] in *. lia.
Qed.

Lemma size_le_length (v : pyval) :
  json_value v = true ->
  forall (lvl : nat) (text : string),
    Json.encode lvl v = Ok text -> (decode_cost v <= String.length text)%nat.
Proof.
  induction v using pyval_nested_ind; intros Hv lvl text He;
    try discriminate Hv;
    try (destruct (encode_head float_law _ _ _ Hv He) as (c & t & -> & _);
         cbn [decode_cost String.length]; lia);
    cbn [Json.encode] in He.
  - cbn [json_value] in Hv. apply forallb_Forall_json in Hv.
    destruct l as [|x l]; apply recursion_guard_ok in He;
      [injection He as <-; cbn; lia |].
    unfold Json.bracket in He.
    destruct (Json.join_items (S lvl) (map (Json.encode (S lvl)) (x :: l)))
      as [items|e] eqn:Ei; [| discriminate He].
    injection He as <-.
    assert (Hs : Forall (fun x => forall lvl text,
                           Json.encode lvl x = Ok text ->
                           (decode_cost x <= String.length text)%nat) (x :: l)).
    { apply Forall_forall. intros y Hy. rewrite Forall_forall in H0, Hv.
      intros lvl' text' He'. exact (H0 y Hy (Hv y Hy) lvl' text' He'). }
    pose proof (join_items_size (x :: l) (S lvl) items Hs Ei) as Hsum.
    pose proof (length_newline_indent (S lvl)).
    pose proof (length_newline_indent lvl).
    repeat (progress cbn [String.length] || rewrite string_length_app).
    cbn [decode_cost]. lia.
  - cbn [json_value] in Hv. apply andb_true_iff in Hv. destruct Hv as [_ Hv].
    apply forallb_Forall_json_snd in Hv.
    destruct d as [|kv d]; apply recursion_guard_ok in He;
      [injection He as <-; cbn; lia |].
    unfold Json.bracket in He.
    match type of He with
    | context [Json.join_items ?n ?rs] =>
        destruct (Json.join_items n rs) as [items|e] eqn:Ei; [| discriminate He]
    end.
    injection He as <-.
    assert (Hs : Forall (fun kv : string * pyval => forall lvl text,
                           Json.encode lvl (snd kv) = Ok text ->
                           (decode_cost (snd kv) <= String.length text)%nat) (kv :: d)).
    { apply Forall_forall. intros y Hy. rewrite Forall_forall in H0, Hv.
      intros lvl' text' He'. exact (H0 y Hy (Hv y Hy) lvl' text' He'). }
    pose proof (join_members_size (kv :: d) (S lvl) items Hs Ei) as Hsum.
    pose proof (length_newline_indent (S lvl)).
    pose proof (length_newline_indent lvl).
    repeat (progress cbn [String.length] || rewrite string_length_app).
    cbn [decode_cost]. lia.
Qed.

(** [json.loads(json.dumps(v, indent=2))] is [v] for every JSON value
    that the decoder may enter. *)
Lemma loads_dumps (v : pyval) (text : string) :
  json_value v = true ->
  (depth v <= json_decoder_depth)%nat ->
  Json.dumps v = Ok text ->
  Json.loads text = Ok v.
Proof.
  intros Hv Hd He. unfold Json.dumps in He. unfold Json.loads.
  destruct (encode_head float_law v 0 text Hv He) as (c & t & Ehd & Hw & _).
  rewrite Ehd at 2. rewrite (skip_ws_head c t Hw), <- Ehd.
  pose proof (json_round_trips v Hv 0%nat text "" (S (String.length text)) He eq_refl)
    as Hrt.
  rewrite app_nil_r in Hrt. rewrite Hrt.
  - reflexivity.
  - pose proof (size_le_length v Hv 0%nat text He). lia.
  - exact Hd.
Qed.

(** The items of a container are encoded when each of them is. *)
Lemma join_items_encoded (lvl : nat) (l : list pyval) :
  Forall (fun x => exists text, Json.encode lvl x = Ok text) l ->
  exists items, Json.join_items lvl (map (Json.encode lvl) l) = Ok items.
Proof.
  induction l as [|y l IH]; intros Hl; [eexists; reflexivity |].
  apply Forall_cons in Hl. destruct Hl as [[a Ea] Hl].
  destruct (IH Hl) as [b Eb].
  destruct l as [|z l].
  - cbn [map Json.join_items]. eauto.
  - cbn [map] in *. rewrite join_items_two, Ea, Eb. eauto.
Qed.

Lemma join_members_encoded (lvl : nat) (d : list (string * pyval)) :
  Forall (fun kv => exists text, Json.encode lvl (snd kv) = Ok text) d ->
  exists items,
    Json.join_items lvl
      (map (fun kv => Json.encode_member (fst kv) (Json.encode lvl (snd kv))) d)
    = Ok items.
Proof.
  induction d as [|y d IH]; intros Hd; [eexists; reflexivity |].
  apply Forall_cons in Hd. destruct Hd as [[a Ea] Hd].
  destruct (IH Hd) as [b Eb].
  destruct d as [|z d].
  - cbn [map Json.join_items]. rewrite Ea. cbn. eauto.
  - cbn [map] in *. rewrite join_items_two, Ea, Eb. cbn. eauto.
Qed.

Lemma recursion_guard_pass (lvl need : nat) (r : result string exn) :
  (lvl + need <= json_encoder_depth)%nat -> Json.recursion_guard lvl need r = r.
Proof.
  intros Hl. unfold Json.recursion_guard.
  now replace (lvl + need <=? json_encoder_depth)%nat with true
    by (symmetry; apply Nat.leb_le; lia).
Qed.

(** A JSON value is encoded when two levels of recursion are left below
    its deepest container. *)
Lemma encode_json_value (v : pyval) :
  json_value v = true ->
  forall lvl,
    (lvl + depth v + 2 <= json_encoder_depth)%nat ->
    exists text, Json.encode lvl v = Ok text.
Proof.
  induction v using pyval_nested_ind; intros Hv lvl Hd; try discriminate Hv;
    try (eexists; reflexivity).
  - destruct b; eexists; reflexivity.
  - cbn [json_value] in Hv. apply Nat.leb_le in Hv.
    cbn [Json.encode]. unfold Json.int_repr.
    rewrite within_limit by exact Hv. eauto.
  - cbn [Json.encode depth] in *. rewrite recursion_guard_pass; [eauto |].
    destruct (is_nan f || (f =? pos_inf) || (f =? neg_inf)); lia.
  - cbn [json_value] in Hv. apply forallb_Forall_json in Hv.
    cbn [Json.encode depth] in *.
    destruct l as [|x l]; rewrite recursion_guard_pass by lia;
      [eexists; reflexivity |].
    destruct (join_items_encoded (S lvl) (x :: l)) as [items ->];
      [| eexists; reflexivity].
    pose proof (depth_items (x :: l) (lvl + 2) json_encoder_depth ltac:(lia)) as Hdi.
    apply Forall_forall. intros y Hy.
    rewrite Forall_forall in H0, Hv, Hdi.
    apply (H0 y Hy (Hv y Hy)). specialize (Hdi y Hy). lia.
  - cbn [json_value] in Hv. apply andb_true_iff in Hv. destruct Hv as [_ Hv].
    apply forallb_Forall_json_snd in Hv.
    cbn [Json.encode depth] in *.
    destruct d as [|kv d]; rewrite recursion_guard_pass by lia;
      [eexists; reflexivity |].
    destruct (join_members_encoded (S lvl) (kv :: d)) as [items ->];
      [| eexists; reflexivity].
    pose proof (depth_members (kv :: d) (lvl + 2) json_encoder_depth ltac:(lia)) as Hdi.
    apply Forall_forall. intros y Hy.
    rewrite Forall_forall in H0, Hv, Hdi.
    apply (H0 y Hy (Hv y Hy)). specialize (Hdi y Hy). cbv beta in Hdi. lia.
Qed.

End RoundTripProps.

(** ** Messages *)

Section MessageProps.
Context `{Externals}.

(** A message is rebuilt from its dictionary without reading the clock. *)
Lemma from_dict_to_dict (m : MCPMessage) (w : World) :
  timestamp m <> None -> from_dict (to_dict m) w = (Ok m, w).
Proof.
  destruct m as [sd rc ty tr pl [ts|]]; [intros _ | intros Hts; contradiction].
  reflexivity.
Qed.


End MessageProps.


(** The sample environment writes a float so that it is read back. *)
Lemma demo_float_repr_reads_back : float_repr_reads_back (H:=demo_externals).
Proof.
  intros f Hfin.
  assert (Hpos : 0 <= f).
  { unfold is_finite in Hfin. apply andb_true_iff in Hfin as [Hfin _].
    apply andb_true_iff in Hfin as [Hfin _]. now apply Z.leb_le. }
  change (float_repr f) with (str_of_int f +:+ ".0").
  change (float_of_str (str_of_int f +:+ ".0"))
    with (Json.int_of_str (Json.span_digits (str_of_int f +:+ ".0")).1).
  destruct f as [|p|p]; [split; reflexivity | | lia].
  rewrite str_of_int_pos.
  assert (Hstop : forall c t, ".0"%string = String c t -> Json.is_digit c = false).
  { intros c t E. injection E as <- _. reflexivity. }
  split.
  - unfold float_literal, Json.scan_number_parts.
    destruct (scan_int_part_pos p ".0" Hstop) as (c & t & Ehd & Hminus & _ & Hscan).
    rewrite Ehd at 1. rewrite app_cons, Hminus, Hscan. reflexivity.
  - rewrite (span_digits_uint _ _ Hstop). cbn [fst].
    rewrite <- str_of_int_pos. apply int_of_str_of_int.
Qed.


(** ** Chunking: words, windows and strides *)

(** ** Splitting and joining *)

Lemma no_space_app (a b : string) :
  no_space (a +:+ b) = no_space a && no_space b.
Proof.
  induction a as [|c a IH]; [reflexivity |].
  rewrite app_cons. cbn [no_space]. rewrite IH. now rewrite andb_assoc.
Qed.

Lemma split_from_words (s : string) :
  forall cur, no_space cur = true -> Forall is_word (split_from cur s).
Proof.
  induction s as [|c s IH]; intros cur Hcur; cbn [split_from].
  - destruct (String.eqb_spec cur ""); [constructor |].
    constructor; [now split | constructor].
  - destruct (isspace c) eqn:Hc.
    + destruct (String.eqb_spec cur "").
      * now apply IH.
      * constructor; [now split | now apply IH].
    + apply IH. rewrite no_space_app, Hcur. cbn [no_space]. now rewrite Hc.
Qed.

Lemma split_words (s : string) : Forall is_word (split s).
Proof. now apply split_from_words. Qed.

Lemma split_from_word_prefix (w : string) :
  forall cur rest, no_space w = true ->
    split_from cur (w +:+ rest) = split_from (cur +:+ w) rest.
Proof.
  induction w as [|c w IH]; intros cur rest Hw.
  - now rewrite app_nil_l, app_nil_r.
  - cbn [no_space] in Hw. apply andb_true_iff in Hw as [Hc Hw].
    apply negb_true_iff in Hc.
    rewrite app_cons. cbn [split_from]. rewrite Hc.
    rewrite IH by assumption. now rewrite app_assoc.
Qed.

(** Joining words with one blank and splitting again gives the words. *)
Lemma split_join (ws : list string) :
  Forall is_word ws -> split (join " " ws) = ws.
Proof.
  induction 1 as [|w ws [Hne Hw] Hws IH]; [reflexivity |].
  destruct ws as [|w2 ws].
  - cbn [join]. unfold split.
    rewrite <- (app_nil_r w) at 1.
    rewrite split_from_word_prefix by assumption.
    rewrite app_nil_l. cbn [split_from].
    destruct (String.eqb_spec w ""); [contradiction | reflexivity].
  - change (join " " (w :: w2 :: ws)) with (w +:+ " " +:+ join " " (w2 :: ws)).
    unfold split. rewrite split_from_word_prefix by assumption.
    rewrite app_nil_l. rewrite app_cons, app_nil_l. cbn [split_from].
    change (isspace " ") with true. cbv iota.
    destruct (String.eqb_spec w ""); [contradiction |].
    f_equal. exact IH.
Qed.

(** ** Slices *)

Lemma slice_length {A} (l : list A) (i cs : Z) :
  0 <= i -> 0 <= cs ->
  len (slice l i (i + cs)) = Z.max 0 (Z.min (i + cs) (len l) - i).
Proof.
  intros Hi Hcs. unfold slice, clamp, len.
  destruct (Z.ltb_spec i 0); [lia |].
  destruct (Z.ltb_spec (i + cs) 0); [lia |].
  rewrite length_firstn, length_skipn. lia.
Qed.

Lemma slice_lookup {A} (l : list A) (i cs : Z) (p : nat) :
  0 <= i -> 0 <= cs ->
  Z.of_nat p < Z.min (i + cs) (len l) - i ->
  slice l i (i + cs) !! p = l !! (Z.to_nat i + p)%nat.
Proof.
  intros Hi Hcs Hp. unfold slice, clamp, len in *.
  destruct (Z.ltb_spec i 0); [lia |].
  destruct (Z.ltb_spec (i + cs) 0); [lia |].
  rewrite lookup_take. destruct (decide _) as [_|Hn]; [| lia].
  rewrite lookup_drop. f_equal. lia.
Qed.

Lemma slice_Forall {A} (P : A -> Prop) (l : list A) (a b : Z) :
  Forall P l -> Forall P (slice l a b).
Proof. intros Hl. unfold slice. now apply Forall_take, Forall_drop. Qed.

Section ChunkingGeneral.
Context `{Externals}.

Lemma last_ordinal_of_spec (cs step n : Z) :
  0 < step <= cs -> 1 <= n ->
  step * Z.of_nat (last_ordinal_of cs step n) + cs >= n
  /\ (forall k, (k < last_ordinal_of cs step n)%nat -> step * Z.of_nat k + cs < n)
  /\ (last_ordinal_of cs step n < Z.to_nat ((n + step - 1) / step))%nat.
Proof.
  intros Hs Hn. unfold last_ordinal_of.
  pose proof (Z.div_mod (n - cs + step - 1) step ltac:(lia)) as E1.
  pose proof (Z.mod_pos_bound (n - cs + step - 1) step ltac:(lia)) as B1.
  pose proof (Z.div_mod (n + step - 1) step ltac:(lia)) as E2.
  pose proof (Z.mod_pos_bound (n + step - 1) step ltac:(lia)) as B2.
  set (q1 := (n - cs + step - 1) / step) in *.
  set (q2 := (n + step - 1) / step) in *.
  set (r1 := (n - cs + step - 1) mod step) in *.
  set (r2 := (n + step - 1) mod step) in *.
  assert (Hq2 : 0 < q2) by nia.
  destruct (Z.le_gt_cases 0 q1) as [Hq|Hq].
  - rewrite Z2Nat.id by assumption. split; [lia |]. split.
    + intros k Hk. assert (Z.of_nat k <= q1 - 1) by lia. nia.
    + assert (q1 < q2) by nia. lia.
  - replace (Z.to_nat q1) with 0%nat by lia. split; [nia |]. split; [lia |]. lia.
Qed.

(** The run of [_chunk_text] on a text that holds a word, for an overlap
    smaller than the window. *)
Lemma chunk_text_run (text : string) (src : pyval) (cs ov : Z) (u : nat) :
  0 <= ov < cs ->
  all_space text = false ->
  let m := last_ordinal_of cs (cs - ov) (len (split text)) in
  IngestionAgent._chunk_text text src cs ov u =
  (Ok (map (chunk_at (split text) src cs (cs - ov) u) (seq 0 (S m))), (u + S m)%nat).
Proof.
  intros Hov Hsp m. unfold IngestionAgent._chunk_text.
  rewrite strip_eqb, Hsp.
  assert (Hn : 1 <= len (split text)).
  { destruct (split text) eqn:E.
    - apply split_nil_iff in E. congruence.
    - unfold len. cbn. lia. }
  rewrite range_from_zero by lia.
  destruct (last_ordinal_of_spec cs (cs - ov) _ ltac:(lia) Hn) as (Hge & Hlt & Hcnt).
  fold m in Hge, Hlt, Hcnt.
  pose proof (chunk_loop_run (split text) src cs (cs - ov) u
                (Z.to_nat ((len (split text) + (cs - ov) - 1) / (cs - ov))) 0 m []) as Hrun.
  rewrite Nat.add_0_r in Hrun. rewrite Hrun.
  - rewrite Nat.sub_0_r. reflexivity.
  - lia.
  - intros k Hk. apply Hlt. lia.
  - assumption.
  - reflexivity.
Qed.

End ChunkingGeneral.

Section ChunkingWindows.
Context `{Externals}.

Lemma split_nonblank (text : string) :
  all_space text = false -> 1 <= len (split text).
Proof.
  intros Hsp. destruct (split text) eqn:E.
  - apply split_nil_iff in E. congruence.
  - unfold len. cbn. lia.
Qed.

Lemma chunk_at_text_words (words : list string) (cs step : Z) (k : nat) :
  Forall is_word words ->
  split (join " " (slice words (step * Z.of_nat k) (step * Z.of_nat k + cs)))
  = slice words (step * Z.of_nat k) (step * Z.of_nat k + cs).
Proof. intros Hw. apply split_join. now apply slice_Forall. Qed.

(** X1: no word is lost: for an overlap smaller than the window, every word
    of the text lies in the window of some chunk, and is found again, at
    its place in that window, in the text of the chunk. *)
Theorem chunk_text_covers_every_word (text : string) (src : pyval) (cs ov : Z)
    (u j : nat) (word : string) :
  0 <= ov < cs ->
  split text !! j = Some word ->
  exists chunks u' c s e t,
    IngestionAgent._chunk_text text src cs ov u = (Ok chunks, u')
    /\ In c chunks
    /\ dict_lookup "start_word" c = Some (PInt s)
    /\ dict_lookup "end_word" c = Some (PInt e)
    /\ dict_lookup "text" c = Some (PStr t)
    /\ s <= Z.of_nat j < e
    /\ split t !! (j - Z.to_nat s)%nat = Some word.
Proof.
  intros Hov Hj.
  assert (Hjn : Z.of_nat j < len (split text)).
  { apply lookup_lt_Some in Hj. unfold len. lia. }
  assert (Hsp : all_space text = false).
  { destruct (all_space text) eqn:E; [| reflexivity].
    apply split_nil_iff in E. rewrite E in Hj. discriminate Hj. }
  pose proof (chunk_text_run text src cs ov u Hov Hsp) as Hrun. cbv zeta in Hrun.
  destruct (last_ordinal_of_spec cs (cs - ov) (len (split text)) ltac:(lia)
              (split_nonblank text Hsp)) as (Hge & Hlt & _).
  set (m := last_ordinal_of cs (cs - ov) (len (split text))) in *.
  set (step := cs - ov) in *.
  set (k := Nat.min (Z.to_nat (Z.of_nat j / step)) m).
  pose proof (Z.div_mod (Z.of_nat j) step ltac:(lia)) as Ed.
  pose proof (Z.mod_pos_bound (Z.of_nat j) step ltac:(lia)) as Bd.
  assert (Hq : 0 <= Z.of_nat j / step) by (apply Z.div_pos; lia).
  assert (Hwin : step * Z.of_nat k <= Z.of_nat j
                 < Z.min (step * Z.of_nat k + cs) (len (split text))).
  { subst k. destruct (Nat.le_gt_cases (Z.to_nat (Z.of_nat j / step)) m) as [Hle|Hgt].
    - rewrite Nat.min_l by assumption. rewrite Z2Nat.id by assumption. lia.
    - rewrite Nat.min_r by lia.
      assert (Z.of_nat m <= Z.of_nat j / step) by lia. nia. }
  eexists _, _, (chunk_at (split text) src cs step u k), _, _, _.
  split; [exact Hrun |]. split.
  { apply in_map, in_seq. subst k. lia. }
  split; [reflexivity |]. split; [reflexivity |]. split; [reflexivity |].
  split; [lia |].
  assert (Hi : 0 <= step * Z.of_nat k) by nia.
  rewrite chunk_at_text_words by apply split_words.
  rewrite slice_lookup by lia.
  rewrite <- Hj. f_equal. lia.
Qed.

(** X2: for an overlap smaller than the window, the first chunk starts at
    word 0, every chunk that has a successor holds exactly [chunk_size]
    words and its successor starts [overlap] words before its end, and
    the last chunk ends with the last word. *)
Theorem chunk_text_windows_overlap (text : string) (src : pyval) (cs ov : Z)
    (u : nat) :
  0 <= ov < cs ->
  all_space text = false ->
  exists chunks u',
    IngestionAgent._chunk_text text src cs ov u = (Ok chunks, u')
    /\ (exists c, chunks !! 0%nat = Some c
                  /\ dict_lookup "start_word" c = Some (PInt 0))
    /\ (forall k c c',
          chunks !! k = Some c -> chunks !! S k = Some c' ->
          exists s,
            dict_lookup "start_word" c = Some (PInt s)
            /\ dict_lookup "end_word" c = Some (PInt (s + cs))
            /\ dict_lookup "word_count" c = Some (PInt cs)
            /\ dict_lookup "start_word" c' = Some (PInt (s + cs - ov)))
    /\ (exists c, last chunks = Some c
                  /\ dict_lookup "end_word" c = Some (PInt (len (split text)))).
Proof.
  intros Hov Hsp.
  pose proof (chunk_text_run text src cs ov u Hov Hsp) as Hrun. cbv zeta in Hrun.
  destruct (last_ordinal_of_spec cs (cs - ov) (len (split text)) ltac:(lia)
              (split_nonblank text Hsp)) as (Hge & Hlt & _).
  set (m := last_ordinal_of cs (cs - ov) (len (split text))) in *.
  set (step := cs - ov) in *.
  eexists _, _. split; [exact Hrun |].
  assert (Hat : forall k, (k <= m)%nat ->
            map (chunk_at (split text) src cs step u) (seq 0 (S m)) !! k
            = Some (chunk_at (split text) src cs step u k)).
  { intros k Hk. rewrite list_lookup_fmap.
    rewrite lookup_seq_lt by lia. reflexivity. }
  assert (Hlen : length (map (chunk_at (split text) src cs step u) (seq 0 (S m)))
                 = S m) by now rewrite length_map, length_seq.
  split; [| split].
  - eexists. split; [apply Hat; lia |]. cbn [chunk_at dict_lookup String.eqb Ascii.eqb Bool.eqb].
    do 2 f_equal. lia.
  - intros k c c' Hc Hc'.
    assert (Hk : (S k <= m)%nat).
    { apply lookup_lt_Some in Hc'. rewrite Hlen in Hc'. lia. }
    rewrite Hat in Hc by lia. rewrite Hat in Hc' by lia.
    injection Hc as <-. injection Hc' as <-.
    specialize (Hlt k ltac:(lia)).
    assert (Hi : 0 <= step * Z.of_nat k) by nia.
    exists (step * Z.of_nat k).
    split; [reflexivity |]. split.
    + cbn [chunk_at dict_lookup String.eqb Ascii.eqb Bool.eqb].
      do 2 f_equal. lia.
    + split.
      * cbn [chunk_at dict_lookup String.eqb Ascii.eqb Bool.eqb].
        do 2 f_equal. rewrite slice_length by lia. lia.
      * cbn [chunk_at dict_lookup String.eqb Ascii.eqb Bool.eqb].
        do 2 f_equal. subst step. lia.
  - exists (chunk_at (split text) src cs step u m). split.
    + rewrite last_lookup, Hlen. cbn [pred]. apply Hat. lia.
    + cbn [chunk_at dict_lookup String.eqb Ascii.eqb Bool.eqb].
      do 2 f_equal. lia.
Qed.

(** X3: the text of every chunk splits again into the words of its window:
    [word_count] is the number of words of [text], it equals
    [end_word - start_word], and it lies between 1 and [chunk_size]. One
    identifier is drawn per chunk. *)
Theorem chunk_text_word_count (text : string) (src : pyval) (cs ov : Z)
    (u u' : nat) (chunks : list dict) :
  0 <= ov < cs ->
  IngestionAgent._chunk_text text src cs ov u = (Ok chunks, u') ->
  Forall (fun c =>
    exists t s e,
      dict_lookup "text" c = Some (PStr t)
      /\ dict_lookup "start_word" c = Some (PInt s)
      /\ dict_lookup "end_word" c = Some (PInt e)
      /\ dict_lookup "word_count" c = Some (PInt (len (split t)))
      /\ len (split t) = e - s
      /\ 1 <= len (split t) <= cs) chunks
  /\ u' = (u + length chunks)%nat.
Proof.
  intros Hov Hrun.
  destruct (all_space text) eqn:Hsp.
  - unfold IngestionAgent._chunk_text in Hrun. rewrite strip_eqb, Hsp in Hrun.
    injection Hrun as <- <-. split; [constructor | cbn; lia].
  - rewrite (chunk_text_run text src cs ov u Hov Hsp) in Hrun. cbv zeta in Hrun.
    destruct (last_ordinal_of_spec cs (cs - ov) (len (split text)) ltac:(lia)
                (split_nonblank text Hsp)) as (Hge & Hlt & Hcnt).
    set (m := last_ordinal_of cs (cs - ov) (len (split text))) in *.
    set (step := cs - ov) in *.
    assert (Ec : chunks = map (chunk_at (split text) src cs step u) (seq 0 (S m)))
      by congruence.
    assert (Eu : u' = (u + S m)%nat) by congruence.
    clear Hrun. subst chunks u'. split.
    2:{ now rewrite length_map, length_seq. }
    apply List.Forall_forall. intros c Hc.
    apply in_map_iff in Hc as (k & <- & Hk). apply in_seq in Hk.
    assert (Hstart : step * Z.of_nat k < len (split text)).
    { destruct (Nat.eq_dec k 0%nat) as [->|Hk0].
      - pose proof (split_nonblank text Hsp). lia.
      - specialize (Hlt (k - 1)%nat ltac:(lia)).
        assert (step * Z.of_nat k <= step * Z.of_nat (k - 1) + cs) by nia. lia. }
    assert (Hi : 0 <= step * Z.of_nat k) by nia.
    eexists _, _, _.
    split; [reflexivity |]. split; [reflexivity |]. split; [reflexivity |].
    rewrite chunk_at_text_words by apply split_words.
    split; [reflexivity |].
    rewrite slice_length by lia. lia.
Qed.

(** X4: an overlap that is not smaller than the window never yields a chunk:
    equal to the window it makes the stride zero, and a text that holds
    a word raises the [ValueError] of [range]; larger than the window it
    makes the stride negative and the result is the empty list, without
    any error. *)
Theorem chunk_text_overlap_not_below_window (text : string) (src : pyval)
    (cs ov : Z) (u : nat) :
  cs <= ov ->
  all_space text = false ->
  IngestionAgent._chunk_text text src cs ov u =
  (if ov =? cs then Error "range() arg 3 must not be zero"%string else Ok [], u).
Proof.
  intros Hov Hsp. unfold IngestionAgent._chunk_text.
  rewrite strip_eqb, Hsp. unfold range.
  destruct (Z.eqb_spec ov cs) as [->|Hne].
  - rewrite Z.sub_diag. reflexivity.
  - destruct (Z.eqb_spec (cs - ov) 0) as [|_]; [lia |].
    destruct (Z.ltb_spec 0 (cs - ov)) as [|_]; [lia |].
    pose proof (split_nonblank text Hsp) as Hn.
    set (q := (0 - len (split text) - (cs - ov) - 1) / - (cs - ov)).
    assert (Hd : q <= 0).
    { subst q. apply Z.lt_succ_r. apply Z.div_lt_upper_bound; lia. }
    replace (Z.to_nat q) with 0%nat by lia. reflexivity.
Qed.

End ChunkingWindows.

(** ** Vector store: bookkeeping *)

Section StoreProps.
Context `{Externals}.

Import VectorStore.

Lemma init_store_ok (dimension : Z) : store_ok (__init__ dimension).
Proof.
  constructor; cbn [__init__ next_index index d VectorStore.dimension
                    index_to_id id_to_index metadata_store xb].
  - reflexivity.
  - reflexivity.
  - intros i. rewrite lookup_empty. split; [intros [x Hx]; discriminate | lia].
  - intros id. rewrite !lookup_empty. split; intros [x Hx]; discriminate.
  - intros id i. rewrite lookup_empty. discriminate.
  - intros i id. rewrite lookup_empty. discriminate.
  - rewrite map_size_empty. unfold ntotal, len. cbn. lia.
Qed.

Lemma add_vector_inv (vs vs' : t) (vector_id : string) (embedding : ndarray)
    (metadata : addr) :
  add_vector vs vector_id embedding metadata = Ok vs' ->
  array_len (normalize embedding) = d (index vs)
  /\ vs' = {| dimension := dimension vs;
             index := {| d := d (index vs);
                         xb := xb (index vs) ++ [normalize embedding] |};
             metadata_store := <[vector_id := metadata]> (metadata_store vs);
             id_to_index := <[vector_id := next_index vs]> (id_to_index vs);
             index_to_id := <[next_index vs := vector_id]> (index_to_id vs);
             next_index := next_index vs + 1 |}.
Proof.
  unfold add_vector, index_add.
  destruct (Z.eqb_spec (array_len (normalize embedding)) (d (index vs))) as [E|E];
    [| discriminate].
  intros E'. injection E' as <-. split; [exact E | reflexivity].
Qed.

Lemma ntotal_snoc (dim : Z) (rows : list ndarray) (x : ndarray) :
  ntotal {| d := dim; xb := rows ++ [x] |} = ntotal {| d := dim; xb := rows |} + 1.
Proof. unfold ntotal, len. cbn [xb]. rewrite length_app. cbn [length]. lia. Qed.

Lemma add_vector_store_ok (vs vs' : t) (vector_id : string) (embedding : ndarray)
    (metadata : addr) :
  store_ok vs ->
  add_vector vs vector_id embedding metadata = Ok vs' ->
  store_ok vs'.
Proof.
  intros [Hnext Hdim Hrows Hids Hinv Hknown Hsize] Hadd.
  apply add_vector_inv in Hadd as [_ ->].
  assert (Hfresh : index_to_id vs !! next_index vs = None).
  { destruct (index_to_id vs !! next_index vs) eqn:E; [| reflexivity].
    assert (Hs : is_Some (index_to_id vs !! next_index vs)) by (rewrite E; eauto).
    apply Hrows in Hs. lia. }
  constructor; cbn [next_index index d dimension index_to_id id_to_index
                    metadata_store].
  - rewrite ntotal_snoc. unfold ntotal in *. cbn [xb]. lia.
  - exact Hdim.
  - intros i. destruct (Z.eq_dec i (next_index vs)) as [->|Hne].
    + rewrite lookup_insert_eq. split; [intros _ | eauto].
      unfold ntotal, len in Hnext. lia.
    + rewrite lookup_insert_ne by congruence. rewrite Hrows. lia.
  - intros id. destruct (String.string_dec id vector_id) as [->|Hne].
    + rewrite !lookup_insert_eq. split; eauto.
    + rewrite !lookup_insert_ne by congruence. apply Hids.
  - intros id i. destruct (String.string_dec id vector_id) as [->|Hne].
    + rewrite lookup_insert_eq. intros E. injection E as <-.
      apply lookup_insert_eq.
    + rewrite lookup_insert_ne by congruence. intros E.
      assert (Hi : i <> next_index vs).
      { intros ->. apply Hinv in E. congruence. }
      rewrite lookup_insert_ne by congruence. now apply Hinv.
  - intros i id. destruct (Z.eq_dec i (next_index vs)) as [->|Hne].
    + rewrite lookup_insert_eq. intros E. injection E as <-.
      rewrite lookup_insert_eq. eauto.
    + rewrite lookup_insert_ne by congruence. intros E.
      apply Hknown in E.
      destruct (String.string_dec id vector_id) as [->|Hne'].
      * rewrite lookup_insert_eq. eauto.
      * now rewrite lookup_insert_ne by congruence.
  - rewrite ntotal_snoc. rewrite map_size_insert.
    unfold ntotal in *. cbn [xb].
    destruct (metadata_store vs !! vector_id); cbn [id]; lia.
Qed.

Lemma reachable_ok (vs : t) : reachable vs -> store_ok vs.
Proof.
  induction 1 as [dim | vs vs' id e a _ IH Hadd | vs _ _].
  - apply init_store_ok.
  - exact (add_vector_store_ok vs vs' id e a IH Hadd).
  - apply init_store_ok.
Qed.

(** X6: whatever insertions and clearings built a store, its bookkeeping is
    consistent: the counter equals the number of rows, exactly the rows
    below it are named, every identifier is sent to a row that is sent
    back to it, and every named row has a metadata record. *)
Theorem reachable_store_consistent (vs : t) :
  reachable vs ->
  next_index vs = get_vector_count vs
  /\ (forall i, is_Some (index_to_id vs !! i) <-> 0 <= i < get_vector_count vs)
  /\ (forall id i, id_to_index vs !! id = Some i -> index_to_id vs !! i = Some id)
  /\ (forall i id, index_to_id vs !! i = Some id -> is_Some (get_metadata vs id))
  /\ (forall id, is_Some (get_metadata vs id) <-> is_Some (id_to_index vs !! id)).
Proof.
  intros Hr. destruct (reachable_ok vs Hr) as [Hnext Hdim Hrows Hids Hinv Hknown Hsize].
  unfold get_vector_count, get_metadata.
  split; [exact Hnext |]. split.
  - intros i. rewrite <- Hnext. apply Hrows.
  - split; [exact Hinv |]. split; [exact Hknown |].
    intros id. symmetry. apply Hids.
Qed.

Lemma active_vectors_bounds (vs : t) (h : heap) :
  0 <= active_vectors vs h <= Z.of_nat (size (metadata_store vs)).
Proof.
  unfold active_vectors, len.
  pose proof (length_filter (fun kv : string * addr => is_active h kv.2 = true)
                (map_to_list (metadata_store vs))) as Hf.
  rewrite length_map_to_list in Hf. lia.
Qed.

(** X7: the statistics of a store are sound counts: the active records are
    at most the rows of the index, so that [deleted_vectors] is never
    negative; the three numbers add up. *)
Theorem statistics_bounds (vs : t) (h : heap) :
  reachable vs ->
  exists total active deleted,
    dict_lookup "total_vectors" (get_statistics vs h) = Some (PInt total)
    /\ dict_lookup "active_vectors" (get_statistics vs h) = Some (PInt active)
    /\ dict_lookup "deleted_vectors" (get_statistics vs h) = Some (PInt deleted)
    /\ total = get_vector_count vs
    /\ 0 <= active <= total
    /\ 0 <= deleted <= total
    /\ active + deleted = total.
Proof.
  intros Hr. destruct (reachable_ok vs Hr) as [_ _ _ _ _ _ Hsize].
  pose proof (active_vectors_bounds vs h) as Ha.
  eexists _, _, _.
  split; [reflexivity |]. split; [reflexivity |]. split; [reflexivity |].
  unfold get_vector_count. lia.
Qed.

(** X8: insertion followed by lookup: the new record is the one handed in,
    under the row that the counter announced; the records of the other
    identifiers are as before and one vector more is counted. *)
Theorem add_vector_then_lookup (vs vs' : t) (vector_id : string)
    (embedding : ndarray) (metadata : addr) :
  add_vector vs vector_id embedding metadata = Ok vs' ->
  get_metadata vs' vector_id = Some metadata
  /\ (forall id, id <> vector_id -> get_metadata vs' id = get_metadata vs id)
  /\ get_vector_count vs' = get_vector_count vs + 1
  /\ id_to_index vs' !! vector_id = Some (next_index vs)
  /\ index_to_id vs' !! next_index vs = Some vector_id
  /\ next_index vs' = next_index vs + 1
  /\ dimension vs' = dimension vs.
Proof.
  intros Hadd. apply add_vector_inv in Hadd as [_ ->].
  unfold get_metadata, get_vector_count.
  cbn [next_index index d dimension index_to_id id_to_index metadata_store].
  rewrite !lookup_insert_eq, ntotal_snoc. repeat split.
  intros id Hne. now rewrite lookup_insert_ne by congruence.
Qed.

(** X9: inserting under an identifier that is already stored replaces its
    record but not its row: the old row stays in the index and still
    answers to the identifier, so that a search may return it twice; the
    total grows by one while the active count does not, and the
    difference shows up as a deleted vector though nothing was removed. *)
Theorem add_vector_existing_id (vs vs' : t) (h : heap) (vector_id : string)
    (embedding : ndarray) (old new : addr) :
  reachable vs ->
  get_metadata vs vector_id = Some old ->
  is_active h old = true ->
  is_active h new = true ->
  add_vector vs vector_id embedding new = Ok vs' ->
  exists row,
    id_to_index vs !! vector_id = Some row
    /\ row <> next_index vs
    /\ index_to_id vs' !! row = Some vector_id
    /\ index_to_id vs' !! next_index vs = Some vector_id
    /\ get_vector_count vs' = get_vector_count vs + 1
    /\ active_vectors vs' h = active_vectors vs h
    /\ dict_lookup "deleted_vectors" (get_statistics vs' h)
       = Some (PInt (get_vector_count vs - active_vectors vs h + 1)).
Proof.
  intros Hr Hold Hao Han Hadd.
  destruct (reachable_ok vs Hr) as [Hnext Hdim Hrows Hids Hinv Hknown Hsize].
  unfold get_metadata in Hold.
  assert (Hrow : is_Some (id_to_index vs !! vector_id)) by (apply Hids; eauto).
  destruct Hrow as [row Hrow]. exists row.
  pose proof (Hinv _ _ Hrow) as Hback.
  assert (Hne : row <> next_index vs).
  { intros ->. assert (Hs : is_Some (index_to_id vs !! next_index vs)) by eauto.
    apply Hrows in Hs. lia. }
  assert (Hact : active_vectors vs' h = active_vectors vs h).
  { apply add_vector_inv in Hadd as [_ ->].
    rewrite (active_vectors_split _ h vector_id new)
      by (cbn [metadata_store]; apply lookup_insert_eq).
    rewrite (active_vectors_split vs h vector_id old Hold).
    cbn [metadata_store]. rewrite delete_insert_eq, Hao, Han. reflexivity. }
  assert (Hcount : get_vector_count vs' = get_vector_count vs + 1).
  { apply add_vector_inv in Hadd as [_ ->]. unfold get_vector_count.
    cbn [index]. apply ntotal_snoc. }
  split; [exact Hrow |]. split; [exact Hne |].
  split.
  { apply add_vector_inv in Hadd as [_ ->]. cbn [index_to_id].
    now rewrite lookup_insert_ne by congruence. }
  split.
  { apply add_vector_inv in Hadd as [_ ->]. cbn [index_to_id].
    apply lookup_insert_eq. }
  split; [exact Hcount |]. split; [exact Hact |].
  cbn [get_statistics dict_lookup String.eqb Ascii.eqb Bool.eqb].
  unfold get_vector_count in Hcount. rewrite Hcount, Hact.
  unfold get_vector_count. do 2 f_equal. lia.
Qed.

End StoreProps.

(** ** Coordinator state: what every call keeps *)

Section WorldProps.
Context `{Externals}.

Lemma preserves_ret {A} (a : A) : preserves (ret a).
Proof. intros w Hw. exact Hw. Qed.

Lemma preserves_raise {A} (e : exn) : preserves (raise (A:=A) e).
Proof. intros w Hw. exact Hw. Qed.

Lemma preserves_lift {A} (r : result A exn) : preserves (lift r).
Proof. intros w Hw. exact Hw. Qed.

Lemma preserves_get_world : preserves get_world.
Proof. intros w Hw. exact Hw. Qed.

Lemma preserves_bind {A B} (m : M A) (f : A -> M B) :
  preserves m -> (forall a, preserves (f a)) -> preserves (bind m f).
Proof.
  intros Hm Hf w Hw. unfold bind. specialize (Hm w Hw).
  destruct (m w) as [[a|e] w1]; cbn [snd] in *.
  - now apply Hf.
  - exact Hm.
Qed.

Lemma preserves_try {A} (m : M A) (handler : exn -> M A) :
  preserves m -> (forall e, preserves (handler e)) -> preserves (try_except m handler).
Proof.
  intros Hm Hh w Hw. unfold try_except. specialize (Hm w Hw).
  destruct (m w) as [[a|e] w1]; cbn [snd] in *.
  - exact Hm.
  - now apply Hh.
Qed.

(** The invariant reads six fields of the state. *)
Lemma world_ok_frame (w w' : World) :
  message_history w' = message_history w ->
  trace_sessions w' = trace_sessions w ->
  vector_store w' = vector_store w ->
  objects w' = objects w ->
  next_addr w' = next_addr w ->
  document_chunks w' = document_chunks w ->
  world_ok w -> world_ok w'.
Proof.
  intros Hh Ht Hv Ho Hn Hd [Hr Hs Ha Hm Hu Hc].
  constructor.
  - intros t. unfold get_trace_history. rewrite Ht, Hh. apply Hr.
  - now rewrite Hv.
  - intros a. rewrite Ho, Hn. apply Ha.
  - intros id a. rewrite Hv, Hn. apply Hm.
  - intros id id' a. rewrite Hv. apply Hu.
  - intros id c. rewrite Hd, Hv. apply Hc.
Qed.

Lemma preserves_datetime_now : preserves datetime_now.
Proof. intros w Hw. now apply (world_ok_frame w). Qed.

Lemma preserves_uuid4 : preserves uuid4.
Proof. intros w Hw. now apply (world_ok_frame w). Qed.

Lemma preserves_print (line : string) : preserves (print line).
Proof. intros w Hw. now apply (world_ok_frame w). Qed.

Lemma preserves_enter (agent : string) : preserves (enter agent).
Proof. intros w Hw. now apply (world_ok_frame w). Qed.

Lemma preserves_generate_embedding (text : pyval) :
  preserves (LocalEmbeddingGenerator.generate_embedding text).
Proof.
  intros w Hw. rewrite generate_embedding_run. now apply (world_ok_frame w).
Qed.

Lemma preserves_chunk_text (text : string) (src : pyval) :
  preserves (IngestionAgent.chunk_text text src).
Proof.
  intros w Hw. unfold IngestionAgent.chunk_text.
  destruct (IngestionAgent._chunk_text _ _ _ _ _) as [r u].
  now apply (world_ok_frame w).
Qed.

Lemma preserves_set_processed_documents (f : World -> gmap string dict) :
  preserves (modify (fun w => set_processed_documents (f w) w)).
Proof. intros w Hw. now apply (world_ok_frame w). Qed.

Lemma preserves_new_message (sd rc ty tr : string) (pl : dict) (ts : option string) :
  preserves (new_message sd rc ty tr pl ts).
Proof.
  intros w Hw. destruct ts; [exact Hw |].
  now apply (world_ok_frame w).
Qed.

Lemma preserves_create_response_message (m : MCPMessage) (sd ty : string) (pl : dict) :
  preserves (create_response_message m sd ty pl).
Proof. apply preserves_new_message. Qed.

Lemma preserves_create_error_message (m : MCPMessage) (sd e : string) :
  preserves (create_error_message m sd e).
Proof. apply preserves_new_message. Qed.

Lemma filter_trace_app (t : string) (l : list MCPMessage) (m : MCPMessage) :
  filter (fun m => trace_id m = t) (l ++ [m])
  = filter (fun m => trace_id m = t) l ++ (if decide (trace_id m = t) then [m] else []).
Proof.
  rewrite filter_app. reflexivity.
Qed.

Lemma route_message_consistent (m : MCPMessage) (w : World) :
  router_consistent w -> router_consistent (route_message m w).2.
Proof.
  intros Hr t. unfold route_message, modify, get_trace_history. cbn [snd].
  cbn [trace_sessions message_history set_trace_sessions set_message_history].
  rewrite filter_trace_app.
  destruct (decide (trace_id m = t)) as [<-|Hne].
  - rewrite lookup_insert_eq. cbn [default from_option id].
    rewrite <- (Hr (trace_id m)). reflexivity.
  - rewrite lookup_insert_ne by assumption. rewrite List.app_nil_r. apply Hr.
Qed.

Lemma preserves_route_message (m : MCPMessage) : preserves (route_message m).
Proof.
  intros w [Hr Hs Ha Hm Hu Hc]. constructor; try assumption.
  now apply route_message_consistent.
Qed.

Lemma preserves_clear_history : preserves clear_history.
Proof.
  intros w [Hr Hs Ha Hm Hu Hc]. constructor; try assumption.
  intros t. unfold get_trace_history. cbn. now rewrite lookup_empty.
Qed.

Lemma preserves_clear_documents_ingestion : preserves IngestionAgent.clear_documents.
Proof. intros w Hw. now apply (world_ok_frame w). Qed.

Lemma preserves_clear_index : preserves RetrievalAgent.clear_index.
Proof.
  intros w [Hr Hs Ha Hm Hu Hc]. constructor; try assumption.
  - apply init_store_ok.
  - intros id a. cbn. rewrite lookup_empty. discriminate.
  - intros id id' a. cbn. rewrite lookup_empty. discriminate.
  - intros id c. cbn. rewrite lookup_empty. discriminate.
Qed.

Lemma dict_lookup_text_kept (c : dict) (a b e : pyval) :
  is_Some (dict_lookup "text" c) ->
  is_Some (dict_lookup "text"
             (dict_set "embedding_dims" e
                (dict_set "document_name" a (dict_set "document_id" b c)))).
Proof.
  intros Hc. rewrite !dict_lookup_set_ne by discriminate. exact Hc.
Qed.

(** Indexing one chunk keeps the invariant: the metadata dictionary is
    a new object, so it is shared with no other record. *)
Lemma preserves_index_chunk (document_id file_name metadata chunk : pyval) :
  preserves (RetrievalAgent.index_chunk document_id file_name metadata chunk).
Proof.
  intros w Hw. unfold RetrievalAgent.index_chunk.
  destruct chunk as [| | | | | |l|l|c]; try exact Hw.
  unfold dict_item.
  destruct (dict_lookup "text" c) as [text|] eqn:Htext; [| exact Hw].
  run_monad. rewrite generate_embedding_run. unfold world_after_embedding.
  destruct (embedding_lines (embedding_generator w) text) as [lines g].
  set (embedding := embedding_vector (embedding_generator w) text).
  run_monad.
  assert (Hw1 : world_ok (set_stdout (stdout w ++ lines) (set_embedding_generator g w)))
    by now apply (world_ok_frame w).
  destruct (dict_lookup "id" c) as [idv|] eqn:Hid; [| exact Hw1].
  run_monad.
  destruct (as_str "vector_id" idv) as [chunk_id|e] eqn:Hs; [| exact Hw1].
  run_monad.
  destruct metadata as [| | | | | |l|l|extra]; try exact Hw1.
  run_monad.
  set (obj := dict_update _ extra).
  destruct Hw as [Hr Hs' Ha Hm Hu Hc].
  destruct (VectorStore.add_vector (vector_store w) chunk_id embedding (next_addr w))
    as [vs|e] eqn:Hadd; run_monad.
  - constructor; world_simpl.
    + exact Hr.
    + exact (add_vector_store_ok _ _ _ _ _ Hs' Hadd).
    + intros a. destruct (Nat.eq_dec a (next_addr w)) as [->|Hne].
      * rewrite lookup_insert_eq. split; [lia | eauto].
      * rewrite lookup_insert_ne by congruence. rewrite Ha. lia.
    + apply add_vector_inv in Hadd as [_ ->]. cbn [VectorStore.metadata_store].
      intros id a. destruct (String.string_dec id chunk_id) as [->|Hne].
      * rewrite lookup_insert_eq. intros E. injection E as <-. lia.
      * rewrite lookup_insert_ne by congruence. intros E. apply Hm in E. lia.
    + apply add_vector_inv in Hadd as [_ ->]. cbn [VectorStore.metadata_store].
      intros id id' a.
      destruct (String.string_dec id chunk_id) as [->|Hne];
        destruct (String.string_dec id' chunk_id) as [->|Hne'];
        rewrite ?lookup_insert_eq, ?lookup_insert_ne by congruence.
      * reflexivity.
      * intros E E'. injection E as <-. apply Hm in E'. lia.
      * intros E E'. injection E' as <-. apply Hm in E. lia.
      * apply Hu.
    + apply add_vector_inv in Hadd as [_ ->]. cbn [VectorStore.metadata_store].
      intros id c'. destruct (String.string_dec id chunk_id) as [->|Hne].
      * rewrite !lookup_insert_eq. intros E. injection E as <-. split; [| eauto].
        apply dict_lookup_text_kept. rewrite Htext. eauto.
      * rewrite !lookup_insert_ne by congruence. apply Hc.
  - constructor; world_simpl.
    + exact Hr.
    + exact Hs'.
    + intros a. destruct (Nat.eq_dec a (next_addr w)) as [->|Hne].
      * rewrite lookup_insert_eq. split; [lia | eauto].
      * rewrite lookup_insert_ne by congruence. rewrite Ha. lia.
    + intros id a E. apply Hm in E. lia.
    + exact Hu.
    + exact Hc.
Qed.

End WorldProps.

Create HintDb pres.

#[export] Hint Resolve preserves_ret preserves_raise preserves_lift preserves_get_world
  preserves_datetime_now preserves_uuid4 preserves_print preserves_enter
  preserves_generate_embedding preserves_chunk_text preserves_set_processed_documents
  preserves_new_message preserves_create_response_message
  preserves_create_error_message preserves_route_message preserves_clear_history
  preserves_clear_documents_ingestion preserves_clear_index
  preserves_index_chunk : pres.

(** One step through the structure of a computation. *)
Ltac pres_step :=
  lazymatch goal with
  | |- preserves (bind _ _) => simple apply preserves_bind; [| intros ?]
  | |- preserves (try_except _ _) => simple apply preserves_try; [| intros ?]
  | |- preserves (if ?b then _ else _) => destruct b
  | |- preserves (match ?x with _ => _ end) => destruct x
  | |- preserves _ => solve [auto 1 with pres nocore]
  end.

Ltac pres := cbv zeta; repeat pres_step.

Section AgentsKeepInvariant.
Context `{Externals}.

Lemma preserves_parse_document (file_name file_content file_type : pyval) :
  preserves (IngestionAgent._parse_document file_name file_content file_type).
Proof. unfold IngestionAgent._parse_document. pres. Qed.

Lemma preserves_process_document (message : MCPMessage) :
  preserves (IngestionAgent._process_document message).
Proof.
  unfold IngestionAgent._process_document. pres.
  all: apply preserves_parse_document.
Qed.

Lemma preserves_ingestion (message : MCPMessage) :
  preserves (IngestionAgent.handle_message message).
Proof.
  unfold IngestionAgent.handle_message. pres.
  all: apply preserves_process_document.
Qed.

Lemma preserves_warn_failed (chunk : pyval) (e : exn) :
  preserves (RetrievalAgent.warn_failed chunk e).
Proof. unfold RetrievalAgent.warn_failed. pres. Qed.

Lemma preserves_index_loop (document_id file_name metadata : pyval)
    (chunks : list pyval) :
  forall indexed_chunks,
    preserves (RetrievalAgent.index_loop document_id file_name metadata chunks
                 indexed_chunks).
Proof.
  induction chunks as [|chunk rest IH]; intros indexed_chunks;
    cbn [RetrievalAgent.index_loop].
  - apply preserves_ret.
  - apply preserves_bind; [| intros a; apply IH].
    pres. all: apply preserves_warn_failed.
Qed.

Lemma preserves_index_document (message : MCPMessage) :
  preserves (RetrievalAgent._index_document message).
Proof.
  unfold RetrievalAgent._index_document. pres.
  all: apply preserves_index_loop.
Qed.

Lemma preserves_retrieve_context (message : MCPMessage) :
  preserves (RetrievalAgent._retrieve_context message).
Proof. unfold RetrievalAgent._retrieve_context. pres. Qed.

Lemma preserves_retrieval (message : MCPMessage) :
  preserves (RetrievalAgent.handle_message message).
Proof.
  unfold RetrievalAgent.handle_message. pres.
  all: first [apply preserves_index_document | apply preserves_retrieve_context].
Qed.

Lemma preserves_generate_response (message : MCPMessage) :
  preserves (LLMResponseAgent._generate_response message).
Proof. unfold LLMResponseAgent._generate_response. pres. Qed.

Lemma preserves_llm (message : MCPMessage) :
  preserves (LLMResponseAgent.handle_message message).
Proof.
  unfold LLMResponseAgent.handle_message. pres.
  all: apply preserves_generate_response.
Qed.

Lemma preserves_document_upload (message : MCPMessage) :
  preserves (CoordinatorAgent._handle_document_upload message).
Proof.
  unfold CoordinatorAgent._handle_document_upload. pres.
  all: first [apply preserves_ingestion | apply preserves_retrieval].
Qed.

Lemma preserves_query_request (message : MCPMessage) :
  preserves (CoordinatorAgent._handle_query_request message).
Proof.
  unfold CoordinatorAgent._handle_query_request. pres.
  all: first [apply preserves_retrieval | apply preserves_llm].
Qed.

Lemma preserves_coordinator (message : MCPMessage) :
  preserves (CoordinatorAgent.handle_message message).
Proof.
  unfold CoordinatorAgent.handle_message. pres.
  all: first [apply preserves_document_upload | apply preserves_query_request].
Qed.

Lemma preserves_clear_documents : preserves CoordinatorAgent.clear_documents.
Proof. unfold CoordinatorAgent.clear_documents. pres. Qed.

Lemma initial_world_ok : world_ok initial_world.
Proof.
  constructor; cbn.
  - intros t. unfold get_trace_history. cbn. now rewrite lookup_empty.
  - apply init_store_ok.
  - intros a. rewrite lookup_empty. split; [intros [x Hx]; discriminate | lia].
  - intros id a. rewrite lookup_empty. discriminate.
  - intros id id' a. rewrite lookup_empty. discriminate.
  - intros id c. rewrite lookup_empty. discriminate.
Qed.

Lemma reachable_world_ok (w : World) : reachable_world w -> world_ok w.
Proof.
  induction 1 as [| w message _ IH | w _ IH].
  - apply initial_world_ok.
  - now apply preserves_coordinator.
  - now apply preserves_clear_documents.
Qed.

End AgentsKeepInvariant.

Section ReachableWorlds.
Context `{Externals}.

(** X12: in every state of a coordinator the session of a trace is exactly
    the list of the routed messages that carry the trace, in the order of
    the history. *)
Theorem trace_sessions_partition_history (w : World) (t : string) :
  reachable_world w ->
  CoordinatorAgent.get_trace_history w t
  = filter (fun m => trace_id m = t) (CoordinatorAgent.get_message_history w).
Proof.
  intros Hr. destruct (reachable_world_ok w Hr) as [Hrouter _ _ _ _ _].
  apply Hrouter.
Qed.

(** X13: the metadata records that the pipeline itself inserts are never
    shared: in every state of a coordinator the record of an identifier
    is an allocated dictionary that no other identifier refers to. *)
Theorem metadata_objects_never_shared (w : World) (id : string)
    (a : VectorStore.addr) :
  reachable_world w ->
  VectorStore.get_metadata (vector_store w) id = Some a ->
  is_Some (objects w !! a)
  /\ (forall id', VectorStore.get_metadata (vector_store w) id' = Some a -> id' = id).
Proof.
  intros Hr Hid. destruct (reachable_world_ok w Hr) as [_ _ Ha Hm Hu _].
  unfold VectorStore.get_metadata in *. split.
  - apply Ha. now apply (Hm id).
  - intros id' Hid'. now apply (Hu id' id a).
Qed.

(** X14: every chunk the Retrieval Agent remembers has a text and a record
    in the vector store, and the store counts at least as many vectors
    as chunks are remembered. *)
Theorem indexed_chunks_are_stored (w : World) :
  reachable_world w ->
  (forall id c, document_chunks w !! id = Some c ->
     is_Some (dict_lookup "text" c)
     /\ is_Some (VectorStore.get_metadata (vector_store w) id))
  /\ RetrievalAgent.get_indexed_count w
     <= VectorStore.get_vector_count (vector_store w).
Proof.
  intros Hr. destruct (reachable_world_ok w Hr) as [_ Hs _ _ _ Hc].
  split; [exact Hc |].
  destruct Hs as [_ _ _ _ _ _ Hsize].
  unfold RetrievalAgent.get_indexed_count, VectorStore.get_vector_count.
  assert (Hsub : dom (document_chunks w)
                 ⊆ dom (VectorStore.metadata_store (vector_store w))).
  { intros id. rewrite !elem_of_dom. intros [c Hid]. now apply (Hc id c). }
  apply subseteq_size in Hsub. rewrite !size_dom in Hsub. lia.
Qed.

Lemma existsb_eqb_false (x : string) (l : list string) :
  existsb (String.eqb x) l = false -> x ∉ l.
Proof.
  induction l as [|y l IH]; cbn [existsb].
  - intros _. apply not_elem_of_nil.
  - intros E. apply orb_false_iff in E as [Exy El].
    apply not_elem_of_cons. split; [| now apply IH].
    intros ->. now rewrite String.eqb_refl in Exy.
Qed.

Lemma format_results_acc (dc : gmap string dict) (hits : list (string * Z)) :
  (forall id c, dc !! id = Some c -> is_Some (dict_lookup "text" c)) ->
  forall retrieved sources,
    NoDup sources ->
    (length sources <= length retrieved)%nat ->
    exists retrieved' sources',
      RetrievalAgent.format_results dc hits retrieved sources
      = Ok (retrieved', sources')
      /\ NoDup sources'
      /\ (length sources' <= length retrieved')%nat
      /\ (length retrieved' <= length retrieved + length hits)%nat.
Proof.
  intros Htext. induction hits as [|[chunk_id score] hits IH];
    intros retrieved sources Hnd Hlen; cbn [RetrievalAgent.format_results].
  - exists retrieved, sources. repeat split; [assumption | assumption | cbn; lia].
  - destruct (dc !! chunk_id) as [chunk_data|] eqn:Hid.
    + destruct (Htext _ _ Hid) as [text Ht]. unfold dict_item. rewrite Ht.
      match goal with
      | |- context [RetrievalAgent.format_results dc hits ?r ?s] =>
          destruct (IH r s) as (r' & s' & E & Hnd' & Hlen' & Hbound)
      end.
      * destruct (existsb _ sources) eqn:Ex; [assumption |].
        apply NoDup_app. split; [assumption |]. split.
        -- intros x Hx Hx'. apply list_elem_of_singleton in Hx'. subst x.
           now apply existsb_eqb_false in Ex.
        -- apply NoDup_singleton.
      * rewrite length_app. cbn [length].
        destruct (existsb _ sources); [lia | rewrite length_app; cbn [length]; lia].
      * exists r', s'. split; [exact E |]. split; [exact Hnd' |].
        split; [exact Hlen' |]. rewrite length_app in Hbound. cbn [length] in *. lia.
    + destruct (IH retrieved sources Hnd Hlen) as (r' & s' & E & Hnd' & Hlen' & Hbound).
      exists r', s'. repeat split; try assumption. cbn [length]. lia.
Qed.

(** X15: formatting the results of a search never fails in a state of a
    coordinator, whatever the index returned: the chunks it remembers
    all have a text. The sources it lists hold no duplicate, and there
    are at most as many of them as chunks, and at most as many chunks as
    hits. *)
Theorem retrieval_formatting_never_fails (w : World) (hits : list (string * Z)) :
  reachable_world w ->
  exists retrieved sources,
    RetrievalAgent.format_results (document_chunks w) hits [] []
    = Ok (retrieved, sources)
    /\ NoDup sources
    /\ (length sources <= length retrieved <= length hits)%nat.
Proof.
  intros Hr. destruct (reachable_world_ok w Hr) as [_ _ _ _ _ Hc].
  destruct (format_results_acc (document_chunks w) hits
              (fun id c Hid => proj1 (Hc id c Hid)) [] [] NoDup_nil_2
              (Nat.le_refl _))
    as (r & s & E & Hnd & Hlen & Hbound).
  exists r, s. cbn [length] in Hbound. repeat split; try assumption.
Qed.

End ReachableWorlds.

(** ** Agents: every message is answered *)

Section RepliesProps.
Context `{Externals}.

Lemma replies_bind {A} (agent : string) (types : list string) (message : MCPMessage)
    (m : M A) (f : A -> M MCPMessage) :
  (forall a, replies agent types message (f a)) ->
  replies agent types message (bind m f).
Proof.
  intros Hf w. unfold bind. destruct (m w) as [[a|e] w1]; [apply Hf | exact I].
Qed.

Lemma replies_try (agent : string) (types : list string) (message : MCPMessage)
    (m : M MCPMessage) (handler : exn -> M MCPMessage) :
  replies agent types message m ->
  (forall e, replies agent types message (handler e)) ->
  replies agent types message (try_except m handler).
Proof.
  intros Hm Hh w. unfold try_except. specialize (Hm w).
  destruct (m w) as [[a|e] w1]; [exact Hm | apply Hh].
Qed.

Lemma replies_create_response_message (agent : string) (types : list string)
    (message : MCPMessage) (ty : string) (pl : dict) :
  In ty types ->
  replies agent types message (create_response_message message agent ty pl).
Proof. intros Hty w. cbn. repeat split; eauto. Qed.

Lemma replies_create_error_message (agent : string) (types : list string)
    (message : MCPMessage) (e : string) :
  In ERROR types ->
  replies agent types message (create_error_message message agent e).
Proof. intros Hty w. cbn. repeat split; eauto. Qed.

Lemma replies_returns (agent : string) (types : list string) (message : MCPMessage)
    (body : M MCPMessage) (text : exn -> string) (w : World) :
  In ERROR types ->
  replies agent types message body ->
  exists out w',
    try_except body (fun e => create_error_message message agent (text e)) w
    = (Ok out, w')
    /\ is_reply_to agent types message out.
Proof.
  intros Hty Hb.
  pose proof (replies_try agent types message body
                (fun e => create_error_message message agent (text e)) Hb
                (fun e => replies_create_error_message agent types message (text e) Hty)
                w) as Hr.
  destruct (try_except_error_message_ok body message agent text w) as (out & w' & E).
  rewrite E in Hr. exists out, w'. split; [exact E | exact Hr].
Qed.

End RepliesProps.

Ltac replies_step :=
  lazymatch goal with
  | |- replies _ _ _ (bind _ _) => simple apply replies_bind; intros ?
  | |- replies _ _ _ (try_except _ _) => simple apply replies_try; [| intros ?]
  | |- replies _ _ _ (if ?b then _ else _) => destruct b
  | |- replies _ _ _ (match ?x with _ => _ end) => destruct x
  | |- replies _ _ _ (create_response_message _ _ _ _) =>
      simple apply replies_create_response_message; cbn; tauto
  | |- replies _ _ _ (create_error_message _ _ _) =>
      simple apply replies_create_error_message; cbn; tauto
  end.

Ltac replies_auto := cbv zeta; repeat replies_step.

Section AgentsReply.
Context `{Externals}.

Lemma replies_process_document (message : MCPMessage) :
  replies IngestionAgent.name [DOCUMENT_PARSED; ERROR] message
    (IngestionAgent._process_document message).
Proof. unfold IngestionAgent._process_document. replies_auto. Qed.

Lemma replies_index_document (message : MCPMessage) :
  replies RetrievalAgent.name [INGESTION_COMPLETE; RETRIEVAL_RESULT; ERROR] message
    (RetrievalAgent._index_document message).
Proof. unfold RetrievalAgent._index_document. replies_auto. Qed.

Lemma replies_retrieve_context (message : MCPMessage) :
  replies RetrievalAgent.name [INGESTION_COMPLETE; RETRIEVAL_RESULT; ERROR] message
    (RetrievalAgent._retrieve_context message).
Proof. unfold RetrievalAgent._retrieve_context. replies_auto. Qed.

Lemma replies_generate_response (message : MCPMessage) :
  replies LLMResponseAgent.name [LLM_RESPONSE; ERROR] message
    (LLMResponseAgent._generate_response message).
Proof. unfold LLMResponseAgent._generate_response. replies_auto. Qed.

Lemma replies_document_upload (message : MCPMessage) :
  replies CoordinatorAgent.name [SUCCESS; ERROR] message
    (CoordinatorAgent._handle_document_upload message).
Proof. unfold CoordinatorAgent._handle_document_upload. replies_auto. Qed.

Lemma replies_query_request (message : MCPMessage) :
  replies CoordinatorAgent.name [SUCCESS; ERROR] message
    (CoordinatorAgent._handle_query_request message).
Proof. unfold CoordinatorAgent._handle_query_request. replies_auto. Qed.

Lemma ingestion_replies (message : MCPMessage) (w : World) :
  exists out w',
    IngestionAgent.handle_message message w = (Ok out, w')
    /\ is_reply_to IngestionAgent.name [DOCUMENT_PARSED; ERROR] message out.
Proof.
  unfold IngestionAgent.handle_message. unfold bind at 1. unfold enter, modify.
  apply (replies_returns IngestionAgent.name _ message _
           (fun e => "Error processing message: " +:+ e)); [cbn; tauto |].
  replies_auto. apply replies_process_document.
Qed.

Lemma retrieval_replies (message : MCPMessage) (w : World) :
  exists out w',
    RetrievalAgent.handle_message message w = (Ok out, w')
    /\ is_reply_to RetrievalAgent.name
         [INGESTION_COMPLETE; RETRIEVAL_RESULT; ERROR] message out.
Proof.
  unfold RetrievalAgent.handle_message. unfold bind at 1. unfold enter, modify.
  apply (replies_returns RetrievalAgent.name _ message _
           (fun e => "Error processing message: " +:+ e)); [cbn; tauto |].
  replies_auto; [apply replies_index_document | apply replies_retrieve_context].
Qed.

Lemma llm_replies (message : MCPMessage) (w : World) :
  exists out w',
    LLMResponseAgent.handle_message message w = (Ok out, w')
    /\ is_reply_to LLMResponseAgent.name [LLM_RESPONSE; ERROR] message out.
Proof.
  unfold LLMResponseAgent.handle_message. unfold bind at 1. unfold enter, modify.
  apply (replies_returns LLMResponseAgent.name _ message _
           (fun e => "Error processing message: " +:+ e)); [cbn; tauto |].
  replies_auto. apply replies_generate_response.
Qed.

(** X16: each of the three worker agents answers every message: its entry
    point returns normally, whatever the message and the state, with a
    stamped message from the agent to the sender of the request under
    the trace of the request; the answer is of type ERROR or of the
    result types of the agent. *)
Theorem worker_agents_always_reply (message : MCPMessage) (w : World) :
  (exists out w',
     IngestionAgent.handle_message message w = (Ok out, w')
     /\ is_reply_to IngestionAgent.name [DOCUMENT_PARSED; ERROR] message out)
  /\ (exists out w',
        RetrievalAgent.handle_message message w = (Ok out, w')
        /\ is_reply_to RetrievalAgent.name
             [INGESTION_COMPLETE; RETRIEVAL_RESULT; ERROR] message out)
  /\ (exists out w',
        LLMResponseAgent.handle_message message w = (Ok out, w')
        /\ is_reply_to LLMResponseAgent.name [LLM_RESPONSE; ERROR] message out).
Proof.
  split; [apply ingestion_replies |].
  split; [apply retrieval_replies | apply llm_replies].
Qed.

(** X17: the coordinator answers every message: its entry point returns
    normally, whatever the message and the state, with a stamped message
    of type SUCCESS or ERROR from the coordinator to the sender of the
    request under the trace of the request. *)
Theorem coordinator_always_replies (message : MCPMessage) (w : World) :
  exists out w',
    CoordinatorAgent.handle_message message w = (Ok out, w')
    /\ is_reply_to CoordinatorAgent.name [SUCCESS; ERROR] message out.
Proof.
  unfold CoordinatorAgent.handle_message. unfold bind at 1. unfold enter, modify.
  apply (replies_returns CoordinatorAgent.name _ message _
           (fun e => "Coordination error: " +:+ e)); [cbn; tauto |].
  replies_auto; [apply replies_document_upload | apply replies_query_request].
Qed.

End AgentsReply.

(** ** Coordinator: upload workflow *)

Section WorkflowProps.
Context `{Externals}.

(** X18: a message that is neither an upload nor a query is recorded by the
    router and refused: the coordinator answers with an ERROR message
    that names the type, and enters no other agent. *)
Theorem coordinator_rejects_other_types (message : MCPMessage) (w : World) :
  type message <> DOCUMENT_UPLOAD ->
  type message <> QUERY_REQUEST ->
  CoordinatorAgent.handle_message message w =
  (Ok (coordinator_result message ERROR
         [ ("error", PStr ("Unsupported message type: " +:+ type message));
           ("original_type", PStr (type message)) ]
         (clock w)),
   set_clock (S (clock w)) (world_at_dispatch message w))
  /\ invoked (world_at_dispatch message w) = invoked w ++ [CoordinatorAgent.name]
  /\ message_history (world_at_dispatch message w) = message_history w ++ [message].
Proof.
  intros Hu Hq. split; [| split; reflexivity].
  unfold CoordinatorAgent.handle_message.
  apply String.eqb_neq in Hu, Hq. rewrite Hu, Hq. reflexivity.
Qed.

(** The run of the upload workflow, given the answers of the two agents
    it calls. *)
Lemma handle_document_upload_run (message parsed indexed : MCPMessage)
    (w w1 w2 : World) :
  type message = DOCUMENT_UPLOAD ->
  IngestionAgent.handle_message message (world_at_dispatch message w)
    = (Ok parsed, w1) ->
  RetrievalAgent.handle_message parsed (routed parsed w1) = (Ok indexed, w2) ->
  CoordinatorAgent.handle_message message w =
  if String.eqb (type parsed) ERROR then
    (Ok (coordinator_result message ERROR
           (stage_failure "Ingestion failed: " parsed) (clock w1)),
     set_clock (S (clock w1)) (routed parsed w1))
  else if String.eqb (type indexed) ERROR then
    (Ok (coordinator_result message ERROR
           (stage_failure "Indexing failed: " indexed) (clock w2)),
     set_clock (S (clock w2)) (routed indexed w2))
  else
    (Ok (coordinator_result message SUCCESS
           [ ("status", PStr "success");
             ("document_id", dict_get "document_id" PNone (payload parsed));
             ("file_name", dict_get "file_name" PNone (payload parsed));
             ("indexed_chunks", dict_get "indexed_chunks" PNone (payload indexed));
             ("workflow", PStr "document_upload_complete") ]
           (clock w2)),
     set_clock (S (clock w2)) (routed indexed w2)).
Proof.
  intros Hty Hing Hret.
  unfold CoordinatorAgent.handle_message, CoordinatorAgent._handle_document_upload.
  rewrite Hty.
  change (String.eqb DOCUMENT_UPLOAD DOCUMENT_UPLOAD) with true.
  cbv beta iota zeta delta
    [bind ret modify enter try_except route_message new_message datetime_now
     create_response_message].
  change (IngestionAgent.handle_message _ _)
    with (IngestionAgent.handle_message message (world_at_dispatch message w)).
  rewrite Hing. cbv beta iota zeta.
  destruct (String.eqb (type parsed) ERROR); [reflexivity |].
  change (RetrievalAgent.handle_message _ _)
    with (RetrievalAgent.handle_message parsed (routed parsed w1)).
  rewrite Hret. cbv beta iota zeta.
  destruct (String.eqb (type indexed) ERROR); reflexivity.
Qed.

(** When the Ingestion Agent answers ERROR the Retrieval Agent is not
    called at all. *)
Lemma handle_document_upload_ingestion_error (message parsed : MCPMessage)
    (w w1 : World) :
  type message = DOCUMENT_UPLOAD ->
  IngestionAgent.handle_message message (world_at_dispatch message w)
    = (Ok parsed, w1) ->
  type parsed = ERROR ->
  CoordinatorAgent.handle_message message w =
  (Ok (coordinator_result message ERROR
         (stage_failure "Ingestion failed: " parsed) (clock w1)),
   set_clock (S (clock w1)) (routed parsed w1)).
Proof.
  intros Hty Hing Herr.
  unfold CoordinatorAgent.handle_message, CoordinatorAgent._handle_document_upload.
  rewrite Hty.
  change (String.eqb DOCUMENT_UPLOAD DOCUMENT_UPLOAD) with true.
  cbv beta iota zeta delta
    [bind ret modify enter try_except route_message new_message datetime_now
     create_response_message].
  change (IngestionAgent.handle_message _ _)
    with (IngestionAgent.handle_message message (world_at_dispatch message w)).
  rewrite Hing. cbv beta iota zeta. rewrite Herr.
  change (String.eqb ERROR ERROR) with true. reflexivity.
Qed.

(** X19: the upload workflow in terms of the answers of the two agents it
    calls. The Ingestion Agent is given the upload; if it answers ERROR
    the result is an ingestion failure and the Retrieval Agent is not
    entered. Otherwise the Retrieval Agent is given the answer of the
    Ingestion Agent; if it answers ERROR the result is an indexing
    failure, and otherwise a SUCCESS that carries the document of the
    first answer and the number of indexed chunks of the second. Each
    answer is routed, and nothing done by an agent is undone on failure. *)
Theorem upload_workflow_outcome (message parsed : MCPMessage) (w w1 : World) :
  type message = DOCUMENT_UPLOAD ->
  IngestionAgent.handle_message message (world_at_dispatch message w)
    = (Ok parsed, w1) ->
  (type parsed = ERROR ->
     CoordinatorAgent.handle_message message w =
     (Ok (coordinator_result message ERROR
            (stage_failure "Ingestion failed: " parsed) (clock w1)),
      set_clock (S (clock w1)) (routed parsed w1))
     /\ invoked (routed parsed w1) = invoked w1)
  /\ (type parsed <> ERROR ->
      exists indexed w2,
        RetrievalAgent.handle_message parsed (routed parsed w1) = (Ok indexed, w2)
        /\ CoordinatorAgent.handle_message message w =
           (Ok (coordinator_result message
                  (if String.eqb (type indexed) ERROR then ERROR else SUCCESS)
                  (if String.eqb (type indexed) ERROR
                   then stage_failure "Indexing failed: " indexed
                   else
                     [ ("status", PStr "success");
                       ("document_id", dict_get "document_id" PNone (payload parsed));
                       ("file_name", dict_get "file_name" PNone (payload parsed));
                       ("indexed_chunks",
                         dict_get "indexed_chunks" PNone (payload indexed));
                       ("workflow", PStr "document_upload_complete") ])
                  (clock w2)),
            set_clock (S (clock w2)) (routed indexed w2))).
Proof.
  intros Hty Hing. split.
  - intros Herr. split; [| reflexivity].
    now apply handle_document_upload_ingestion_error.
  - intros Hok.
    destruct (retrieval_replies parsed (routed parsed w1))
      as (indexed & w2 & Hret & _).
    exists indexed, w2. split; [exact Hret |].
    rewrite (handle_document_upload_run message parsed indexed w w1 w2 Hty Hing Hret).
    apply String.eqb_neq in Hok. rewrite Hok.
    destruct (String.eqb (type indexed) ERROR); reflexivity.
Qed.

End WorkflowProps.

Section UploadFailures.
Context `{Externals}.

(** The Ingestion Agent on a file whose extension names no parser. *)
Lemma ingestion_unsupported_extension (message : MCPMessage) (w : World)
    (fname : string) (e : exn) :
  type message = DOCUMENT_UPLOAD ->
  dict_get "file_name" PNone (payload message) = PStr fname ->
  truthy (PStr fname) && truthy (dict_get "file_content" PNone (payload message)) = true ->
  IngestionAgent.infer_parser_type fname = Error e ->
  IngestionAgent.handle_message message w =
  (Ok {| sender := IngestionAgent.name; receiver := sender message;
         type := ERROR; trace_id := trace_id message;
         payload :=
           [ ("error", PStr ("Document processing failed: "
                             +:+ ("Failed to parse document " +:+ fname +:+ ": " +:+ e)));
             ("original_type", PStr (type message)) ];
         timestamp := Some (now_isoformat (clock w)) |},
   set_clock (S (clock w)) (set_invoked (invoked w ++ [IngestionAgent.name]) w)).
Proof.
  intros Hty Hname Hv Hinfer.
  unfold IngestionAgent.handle_message, IngestionAgent._process_document.
  rewrite Hty. change (String.eqb DOCUMENT_UPLOAD DOCUMENT_UPLOAD) with true.
  cbv zeta. rewrite Hname, Hv. cbn [negb].
  unfold IngestionAgent._parse_document. run_monad.
  rewrite Hinfer. run_monad. cbn [py_str]. rewrite Hty. reflexivity.
Qed.

(** X20: an upload whose file name has none of the extensions pdf, pptx,
    docx, csv, txt, md fails at ingestion with a message that names the
    file; no identifier is drawn, no document is recorded, the index is
    unchanged and the Retrieval Agent is not entered. *)
Theorem upload_unsupported_extension (message : MCPMessage) (w : World)
    (fname : string) (e : exn) :
  type message = DOCUMENT_UPLOAD ->
  dict_get "file_name" PNone (payload message) = PStr fname ->
  truthy (PStr fname) && truthy (dict_get "file_content" PNone (payload message)) = true ->
  IngestionAgent.infer_parser_type fname = Error e ->
  exists out w',
    CoordinatorAgent.handle_message message w = (Ok out, w')
    /\ type out = ERROR
    /\ payload out =
       [ ("status", PStr "failed");
         ("error", PStr ("Ingestion failed: Document processing failed: "
                         +:+ ("Failed to parse document " +:+ fname
                              +:+ ": Unsupported file type: " +:+ fname))) ]
    /\ invoked w' = invoked w ++ [CoordinatorAgent.name; IngestionAgent.name]
    /\ processed_documents w' = processed_documents w
    /\ document_chunks w' = document_chunks w
    /\ vector_store w' = vector_store w
    /\ uuids w' = uuids w.
Proof.
  intros Hty Hname Hv Hinfer.
  assert (He : e = "Unsupported file type: " +:+ fname).
  { unfold IngestionAgent.infer_parser_type in Hinfer.
    repeat match type of Hinfer with
           | (if ?b then _ else _) = _ => destruct b; [discriminate Hinfer |]
           end.
    congruence. }
  pose proof (ingestion_unsupported_extension message (world_at_dispatch message w)
                fname e Hty Hname Hv Hinfer) as Hing.
  eexists _, _. split.
  { apply (handle_document_upload_ingestion_error message _ w _ Hty Hing).
    reflexivity. }
  split; [reflexivity |]. split.
  { unfold stage_failure. cbn [payload dict_get dict_lookup String.eqb Ascii.eqb
                                 Bool.eqb py_str coordinator_result].
    rewrite He. reflexivity. }
  cbn. rewrite <- List.app_assoc. repeat split.
Qed.

(** The Ingestion Agent on a document whose text is blank. *)
Lemma ingestion_blank_document (message : MCPMessage) (w : World)
    (fname parser_type text : string) (parsed_data extra : dict) :
  type message = DOCUMENT_UPLOAD ->
  dict_get "file_name" PNone (payload message) = PStr fname ->
  truthy (PStr fname) && truthy (dict_get "file_content" PNone (payload message)) = true ->
  IngestionAgent.infer_parser_type fname = Ok parser_type ->
  document_parse (dict_get "file_content" PNone (payload message)) parser_type
    = Ok parsed_data ->
  dict_lookup "text" parsed_data = Some (PStr text) ->
  all_space text = true ->
  dict_get "metadata" (PDict []) parsed_data = PDict extra ->
  let metadata :=
    dict_update
      [ ("file_name", PStr fname);
        ("file_type", dict_get "file_type" PNone (payload message));
        ("parser_type", PStr parser_type);
        ("page_count", dict_get "page_count" (PInt 1) parsed_data);
        ("word_count", PInt 0) ] extra in
  IngestionAgent.handle_message message w =
  (Ok {| sender := IngestionAgent.name; receiver := sender message;
         type := DOCUMENT_PARSED; trace_id := trace_id message;
         payload :=
           [ ("status", PStr "success");
             ("document_id", PStr (uuid4_str (uuids w)));
             ("file_name", PStr fname);
             ("chunks", PList []);
             ("metadata", PDict metadata);
             ("total_chunks", PInt 0) ];
         timestamp := Some (now_isoformat (clock w)) |},
   set_clock (S (clock w))
     (set_processed_documents
        (<[uuid4_str (uuids w) :=
             [ ("id", PStr (uuid4_str (uuids w)));
               ("name", PStr fname);
               ("type", dict_get "file_type" PNone (payload message));
               ("content", PStr text);
               ("chunks", PList []);
               ("metadata", PDict metadata) ]]> (processed_documents w))
        (set_uuids (S (uuids w))
           (set_invoked (invoked w ++ [IngestionAgent.name]) w)))).
Proof.
  intros Hty Hname Hv Hinfer Hparse Htext Hsp Hextra metadata.
  assert (Hsplit : split text = []) by now apply split_nil_iff.
  unfold IngestionAgent.handle_message, IngestionAgent._process_document.
  rewrite Hty. change (String.eqb DOCUMENT_UPLOAD DOCUMENT_UPLOAD) with true.
  cbv zeta. rewrite Hname, Hv. cbn [negb].
  unfold IngestionAgent._parse_document, IngestionAgent.chunk_text,
    IngestionAgent._chunk_text, dict_item.
  run_monad. rewrite Hinfer. run_monad. rewrite Hparse. run_monad.
  rewrite Htext. run_monad. rewrite strip_eqb, Hsp. run_monad.
  rewrite Hextra. run_monad. rewrite Hsplit, ?Hty. reflexivity.
Qed.

(** The Retrieval Agent on an announcement without chunks. *)
Lemma retrieval_rejects_no_chunks (message : MCPMessage) (w : World) :
  type message = DOCUMENT_PARSED ->
  truthy (dict_get "chunks" (PList []) (payload message)) = false ->
  RetrievalAgent.handle_message message w =
  (Ok {| sender := RetrievalAgent.name; receiver := sender message;
         type := ERROR; trace_id := trace_id message;
         payload := [ ("error", PStr "No chunks provided for indexing");
                      ("original_type", PStr (type message)) ];
         timestamp := Some (now_isoformat (clock w)) |},
   set_clock (S (clock w)) (set_invoked (invoked w ++ [RetrievalAgent.name]) w)).
Proof.
  intros Hty Hc.
  unfold RetrievalAgent.handle_message, RetrievalAgent._index_document.
  rewrite Hty. change (String.eqb DOCUMENT_PARSED DOCUMENT_PARSED) with true.
  cbv zeta. rewrite Hc. cbn [negb]. run_monad. rewrite Hty. reflexivity.
Qed.

(** X21: a document whose parser delivers a blank text is recorded by the
    Ingestion Agent with no chunk, then refused by the Retrieval Agent:
    the upload fails at indexing, yet the document stays among the
    processed documents, under the identifier that was drawn for it, and
    the index is untouched. *)
Theorem upload_blank_document (message : MCPMessage) (w : World)
    (fname parser_type text : string) (parsed_data extra : dict) :
  type message = DOCUMENT_UPLOAD ->
  dict_get "file_name" PNone (payload message) = PStr fname ->
  truthy (PStr fname) && truthy (dict_get "file_content" PNone (payload message)) = true ->
  IngestionAgent.infer_parser_type fname = Ok parser_type ->
  document_parse (dict_get "file_content" PNone (payload message)) parser_type
    = Ok parsed_data ->
  dict_lookup "text" parsed_data = Some (PStr text) ->
  all_space text = true ->
  dict_get "metadata" (PDict []) parsed_data = PDict extra ->
  exists out w' doc,
    CoordinatorAgent.handle_message message w = (Ok out, w')
    /\ type out = ERROR
    /\ payload out =
       [ ("status", PStr "failed");
         ("error", PStr "Indexing failed: No chunks provided for indexing") ]
    /\ IngestionAgent.get_document w' (uuid4_str (uuids w)) = Some doc
    /\ dict_lookup "name" doc = Some (PStr fname)
    /\ dict_lookup "content" doc = Some (PStr text)
    /\ dict_lookup "chunks" doc = Some (PList [])
    /\ uuids w' = S (uuids w)
    /\ vector_store w' = vector_store w
    /\ document_chunks w' = document_chunks w
    /\ invoked w' = invoked w
         ++ [CoordinatorAgent.name; IngestionAgent.name; RetrievalAgent.name].
Proof.
  intros Hty Hname Hv Hinfer Hparse Htext Hsp Hextra.
  pose proof (ingestion_blank_document message (world_at_dispatch message w)
                fname parser_type text parsed_data extra
                Hty Hname Hv Hinfer Hparse Htext Hsp Hextra) as Hing.
  cbv zeta in Hing.
  match type of Hing with
  | _ = (Ok ?p, ?w1) =>
      pose proof (retrieval_rejects_no_chunks p (routed p w1) eq_refl eq_refl) as Hret;
      pose proof (handle_document_upload_run message p _ w w1 _ Hty Hing Hret) as Hrun
  end.
  cbn [type] in Hrun.
  change (String.eqb DOCUMENT_PARSED ERROR) with false in Hrun.
  change (String.eqb ERROR ERROR) with true in Hrun.
  cbv iota in Hrun.
  eexists _, _, _. split; [exact Hrun |].
  split; [reflexivity |]. split; [reflexivity |].
  split.
  { unfold IngestionAgent.get_document. cbn. apply lookup_insert_eq. }
  cbn. rewrite <- !List.app_assoc. repeat split.
Qed.

End UploadFailures.

(** ** Extensions, message construction, router, status *)

(** X5: the parser is chosen by the extension of the file name, whatever
    the case of its letters: a name that ends, once put in lower case,
    with one of the six known extensions gets the parser of that
    extension, whatever comes before. *)
Theorem parser_follows_extension (stem ext parser_type : string) :
  In (lower ext, parser_type) parser_of_extension ->
  IngestionAgent.infer_parser_type (stem +:+ ext) = Ok parser_type.
Proof. apply infer_parser_type_extension. Qed.

Section MessageErrors.
Context `{Externals}.

(** X10: a dictionary that holds a key which names no field, or lacks one of
    the five fields without default, is refused by the constructor: the
    call raises and the clock is not read. *)
Theorem from_dict_rejects_malformed (data : dict) (w : World) (k : string) :
  (is_Some (dict_lookup k data) /\ ~ In k fields)
  \/ (In k ["sender"; "receiver"; "type"; "trace_id"; "payload"]
      /\ dict_lookup k data = None) ->
  exists e, from_dict data w = (Error e, w).
Proof.
  intros Hbad. unfold from_dict.
  destruct (find _ data) as [[k' v']|] eqn:Hfind; [eexists; reflexivity |].
  destruct Hbad as [[[v Hk] Hnf]|[Hreq Hmiss]].
  - exfalso.
    assert (Hin : exists v0, In (k, v0) data).
    { clear Hfind. induction data as [|[k0 v0] data IH]; [discriminate Hk |].
      cbn [dict_lookup] in Hk. destruct (String.eqb_spec k k0) as [->|Hne].
      - exists v0. now left.
      - destruct (IH Hk) as [v1 Hv1]. exists v1. now right. }
    destruct Hin as [v0 Hin].
    pose proof (find_none _ _ Hfind _ Hin) as Hf. cbn [fst] in Hf.
    apply negb_false_iff in Hf. apply existsb_exists in Hf as (f & Hf & Ef).
    apply String.eqb_eq in Ef. subst f. contradiction.
  - unfold bind, ret, raise.
    cbn [In] in Hreq.
    destruct (dict_lookup "sender" data) eqn:E1; [| eexists; reflexivity].
    destruct (dict_lookup "receiver" data) eqn:E2; [| eexists; reflexivity].
    destruct (dict_lookup "type" data) eqn:E3; [| eexists; reflexivity].
    destruct (dict_lookup "trace_id" data) eqn:E4; [| eexists; reflexivity].
    destruct (dict_lookup "payload" data) eqn:E5; [| eexists; reflexivity].
    exfalso. destruct Hreq as [<-|[<-|[<-|[<-|[<-|[]]]]]]; congruence.
Qed.

(** X11: [get_recent_messages(limit)] returns the last [limit] messages of
    the history, all of them when fewer were routed, for a positive
    [limit]. For [limit = 0] it returns the whole history, not the empty
    list, and for a negative [limit] the history without its first
    [-limit] messages. *)
Theorem get_recent_messages_suffix (w : World) (limit : Z) :
  get_recent_messages w limit =
  if 0 <? limit
  then skipn (length (message_history w) - Z.to_nat limit) (message_history w)
  else skipn (Z.to_nat (- limit)) (message_history w).
Proof.
  unfold get_recent_messages, slice, clamp, len.
  set (l := message_history w).
  destruct (Z.ltb_spec (Z.of_nat (length l)) 0) as [|_]; [lia |].
  rewrite Z.min_id.
  destruct (Z.ltb_spec 0 limit) as [Hpos|Hneg].
  - destruct (Z.ltb_spec (- limit) 0) as [_|]; [| lia].
    replace (Z.to_nat (Z.max (- limit + Z.of_nat (length l)) 0))
      with (length l - Z.to_nat limit)%nat by lia.
    apply firstn_all2. rewrite length_skipn. lia.
  - destruct (Z.ltb_spec (- limit) 0) as [|_]; [lia |].
    destruct (Z.le_gt_cases (- limit) (Z.of_nat (length l))) as [Hle|Hgt].
    + rewrite Z.min_l by assumption.
      apply firstn_all2. rewrite length_skipn. lia.
    + rewrite Z.min_r by lia. rewrite Nat2Z.id.
      rewrite !skipn_all2 by lia. apply firstn_nil.
Qed.

(** X24: [clear_documents] of the coordinator empties the documents, the
    chunks, the index and the router, so that the status reports zero
    everywhere; it keeps the dimension of the index, the state of the
    embedding generator and the metadata objects. *)
Theorem clear_documents_resets (w : World) :
  let w' := (CoordinatorAgent.clear_documents w).2 in
  (CoordinatorAgent.clear_documents w).1 = Ok tt
  /\ CoordinatorAgent.get_system_status w' =
     [ ("coordinator", PStr "active");
       ("processed_documents", PInt 0);
       ("indexed_chunks", PInt 0);
       ("total_messages", PInt 0);
       ("agents",
         PDict [ ("ingestion", PStr "active");
                 ("retrieval", PStr "active");
                 ("llm_response", PStr "active") ]) ]
  /\ CoordinatorAgent.get_message_history w' = []
  /\ (forall t, CoordinatorAgent.get_trace_history w' t = [])
  /\ (forall doc_id, IngestionAgent.get_document w' doc_id = None)
  /\ VectorStore.get_vector_count (vector_store w') = 0
  /\ (forall q top_k, VectorStore.search (vector_store w') q top_k = Ok [])
  /\ VectorStore.dimension (vector_store w') = VectorStore.dimension (vector_store w)
  /\ embedding_generator w' = embedding_generator w
  /\ objects w' = objects w.
Proof.
  cbv zeta. split; [reflexivity |]. split; [reflexivity |].
  split; [reflexivity |]. split.
  { intros t. unfold CoordinatorAgent.get_trace_history, get_trace_history. cbn.
    now rewrite lookup_empty. }
  split.
  { intros doc_id. unfold IngestionAgent.get_document. cbn. apply lookup_empty. }
  repeat split.
Qed.

(** X25: a failure of the template engine is not reported as a failure: the
    generator turns it into an apology, and the Response Agent answers
    with an LLM_RESPONSE of status success that carries the apology. *)
Theorem llm_reports_generator_failure_as_success (request : MCPMessage)
    (w : World) (e : exn) (n : Z) :
  type request = RETRIEVAL_RESULT ->
  truthy (dict_get "query" PNone (payload request)) = true ->
  truthy (dict_get "retrieved_chunks" (PList []) (payload request)) = true ->
  py_len (dict_get "retrieved_chunks" (PList []) (payload request)) = Ok n ->
  contextual_response (dict_get "query" PNone (payload request))
    (dict_get "retrieved_chunks" (PList []) (payload request)) = Error e ->
  LLMResponseAgent.handle_message request w =
  (Ok {| sender := LLMResponseAgent.name; receiver := sender request;
         type := LLM_RESPONSE; trace_id := trace_id request;
         payload :=
           [ ("status", PStr "success");
             ("query", dict_get "query" PNone (payload request));
             ("response",
               PStr ("I apologize, but I encountered an error while "
                     +:+ "processing your question: " +:+ e));
             ("sources", dict_get "sources" (PList []) (payload request));
             ("context_chunks_used", PInt n) ];
         timestamp := Some (now_isoformat (clock w)) |},
   set_clock (S (clock w)) (set_invoked (invoked w ++ [LLMResponseAgent.name]) w)).
Proof.
  intros Hty Hq Hc Hn He.
  unfold LLMResponseAgent.handle_message, LLMResponseAgent._generate_response,
    LocalLLMGenerator.generate_response.
  rewrite Hty. change (String.eqb RETRIEVAL_RESULT RETRIEVAL_RESULT) with true.
  cbv zeta. rewrite Hq, Hc, He, Hn. reflexivity.
Qed.

End MessageErrors.

(** ** Retrieval agent: indexing every chunk *)

Section IndexingAllProps.
Context `{Externals}.

Import VectorStore.

Lemma index_chunk_succeeds (document_id file_name : pyval) (extra c : dict)
    (w : World) :
  indexable c ->
  embeddings_fit (d (index (vector_store w))) ->
  exists w',
    RetrievalAgent.index_chunk document_id file_name (PDict extra) (PDict c) w
    = (Ok (chunk_id_of c), w')
    /\ d (index (vector_store w')) = d (index (vector_store w))
    /\ get_vector_count (vector_store w') = get_vector_count (vector_store w) + 1
    /\ is_Some (document_chunks w' !! chunk_id_of c)
    /\ is_Some (get_metadata (vector_store w') (chunk_id_of c))
    /\ (forall id, is_Some (document_chunks w !! id) ->
                   is_Some (document_chunks w' !! id))
    /\ (forall id, is_Some (get_metadata (vector_store w) id) ->
                   is_Some (get_metadata (vector_store w') id))
    /\ stdout w'
       = stdout w ++ (embedding_lines (embedding_generator w) (chunk_text_of c)).1
    /\ embedding_generator w'
       = (embedding_lines (embedding_generator w) (chunk_text_of c)).2
    /\ same_outside_index w w'.
Proof.
  intros [[text Htext] [cid Hid]] Hfit.
  unfold chunk_id_of, chunk_text_of, dict_get. rewrite Hid, Htext.
  unfold RetrievalAgent.index_chunk, dict_item. rewrite Htext, Hid.
  run_monad.
  pose proof (Hfit (embedding_generator w) text) as Hdim.
  rewrite generate_embedding_run. unfold world_after_embedding.
  run_monad. cbn [as_str]. run_monad.
  unfold add_vector, index_add. rewrite Hdim, Z.eqb_refl. run_monad.
  eexists. split; [reflexivity |]. world_simpl.
  unfold get_vector_count, get_metadata. cbn [index d metadata_store].
  split; [reflexivity |]. split; [apply ntotal_snoc |].
  split; [rewrite lookup_insert_eq; eauto |].
  split; [rewrite lookup_insert_eq; eauto |].
  split.
  { intros id Hs. destruct (String.string_dec id cid) as [->|Hne].
    - rewrite lookup_insert_eq. eauto.
    - now rewrite lookup_insert_ne by congruence. }
  split.
  { intros id Hs. destruct (String.string_dec id cid) as [->|Hne].
    - rewrite lookup_insert_eq. eauto.
    - now rewrite lookup_insert_ne by congruence. }
  repeat split.
Qed.

Lemma index_loop_all (document_id file_name : pyval) (extra : dict)
    (chunks : list dict) :
  forall (indexed_chunks : list string) (w : World),
    Forall indexable chunks ->
    embeddings_fit (d (index (vector_store w))) ->
    exists w',
      RetrievalAgent.index_loop document_id file_name (PDict extra)
        (map PDict chunks) indexed_chunks w
      = (Ok (indexed_chunks ++ map chunk_id_of chunks), w')
      /\ get_vector_count (vector_store w')
         = get_vector_count (vector_store w) + len chunks
      /\ Forall (fun c => is_Some (document_chunks w' !! chunk_id_of c)
                          /\ is_Some (get_metadata (vector_store w') (chunk_id_of c)))
           chunks
      /\ (forall id, is_Some (document_chunks w !! id) ->
                     is_Some (document_chunks w' !! id))
      /\ (forall id, is_Some (get_metadata (vector_store w) id) ->
                     is_Some (get_metadata (vector_store w') id))
      /\ stdout w'
         = stdout w
           ++ embedding_warnings (embedding_generator w) (map chunk_text_of chunks)
      /\ same_outside_index w w'.
Proof.
  induction chunks as [|c chunks IH]; intros acc w Hwf Hfit;
    cbn [map RetrievalAgent.index_loop embedding_warnings].
  - exists w. rewrite !List.app_nil_r. unfold ret, len. cbn [length].
    split; [reflexivity |]. split; [lia |]. split; [constructor |].
    repeat split; auto.
  - inversion Hwf as [|c0 l0 Hc Hrest]; subst.
    destruct (index_chunk_succeeds document_id file_name extra c w Hc Hfit)
      as (w1 & Hrun & Hd & Hcount & Hdc & Hms & Hkeep_dc & Hkeep_ms & Hout & Hgen
          & Hsame).
    unfold bind at 1. unfold try_except, bind. rewrite Hrun. unfold ret.
    rewrite <- Hd in Hfit.
    destruct (IH (acc ++ [chunk_id_of c]) w1 Hrest Hfit)
      as (w2 & Hloop & Hcount2 & Hall & Hkeep_dc2 & Hkeep_ms2 & Hout2 & Hsame2).
    exists w2. rewrite Hloop, <- List.app_assoc. split; [reflexivity |].
    split.
    { rewrite Hcount2, Hcount. unfold len. cbn [length]. lia. }
    split.
    { constructor; [| exact Hall]. split; [now apply Hkeep_dc2 | now apply Hkeep_ms2]. }
    split; [intros id Hs; now apply Hkeep_dc2, Hkeep_dc |].
    split; [intros id Hs; now apply Hkeep_ms2, Hkeep_ms |].
    split; [rewrite Hout2, Hout, Hgen; now rewrite <- List.app_assoc |].
    destruct Hsame as (A1 & A2 & A4 & A5 & A6 & A7).
    destruct Hsame2 as (B1 & B2 & B4 & B5 & B6 & B7).
    repeat split; congruence.
Qed.

(** The Retrieval Agent on a parsed document whose chunks are all
    indexable, when embeddings fit the index. *)
Lemma retrieval_indexes_all (message : MCPMessage) (w : World)
    (chunks : list dict) (extra : dict) :
  type message = DOCUMENT_PARSED ->
  dict_get "chunks" (PList []) (payload message) = PList (map PDict chunks) ->
  chunks <> [] ->
  dict_get "metadata" (PDict []) (payload message) = PDict extra ->
  Forall indexable chunks ->
  embeddings_fit (d (index (vector_store w))) ->
  exists w1,
    RetrievalAgent.handle_message message w =
    (Ok {| sender := RetrievalAgent.name; receiver := sender message;
           type := INGESTION_COMPLETE; trace_id := trace_id message;
           payload :=
             [ ("status", PStr "success");
               ("document_id", dict_get "document_id" PNone (payload message));
               ("file_name", dict_get "file_name" PNone (payload message));
               ("indexed_chunks", PInt (len chunks));
               ("total_chunks", PInt (len chunks)) ];
           timestamp := Some (now_isoformat (clock w)) |},
     set_clock (S (clock w)) w1)
    /\ get_vector_count (vector_store w1)
       = get_vector_count (vector_store w) + len chunks
    /\ Forall (fun c => is_Some (document_chunks w1 !! chunk_id_of c)
                        /\ is_Some (get_metadata (vector_store w1) (chunk_id_of c)))
         chunks
    /\ invoked w1 = invoked w ++ [RetrievalAgent.name]
    /\ stdout w1
       = stdout w
         ++ embedding_warnings (embedding_generator w) (map chunk_text_of chunks)
    /\ processed_documents w1 = processed_documents w
    /\ message_history w1 = message_history w
    /\ trace_sessions w1 = trace_sessions w.
Proof.
  intros Hty Hchunks Hne Hmeta Hwf Hfit.
  destruct (index_loop_all (dict_get "document_id" PNone (payload message))
              (dict_get "file_name" PNone (payload message)) extra chunks []
              (set_invoked (invoked w ++ [RetrievalAgent.name]) w) Hwf Hfit)
    as (w1 & Hloop & Hcount & Hall & _ & _ & Hout & Hsame).
  destruct Hsame as (A1 & A2 & A4 & A5 & A6 & A7).
  exists w1.
  split.
  { unfold RetrievalAgent.handle_message, RetrievalAgent._index_document.
    rewrite Hty. change (String.eqb DOCUMENT_PARSED DOCUMENT_PARSED) with true.
    cbv zeta. rewrite Hchunks, Hmeta.
    assert (Ht : truthy (PList (map PDict chunks)) = true)
      by (destruct chunks; [contradiction | reflexivity]).
    rewrite Ht. cbn [negb RetrievalAgent.iterate py_len].
    run_monad. rewrite Hloop. run_monad.
    rewrite A1. world_simpl.
    unfold len. cbn [List.app]. rewrite !length_map. reflexivity. }
  split; [exact Hcount |]. split; [exact Hall |].
  repeat split; assumption.
Qed.

(** X22: when every submitted chunk has a text and a string identifier and
    the embeddings have the dimension of the index, none is skipped: the
    answer is INGESTION_COMPLETE with as many indexed chunks as were
    submitted, the index holds that many vectors more, every chunk is
    remembered and has a metadata record, and the only lines printed are
    the warnings of the embedding generator for the texts on which its
    vectorizer failed. *)
Theorem index_document_all_chunks (message : MCPMessage) (w : World)
    (chunks : list dict) (extra : dict) :
  type message = DOCUMENT_PARSED ->
  dict_get "chunks" (PList []) (payload message) = PList (map PDict chunks) ->
  chunks <> [] ->
  dict_get "metadata" (PDict []) (payload message) = PDict extra ->
  Forall indexable chunks ->
  embeddings_fit (d (index (vector_store w))) ->
  exists out w',
    RetrievalAgent.handle_message message w = (Ok out, w')
    /\ type out = INGESTION_COMPLETE
    /\ dict_lookup "indexed_chunks" (payload out) = Some (PInt (len chunks))
    /\ dict_lookup "total_chunks" (payload out) = Some (PInt (len chunks))
    /\ get_vector_count (vector_store w')
       = get_vector_count (vector_store w) + len chunks
    /\ Forall (fun c => is_Some (document_chunks w' !! chunk_id_of c)
                        /\ is_Some (get_metadata (vector_store w') (chunk_id_of c)))
         chunks
    /\ stdout w'
       = stdout w
         ++ embedding_warnings (embedding_generator w) (map chunk_text_of chunks).
Proof.
  intros Hty Hchunks Hne Hmeta Hwf Hfit.
  destruct (retrieval_indexes_all message w chunks extra Hty Hchunks Hne Hmeta Hwf Hfit)
    as (w1 & Hrun & Hcount & Hall & _ & Hout & _).
  eexists _, _. split; [exact Hrun |].
  split; [reflexivity |]. split; [reflexivity |]. split; [reflexivity |].
  world_simpl. split; [exact Hcount |]. split; [exact Hall | exact Hout].
Qed.

End IndexingAllProps.

Section UploadSuccess.
Context `{Externals}.

(** The Ingestion Agent on a document whose text holds a word. *)
Lemma ingestion_parses_document (message : MCPMessage) (w : World)
    (fname parser_type text : string) (parsed_data extra : dict) :
  type message = DOCUMENT_UPLOAD ->
  dict_get "file_name" PNone (payload message) = PStr fname ->
  truthy (PStr fname) && truthy (dict_get "file_content" PNone (payload message)) = true ->
  IngestionAgent.infer_parser_type fname = Ok parser_type ->
  document_parse (dict_get "file_content" PNone (payload message)) parser_type
    = Ok parsed_data ->
  dict_lookup "text" parsed_data = Some (PStr text) ->
  all_space text = false ->
  dict_get "metadata" (PDict []) parsed_data = PDict extra ->
  let m := last_ordinal (len (split text)) in
  let chunks := map (chunk_at (split text) (PStr fname) 1000 800 (uuids w)) (seq 0 (S m)) in
  let doc_id := uuid4_str (uuids w + S m) in
  let metadata :=
    dict_update
      [ ("file_name", PStr fname);
        ("file_type", dict_get "file_type" PNone (payload message));
        ("parser_type", PStr parser_type);
        ("page_count", dict_get "page_count" (PInt 1) parsed_data);
        ("word_count", PInt (len (split text))) ] extra in
  IngestionAgent.handle_message message w =
  (Ok {| sender := IngestionAgent.name; receiver := sender message;
         type := DOCUMENT_PARSED; trace_id := trace_id message;
         payload :=
           [ ("status", PStr "success");
             ("document_id", PStr doc_id);
             ("file_name", PStr fname);
             ("chunks", PList (map PDict chunks));
             ("metadata", PDict metadata);
             ("total_chunks", PInt (len chunks)) ];
         timestamp := Some (now_isoformat (clock w)) |},
   set_clock (S (clock w))
     (set_processed_documents
        (<[doc_id :=
             [ ("id", PStr doc_id);
               ("name", PStr fname);
               ("type", dict_get "file_type" PNone (payload message));
               ("content", PStr text);
               ("chunks", PList (map PDict chunks));
               ("metadata", PDict metadata) ]]> (processed_documents w))
        (set_uuids (S (uuids w + S m))
           (set_invoked (invoked w ++ [IngestionAgent.name]) w)))).
Proof.
  intros Hty Hname Hv Hinfer Hparse Htext Hsp Hextra m chunks doc_id metadata.
  unfold IngestionAgent.handle_message, IngestionAgent._process_document.
  rewrite Hty. change (String.eqb DOCUMENT_UPLOAD DOCUMENT_UPLOAD) with true.
  cbv zeta. rewrite Hname, Hv. cbn [negb].
  unfold IngestionAgent._parse_document, IngestionAgent.chunk_text, dict_item.
  run_monad. rewrite Hinfer. run_monad. rewrite Hparse. run_monad.
  rewrite Htext. run_monad.
  rewrite (chunk_text_default_run text (PStr fname) (uuids w) Hsp). run_monad.
  rewrite Hextra. run_monad. rewrite ?Hty. reflexivity.
Qed.

Lemma chunk_at_indexable (words : list string) (src : pyval) (cs step : Z)
    (u k : nat) :
  indexable (chunk_at words src cs step u k)
  /\ chunk_id_of (chunk_at words src cs step u k) = uuid4_str (u + k).
Proof. split; [split; cbn; eauto | reflexivity]. Qed.

(** X23: the upload of a file with a supported extension whose parser
    delivers a text holding a word succeeds when the embeddings have the
    dimension of the index: the result is a SUCCESS that names the
    document and counts as indexed every chunk of the text, the document
    is recorded, the index holds one vector more per chunk, and the only
    lines printed are the warnings of the embedding generator for the
    chunk texts on which its vectorizer failed. *)
Theorem upload_indexes_every_chunk (message : MCPMessage) (w : World)
    (stem ext parser_type text : string) (parsed_data extra : dict) :
  type message = DOCUMENT_UPLOAD ->
  dict_get "file_name" PNone (payload message) = PStr (stem +:+ ext) ->
  In (lower ext, parser_type) parser_of_extension ->
  truthy (dict_get "file_content" PNone (payload message)) = true ->
  document_parse (dict_get "file_content" PNone (payload message)) parser_type
    = Ok parsed_data ->
  dict_lookup "text" parsed_data = Some (PStr text) ->
  all_space text = false ->
  dict_get "metadata" (PDict []) parsed_data = PDict extra ->
  embeddings_fit (VectorStore.d (VectorStore.index (vector_store w))) ->
  let count := S (last_ordinal (len (split text))) in
  let doc_id := uuid4_str (uuids w + count) in
  let chunks :=
    map (chunk_at (split text) (PStr (stem +:+ ext)) 1000 800 (uuids w))
      (seq 0 count) in
  exists out w' doc,
    CoordinatorAgent.handle_message message w = (Ok out, w')
    /\ type out = SUCCESS
    /\ payload out =
       [ ("status", PStr "success");
         ("document_id", PStr doc_id);
         ("file_name", PStr (stem +:+ ext));
         ("indexed_chunks", PInt (Z.of_nat count));
         ("workflow", PStr "document_upload_complete") ]
    /\ IngestionAgent.get_document w' doc_id = Some doc
    /\ dict_lookup "content" doc = Some (PStr text)
    /\ VectorStore.get_vector_count (vector_store w')
       = VectorStore.get_vector_count (vector_store w) + Z.of_nat count
    /\ Forall (fun k => is_Some (document_chunks w' !! uuid4_str (uuids w + k)))
         (seq 0 count)
    /\ stdout w'
       = stdout w
         ++ embedding_warnings (embedding_generator w) (map chunk_text_of chunks).
Proof.
  intros Hty Hname Hext Hcontent Hparse Htext Hsp Hextra Hfit count doc_id chunks0.
  pose proof (infer_parser_type_extension stem ext parser_type Hext) as Hinfer.
  assert (Hv : truthy (PStr (stem +:+ ext))
               && truthy (dict_get "file_content" PNone (payload message)) = true).
  { rewrite (extension_name_truthy stem ext parser_type Hext). exact Hcontent. }
  set (fname := stem +:+ ext) in *. subst chunks0.
  pose proof (ingestion_parses_document message (world_at_dispatch message w)
                fname parser_type text parsed_data extra
                Hty Hname Hv Hinfer Hparse Htext Hsp Hextra) as Hing.
  cbv zeta in Hing.
  change (uuids (world_at_dispatch message w)) with (uuids w) in Hing.
  set (chunks := map (chunk_at (split text) (PStr fname) 1000 800 (uuids w))
                   (seq 0 (S (last_ordinal (len (split text)))))) in *.
  assert (Hlen : len chunks = Z.of_nat count).
  { unfold len, chunks. now rewrite length_map, length_seq. }
  assert (Hwf : Forall indexable chunks).
  { apply List.Forall_forall. intros c Hc. apply in_map_iff in Hc as (k & <- & _).
    apply chunk_at_indexable. }
  match type of Hing with
  | _ = (Ok ?p, ?w1) =>
      destruct (retrieval_indexes_all p (routed p w1) chunks _
                  eq_refl eq_refl
                  ltac:(unfold chunks; cbn [seq map]; discriminate)
                  eq_refl Hwf Hfit)
        as (w2 & Hret & Hcount & Hall & _ & Hout & Hdocs & _);
      pose proof (handle_document_upload_run message p _ w w1 _ Hty Hing Hret) as Hrun
  end.
  cbn [type] in Hrun.
  change (String.eqb DOCUMENT_PARSED ERROR) with false in Hrun.
  change (String.eqb INGESTION_COMPLETE ERROR) with false in Hrun.
  cbv iota in Hrun.
  eexists _, _, _. split; [exact Hrun |].
  split; [reflexivity |]. split.
  { cbn [coordinator_result payload dict_get dict_lookup String.eqb Ascii.eqb Bool.eqb].
    now rewrite Hlen. }
  split.
  { unfold IngestionAgent.get_document, routed. world_simpl.
    rewrite Hdocs. unfold routed. world_simpl.
    apply lookup_insert_eq. }
  split; [reflexivity |].
  split.
  { unfold routed. world_simpl. rewrite Hcount, Hlen. reflexivity. }
  split.
  { unfold routed. world_simpl. apply List.Forall_forall. intros k Hk.
    rewrite List.Forall_forall in Hall.
    destruct (Hall (chunk_at (split text) (PStr fname) 1000 800 (uuids w) k)) as [Hdc _].
    - unfold chunks. now apply in_map.
    - exact Hdc. }
  unfold routed. world_simpl. exact Hout.
Qed.

End UploadSuccess.

(** ** Coordinator: query workflow after retrieval *)

Section QueryOutcomeProps.
Context `{Externals}.

(** X26: the query workflow once retrieval succeeded. The Response Agent is
    given the payload of the retrieval answer together with the
    conversation history of the query; if it answers ERROR the result is
    a failure of the response stage, and otherwise a SUCCESS that carries
    the query, the response and the sources of that answer, with an empty
    list of sources and a count of zero when the answer lacks them. *)
Theorem query_workflow_outcome (message retrieved : MCPMessage) (w w1 : World) :
  type message = QUERY_REQUEST ->
  RetrievalAgent.handle_message (retrieval_request message w)
    (world_at_retrieval message w) = (Ok retrieved, w1) ->
  type retrieved <> ERROR ->
  exists answer w2,
    LLMResponseAgent.handle_message (llm_request message retrieved (clock w1))
      (set_clock (S (clock w1)) (routed retrieved w1)) = (Ok answer, w2)
    /\ CoordinatorAgent.handle_message message w =
       (Ok (coordinator_result message
              (if String.eqb (type answer) ERROR then ERROR else SUCCESS)
              (if String.eqb (type answer) ERROR
               then stage_failure "LLM response failed: " answer
               else
                 [ ("status", PStr "success");
                   ("query", dict_get "query" PNone (payload message));
                   ("response", dict_get "response" PNone (payload answer));
                   ("sources", dict_get "sources" (PList []) (payload answer));
                   ("context_chunks_used",
                     dict_get "context_chunks_used" (PInt 0) (payload answer));
                   ("workflow", PStr "query_processing_complete") ])
              (clock w2)),
        set_clock (S (clock w2)) (routed answer w2)).
Proof.
  intros Hty Hret Hok.
  destruct (llm_replies (llm_request message retrieved (clock w1))
              (set_clock (S (clock w1)) (routed retrieved w1)))
    as (answer & w2 & Hllm & _).
  exists answer, w2. split; [exact Hllm |].
  unfold CoordinatorAgent.handle_message, CoordinatorAgent._handle_query_request.
  rewrite Hty.
  change (String.eqb QUERY_REQUEST DOCUMENT_UPLOAD) with false.
  change (String.eqb QUERY_REQUEST QUERY_REQUEST) with true.
  cbv beta iota zeta delta
    [bind ret modify enter try_except route_message new_message datetime_now
     create_response_message].
  change (RetrievalAgent.handle_message _ _)
    with (RetrievalAgent.handle_message (retrieval_request message w)
            (world_at_retrieval message w)).
  rewrite Hret. cbv beta iota zeta.
  apply String.eqb_neq in Hok. rewrite Hok.
  change (LLMResponseAgent.handle_message _ _)
    with (LLMResponseAgent.handle_message (llm_request message retrieved (clock w1))
            (set_clock (S (clock w1)) (routed retrieved w1))).
  rewrite Hllm. cbv beta iota zeta.
  destruct (String.eqb (type answer) ERROR); reflexivity.
Qed.

End QueryOutcomeProps.

(** ** Refusals, and the rows a search keeps *)

Section RefusalProps.
Context `{Externals}.

(** X28: each worker agent refuses the messages of the types it does not
    handle with an ERROR that names the type, and does nothing else: the
    Ingestion Agent handles DOCUMENT_UPLOAD only, the Retrieval Agent
    DOCUMENT_PARSED and RETRIEVAL_REQUEST only, the Response Agent
    RETRIEVAL_RESULT only. *)
Theorem worker_agents_reject_other_types (message : MCPMessage) (w : World) :
  (type message <> DOCUMENT_UPLOAD ->
     IngestionAgent.handle_message message w =
     (Ok (unsupported_type_error IngestionAgent.name message (clock w)),
      world_after_refusal IngestionAgent.name w))
  /\ (type message <> DOCUMENT_PARSED ->
      type message <> RETRIEVAL_REQUEST ->
      RetrievalAgent.handle_message message w =
      (Ok (unsupported_type_error RetrievalAgent.name message (clock w)),
       world_after_refusal RetrievalAgent.name w))
  /\ (type message <> RETRIEVAL_RESULT ->
      LLMResponseAgent.handle_message message w =
      (Ok (unsupported_type_error LLMResponseAgent.name message (clock w)),
       world_after_refusal LLMResponseAgent.name w)).
Proof.
  split; [| split].
  - intros Hu. apply String.eqb_neq in Hu.
    unfold IngestionAgent.handle_message. rewrite Hu. reflexivity.
  - intros Hp Hr. apply String.eqb_neq in Hp, Hr.
    unfold RetrievalAgent.handle_message. rewrite Hp, Hr. reflexivity.
  - intros Hr. apply String.eqb_neq in Hr.
    unfold LLMResponseAgent.handle_message. rewrite Hr. reflexivity.
Qed.

End RefusalProps.

Section SearchRows.
Context `{Externals}.

Import VectorStore.

Lemma convert_results_in_range (vs : t) (hits : list (Z * Z)) :
  store_ok vs ->
  map snd (convert_results (index_to_id vs) hits)
  = map fst (filter (fun hit : Z * Z => 0 <= hit.2 < get_vector_count vs) hits)
  /\ Forall (fun r : string * Z => is_Some (get_metadata vs r.1))
       (convert_results (index_to_id vs) hits).
Proof.
  intros [Hnext _ Hrows _ _ Hknown _]. unfold get_vector_count, get_metadata.
  induction hits as [|[similarity row] hits [IHs IHm]]; [split; [reflexivity | constructor] |].
  cbn [convert_results]. rewrite filter_cons. cbn [snd].
  destruct (index_to_id vs !! row) as [vector_id|] eqn:Hrow.
  - assert (Hin : 0 <= row < ntotal (index vs)).
    { rewrite <- Hnext. apply Hrows. rewrite Hrow. eauto. }
    destruct (decide (0 <= row < ntotal (index vs))) as [_|Hout]; [| contradiction].
    split.
    + cbn [map fst snd]. now rewrite IHs.
    + constructor; [| exact IHm]. cbn [fst]. exact (Hknown _ _ Hrow).
  - assert (Hout : ~ (0 <= row < ntotal (index vs))).
    { intros Hin. rewrite <- Hnext in Hin. apply Hrows in Hin.
      rewrite Hrow in Hin. destruct Hin as [x Hx]. discriminate Hx. }
    destruct (decide (0 <= row < ntotal (index vs))) as [Hin|_]; [contradiction |].
    split; assumption.
Qed.

(** X27: on a store built by insertions and clearings that holds a
    vector, when the index, asked for [min(top_k, ntotal)] rows, reports
    rows (for an integer [top_k] it is asked for the smaller of the two
    numbers), the search returns one result for each reported row that
    lies within the rows of the index, with the score of that row and in
    the order of the index; the rows outside the range (the padding of
    the index) are the only ones dropped, and every identifier returned
    has a metadata record. *)
Theorem search_keeps_rows_in_range (vs : t) (q : ndarray) (top_k k : pyval)
    (hits : list (Z * Z)) :
  reachable vs ->
  get_vector_count vs <> 0 ->
  min_with_int top_k (get_vector_count vs) = Ok k ->
  faiss_search (xb (index vs)) (normalize q) k = Ok hits ->
  (forall n, top_k = PInt n -> k = PInt (Z.min n (get_vector_count vs)))
  /\ exists results,
      search vs q top_k = Ok results
      /\ map snd results
         = map fst (filter (fun hit : Z * Z => 0 <= hit.2 < get_vector_count vs) hits)
      /\ Forall (fun r : string * Z => is_Some (get_metadata vs r.1)) results.
Proof.
  intros Hr Hn Hk Hhits. split.
  { intros n ->. rewrite min_with_int_int in Hk. now injection Hk as <-. }
  exists (convert_results (index_to_id vs) hits).
  split.
  - unfold search. unfold get_vector_count in Hn, Hk.
    apply Z.eqb_neq in Hn. rewrite Hn, Hk, Hhits. reflexivity.
  - apply convert_results_in_range. now apply reachable_ok.
Qed.

End SearchRows.

(** ** Sample runs *)

Lemma separate_store_reachable : reachable (H:=demo_externals) separate_store.
Proof.
  eapply (reachable_add (H:=demo_externals) _ _ "b" [1; 0] 1%nat).
  - eapply (reachable_add (H:=demo_externals) _ _ "a" [3; 4] 0%nat).
    + apply (reachable_init (H:=demo_externals) 2).
    + reflexivity.
  - reflexivity.
Qed.

Lemma world_after_upload_reachable : reachable_world (H:=demo_externals) world_after_upload.
Proof. apply reachable_message, reachable_initial. Qed.

Lemma demo_embeddings_fit : embeddings_fit (H:=demo_externals) 1000.
Proof.
  intros g text. unfold VectorStore.normalize.
  assert (E : exists x,
             embedding_vector (H:=demo_externals) g text = repeat x 1000)
    by (destruct g; eexists; reflexivity).
  destruct E as [x ->].
  destruct (norm_is_positive _);
    change (len (repeat x 1000) = 1000);
    unfold len; now rewrite repeat_length.
Qed.

Lemma chunk_text_covers_every_word_witness :
  0 <= 1 < 2
  /\ split "alpha beta gamma" !! 2%nat = Some "gamma"%string
  /\ exists chunks u' c s e t,
       IngestionAgent._chunk_text (H:=demo_externals) "alpha beta gamma"
         (PStr "notes.txt") 2 1 0 = (Ok chunks, u')
       /\ In c chunks
       /\ dict_lookup "start_word" c = Some (PInt s)
       /\ dict_lookup "end_word" c = Some (PInt e)
       /\ dict_lookup "text" c = Some (PStr t)
       /\ s <= Z.of_nat 2 < e
       /\ split t !! (2 - Z.to_nat s)%nat = Some "gamma"%string.
Proof.
  split; [lia |]. split; [reflexivity |].
  apply (chunk_text_covers_every_word (H:=demo_externals) "alpha beta gamma"
           (PStr "notes.txt") 2 1 0 2 "gamma"); [lia | reflexivity].
Defined.

Lemma chunk_text_windows_overlap_witness :
  all_space "alpha beta gamma" = false
  /\ exists chunks u',
       IngestionAgent._chunk_text (H:=demo_externals) "alpha beta gamma"
         (PStr "notes.txt") 2 1 0 = (Ok chunks, u')
       /\ (exists c, chunks !! 0%nat = Some c
                     /\ dict_lookup "start_word" c = Some (PInt 0))
       /\ (forall k c c',
             chunks !! k = Some c -> chunks !! S k = Some c' ->
             exists s,
               dict_lookup "start_word" c = Some (PInt s)
               /\ dict_lookup "end_word" c = Some (PInt (s + 2))
               /\ dict_lookup "word_count" c = Some (PInt 2)
               /\ dict_lookup "start_word" c' = Some (PInt (s + 2 - 1)))
       /\ (exists c, last chunks = Some c
                     /\ dict_lookup "end_word" c
                        = Some (PInt (len (split "alpha beta gamma")))).
Proof.
  split; [reflexivity |].
  apply (chunk_text_windows_overlap (H:=demo_externals) "alpha beta gamma"
           (PStr "notes.txt") 2 1 0); [lia | reflexivity].
Defined.

Lemma chunk_text_word_count_witness :
  exists chunks u',
    IngestionAgent._chunk_text (H:=demo_externals) "alpha beta gamma"
      (PStr "notes.txt") 2 1 0 = (Ok chunks, u')
    /\ length chunks = 2%nat
    /\ Forall (fun c =>
         exists t s e,
           dict_lookup "text" c = Some (PStr t)
           /\ dict_lookup "start_word" c = Some (PInt s)
           /\ dict_lookup "end_word" c = Some (PInt e)
           /\ dict_lookup "word_count" c = Some (PInt (len (split t)))
           /\ len (split t) = e - s
           /\ 1 <= len (split t) <= 2) chunks
    /\ u' = (0 + length chunks)%nat.
Proof.
  eexists _, _. split; [reflexivity |]. split; [reflexivity |].
  apply (chunk_text_word_count (H:=demo_externals) "alpha beta gamma"
           (PStr "notes.txt") 2 1 0); [lia | reflexivity].
Defined.

Lemma chunk_text_overlap_not_below_window_witness :
  all_space "alpha" = false
  /\ IngestionAgent._chunk_text (H:=demo_externals) "alpha" (PStr "notes.txt") 3 3 0
     = (Error "range() arg 3 must not be zero"%string, 0%nat)
  /\ IngestionAgent._chunk_text (H:=demo_externals) "alpha" (PStr "notes.txt") 3 5 0
     = (Ok [], 0%nat).
Proof.
  split; [reflexivity |]. split.
  - apply (chunk_text_overlap_not_below_window (H:=demo_externals) "alpha"
             (PStr "notes.txt") 3 3 0); [lia | reflexivity].
  - apply (chunk_text_overlap_not_below_window (H:=demo_externals) "alpha"
             (PStr "notes.txt") 3 5 0); [lia | reflexivity].
Defined.

Lemma parser_follows_extension_witness :
  lower ".PDF" = ".pdf"%string
  /\ IngestionAgent.infer_parser_type "Annual Report.PDF" = Ok "pdf"%string
  /\ IngestionAgent.infer_parser_type "README.Md" = Ok "text"%string.
Proof.
  split; [reflexivity |]. split.
  - apply (parser_follows_extension "Annual Report" ".PDF" "pdf").
    left. reflexivity.
  - apply (parser_follows_extension "README" ".Md" "text").
    do 5 right. left. reflexivity.
Defined.

Lemma reachable_store_consistent_witness :
  VectorStore.next_index separate_store = 2
  /\ VectorStore.next_index separate_store
     = VectorStore.get_vector_count (H:=demo_externals) separate_store
  /\ (forall id i, VectorStore.id_to_index separate_store !! id = Some i ->
                   VectorStore.index_to_id separate_store !! i = Some id).
Proof.
  split; [reflexivity |].
  destruct (reachable_store_consistent (H:=demo_externals) separate_store
              separate_store_reachable) as (Hn & _ & Hinv & _).
  split; [exact Hn | exact Hinv].
Defined.

Lemma statistics_bounds_witness :
  exists total active deleted,
    dict_lookup "total_vectors"
      (VectorStore.get_statistics (H:=demo_externals) separate_store two_objects)
    = Some (PInt total)
    /\ dict_lookup "active_vectors"
         (VectorStore.get_statistics (H:=demo_externals) separate_store two_objects)
       = Some (PInt active)
    /\ dict_lookup "deleted_vectors"
         (VectorStore.get_statistics (H:=demo_externals) separate_store two_objects)
       = Some (PInt deleted)
    /\ total = VectorStore.get_vector_count (H:=demo_externals) separate_store
    /\ 0 <= active <= total
    /\ 0 <= deleted <= total
    /\ active + deleted = total.
Proof.
  apply (statistics_bounds (H:=demo_externals) separate_store two_objects
           separate_store_reachable).
Defined.

Lemma add_vector_then_lookup_witness :
  exists vs',
    VectorStore.add_vector (H:=demo_externals) (VectorStore.__init__ 2) "a" [3; 4] 0%nat
    = Ok vs'
    /\ VectorStore.get_metadata vs' "a" = Some 0%nat
    /\ VectorStore.get_vector_count vs' = 1
    /\ VectorStore.id_to_index vs' !! "a" = Some 0
    /\ VectorStore.index_to_id vs' !! 0 = Some "a"%string.
Proof.
  eexists. split; [reflexivity |].
  destruct (add_vector_then_lookup (H:=demo_externals) (VectorStore.__init__ 2) _
              "a" [3; 4] 0%nat eq_refl) as (Hm & _ & Hc & Hi & Hb & _).
  split; [exact Hm |]. split; [exact Hc |]. split; [exact Hi | exact Hb].
Defined.

Lemma add_vector_existing_id_witness :
  VectorStore.get_metadata (H:=demo_externals) separate_store "a" = Some 0%nat
  /\ exists vs' row,
       VectorStore.add_vector (H:=demo_externals) separate_store "a" [0; 1] 1%nat
       = Ok vs'
       /\ VectorStore.id_to_index separate_store !! "a" = Some row
       /\ VectorStore.index_to_id vs' !! row = Some "a"%string
       /\ VectorStore.index_to_id vs' !! 2 = Some "a"%string
       /\ VectorStore.get_vector_count vs' = 3
       /\ VectorStore.active_vectors vs' two_objects = 2.
Proof.
  split; [reflexivity |].
  eexists.
  destruct (add_vector_existing_id (H:=demo_externals) separate_store _ two_objects
              "a" [0; 1] 0%nat 1%nat separate_store_reachable
              eq_refl eq_refl eq_refl eq_refl)
    as (row & Hrow & _ & Hold & Hnew & Hcount & Hact & _).
  exists row. split; [reflexivity |]. split; [exact Hrow |].
  split; [exact Hold |]. split; [exact Hnew |].
  split; [exact Hcount |]. rewrite Hact. reflexivity.
Defined.

Lemma from_dict_rejects_malformed_witness :
  (exists e,
     from_dict (H:=demo_externals)
       [("sender", PStr "UI"); ("colour", PInt 1)] initial_world
     = (Error e, initial_world))
  /\ (exists e,
        from_dict (H:=demo_externals)
          [("sender", PStr "UI"); ("receiver", PStr "CoordinatorAgent")] initial_world
        = (Error e, initial_world)).
Proof.
  split.
  - apply (from_dict_rejects_malformed (H:=demo_externals) _ initial_world "colour").
    left. split; [eexists; reflexivity |].
    intros Hin. repeat (destruct Hin as [Hin|Hin]; [discriminate Hin |]). exact Hin.
  - apply (from_dict_rejects_malformed (H:=demo_externals) _ initial_world "payload").
    right. split; [do 4 right; left; reflexivity | reflexivity].
Defined.

Lemma trace_sessions_partition_history_witness :
  CoordinatorAgent.get_trace_history (H:=demo_externals) world_after_upload "trace-0"
  = filter (fun m => trace_id m = "trace-0"%string)
      (CoordinatorAgent.get_message_history (H:=demo_externals) world_after_upload).
Proof.
  apply (trace_sessions_partition_history (H:=demo_externals) world_after_upload
           "trace-0" world_after_upload_reachable).
Defined.

Lemma metadata_objects_never_shared_witness :
  VectorStore.get_metadata (H:=demo_externals) (vector_store world_after_upload) "uuid-0"
  = Some 0%nat
  /\ is_Some (objects world_after_upload !! 0%nat)
  /\ (forall id',
        VectorStore.get_metadata (H:=demo_externals) (vector_store world_after_upload) id'
        = Some 0%nat -> id' = "uuid-0"%string).
Proof.
  assert (Hid : VectorStore.get_metadata (H:=demo_externals)
                  (vector_store world_after_upload) "uuid-0" = Some 0%nat)
    by (vm_compute; reflexivity).
  split; [exact Hid |].
  apply (metadata_objects_never_shared (H:=demo_externals) world_after_upload
           "uuid-0" 0%nat world_after_upload_reachable Hid).
Defined.

Lemma indexed_chunks_are_stored_witness :
  RetrievalAgent.get_indexed_count (H:=demo_externals) world_after_upload
  <= VectorStore.get_vector_count (H:=demo_externals) (vector_store world_after_upload).
Proof.
  apply (indexed_chunks_are_stored (H:=demo_externals) world_after_upload
           world_after_upload_reachable).
Defined.

Lemma retrieval_formatting_never_fails_witness :
  exists retrieved sources,
    RetrievalAgent.format_results (H:=demo_externals)
      (document_chunks world_after_upload) [("uuid-0"%string, 0); ("gone"%string, 0)] [] []
    = Ok (retrieved, sources)
    /\ NoDup sources
    /\ (length sources <= length retrieved <= 2)%nat.
Proof.
  apply (retrieval_formatting_never_fails (H:=demo_externals) world_after_upload
           [("uuid-0"%string, 0); ("gone"%string, 0)] world_after_upload_reachable).
Defined.

Lemma coordinator_rejects_other_types_witness :
  type status_message = STATUS_UPDATE
  /\ exists out w',
       CoordinatorAgent.handle_message (H:=demo_externals) status_message initial_world
       = (Ok out, w')
       /\ type out = ERROR
       /\ dict_lookup "error" (payload out)
          = Some (PStr "Unsupported message type: STATUS_UPDATE")
       /\ invoked w' = ["CoordinatorAgent"%string]
       /\ message_history w' = [status_message].
Proof.
  split; [reflexivity |].
  destruct (coordinator_rejects_other_types (H:=demo_externals) status_message
              initial_world ltac:(discriminate) ltac:(discriminate))
    as (Hrun & _ & _).
  eexists _, _. split; [exact Hrun |]. repeat split.
Defined.

Lemma upload_workflow_outcome_witness :
  type upload_without_type = DOCUMENT_UPLOAD
  /\ exists out w',
       CoordinatorAgent.handle_message (H:=demo_externals) upload_without_type
         initial_world = (Ok out, w')
       /\ (type out = SUCCESS \/ type out = ERROR).
Proof.
  split; [reflexivity |].
  pose proof (ingestion_parses_document (H:=demo_externals) upload_without_type
                (world_at_dispatch (H:=demo_externals) upload_without_type initial_world)
                "Notes.TXT" "text" "alpha beta gamma"
                [("text", PStr "alpha beta gamma");
                 ("metadata", PDict [("parser", PStr "text")])]
                [("parser", PStr "text")]
                eq_refl eq_refl eq_refl eq_refl eq_refl eq_refl eq_refl eq_refl)
    as Hing.
  cbv zeta in Hing.
  destruct (upload_workflow_outcome (H:=demo_externals) upload_without_type _
              initial_world _ eq_refl Hing) as [_ Hok].
  destruct (Hok ltac:(discriminate)) as (indexed & w2 & _ & Hrun).
  eexists _, _. split; [exact Hrun |].
  cbn [type coordinator_result].
  destruct (String.eqb (type indexed) ERROR); [right | left]; reflexivity.
Defined.

Lemma upload_unsupported_extension_witness :
  IngestionAgent.infer_parser_type "notes.rtf"
  = Error "Unsupported file type: notes.rtf"%string
  /\ exists out w',
       CoordinatorAgent.handle_message (H:=demo_externals) upload_unsupported
         initial_world = (Ok out, w')
       /\ type out = ERROR
       /\ invoked w' = ["CoordinatorAgent"%string; "IngestionAgent"%string]
       /\ processed_documents w' = ∅
       /\ uuids w' = 0%nat.
Proof.
  split; [reflexivity |].
  destruct (upload_unsupported_extension (H:=demo_externals) upload_unsupported
              initial_world "notes.rtf" "Unsupported file type: notes.rtf"
              eq_refl eq_refl eq_refl eq_refl)
    as (out & w' & Hrun & Hty & _ & Hinv & Hdocs & _ & _ & Hu).
  exists out, w'. split; [exact Hrun |]. split; [exact Hty |].
  split; [exact Hinv |]. split; [exact Hdocs | exact Hu].
Defined.

Lemma upload_blank_document_witness :
  all_space "   " = true
  /\ exists out w' doc,
       CoordinatorAgent.handle_message (H:=demo_externals) upload_blank initial_world
       = (Ok out, w')
       /\ type out = ERROR
       /\ dict_lookup "error" (payload out)
          = Some (PStr "Indexing failed: No chunks provided for indexing")
       /\ IngestionAgent.get_document w' "uuid-0" = Some doc
       /\ dict_lookup "chunks" doc = Some (PList [])
       /\ invoked w'
          = ["CoordinatorAgent"%string; "IngestionAgent"%string; "RetrievalAgent"%string].
Proof.
  split; [reflexivity |].
  destruct (upload_blank_document (H:=demo_externals) upload_blank initial_world
              "blank.txt" "text" "   "
              [("text", PStr "   "); ("metadata", PDict [("parser", PStr "text")])]
              [("parser", PStr "text")]
              eq_refl eq_refl eq_refl eq_refl eq_refl eq_refl eq_refl eq_refl)
    as (out & w' & doc & Hrun & Hty & Hpl & Hdoc & _ & _ & Hch & _ & _ & _ & Hinv).
  exists out, w', doc. split; [exact Hrun |]. split; [exact Hty |].
  split; [rewrite Hpl; reflexivity |]. split; [exact Hdoc |].
  split; [exact Hch | exact Hinv].
Defined.

Lemma index_document_all_chunks_witness :
  Forall indexable two_chunks
  /\ exists out w',
       RetrievalAgent.handle_message (H:=demo_externals) two_chunks_parsed initial_world
       = (Ok out, w')
       /\ type out = INGESTION_COMPLETE
       /\ dict_lookup "indexed_chunks" (payload out) = Some (PInt 2)
       /\ VectorStore.get_vector_count (vector_store w') = 2
       /\ stdout w'
          = [ "Warning: Failed to generate embedding: max_df corresponds to < documents than min_df" ].
Proof.
  assert (Hwf : Forall indexable two_chunks).
  { repeat constructor; cbn; eauto. }
  split; [exact Hwf |].
  destruct (index_document_all_chunks (H:=demo_externals) two_chunks_parsed
              initial_world two_chunks [("parser", PStr "text")]
              eq_refl eq_refl ltac:(discriminate) eq_refl Hwf demo_embeddings_fit)
    as (out & w' & Hrun & Hty & Hix & _ & Hcount & _ & Hout).
  exists out, w'. split; [exact Hrun |]. split; [exact Hty |].
  split; [exact Hix |]. split; [exact Hcount |].
  rewrite Hout. reflexivity.
Defined.

Lemma upload_indexes_every_chunk_witness :
  all_space "alpha beta gamma" = false
  /\ exists out w',
       CoordinatorAgent.handle_message (H:=demo_externals) upload_without_type
         initial_world = (Ok out, w')
       /\ type out = SUCCESS
       /\ dict_lookup "indexed_chunks" (payload out) = Some (PInt 1)
       /\ dict_lookup "document_id" (payload out) = Some (PStr "uuid-1")
       /\ VectorStore.get_vector_count (vector_store w') = 1
       /\ stdout w'
          = [ "Warning: Failed to generate embedding: max_df corresponds to < documents than min_df" ].
Proof.
  split; [reflexivity |].
  destruct (upload_indexes_every_chunk (H:=demo_externals) upload_without_type
              initial_world "Notes" ".TXT" "text" "alpha beta gamma"
              [("text", PStr "alpha beta gamma");
               ("metadata", PDict [("parser", PStr "text")])]
              [("parser", PStr "text")]
              eq_refl eq_refl ltac:(do 4 right; left; reflexivity)
              eq_refl eq_refl eq_refl eq_refl eq_refl
              demo_embeddings_fit)
    as (out & w' & doc & Hrun & Hty & Hpl & _ & _ & Hcount & _ & Hout).
  exists out, w'. split; [exact Hrun |]. split; [exact Hty |].
  split; [rewrite Hpl; reflexivity |]. split; [rewrite Hpl; reflexivity |].
  split; [exact Hcount |]. rewrite Hout. reflexivity.
Defined.

Lemma llm_reports_generator_failure_as_success_witness :
  contextual_response (Externals:=failing_llm_externals) (PInt 7)
    (PList [PDict [("id", PStr "c0"); ("text", PStr "alpha")]])
  = Error "'int' object has no attribute 'lower'"%string
  /\ exists out w',
       LLMResponseAgent.handle_message (H:=failing_llm_externals)
         retrieval_result_message initial_world = (Ok out, w')
       /\ type out = LLM_RESPONSE
       /\ dict_lookup "status" (payload out) = Some (PStr "success")
       /\ dict_lookup "context_chunks_used" (payload out) = Some (PInt 1).
Proof.
  split; [reflexivity |].
  pose proof (llm_reports_generator_failure_as_success (H:=failing_llm_externals)
                retrieval_result_message initial_world
                "'int' object has no attribute 'lower'" 1
                eq_refl eq_refl eq_refl eq_refl eq_refl) as Hrun.
  eexists _, _. split; [exact Hrun |]. repeat split.
Defined.

Lemma query_workflow_outcome_witness :
  type plain_query = QUERY_REQUEST
  /\ exists out w',
       CoordinatorAgent.handle_message (H:=demo_externals) plain_query initial_world
       = (Ok out, w')
       /\ (type out = SUCCESS \/ type out = ERROR).
Proof.
  split; [reflexivity |].
  pose proof (retrieval_on_empty_index (H:=demo_externals)
                (retrieval_request (H:=demo_externals) plain_query initial_world)
                (world_at_retrieval (H:=demo_externals) plain_query initial_world)
                eq_refl eq_refl eq_refl) as Hret.
  destruct (query_workflow_outcome (H:=demo_externals) plain_query _ initial_world _
              eq_refl Hret ltac:(discriminate))
    as (answer & w2 & _ & Hrun).
  eexists _, _. split; [exact Hrun |].
  cbn [type coordinator_result].
  destruct (String.eqb (type answer) ERROR); [right | left]; reflexivity.
Defined.

Lemma search_keeps_rows_in_range_witness :
  VectorStore.get_vector_count (H:=demo_externals) separate_store = 2
  /\ exists results,
       VectorStore.search (H:=demo_externals) separate_store [3; 4] (PInt 5)
       = Ok results
       /\ map snd results = [0; 0]
       /\ Forall (fun r : string * Z =>
                    is_Some (VectorStore.get_metadata (H:=demo_externals)
                               separate_store r.1)) results.
Proof.
  split; [reflexivity |].
  destruct (search_keeps_rows_in_range (H:=demo_externals) separate_store [3; 4]
              (PInt 5) (PInt 2) [(0, 0); (0, 1)] separate_store_reachable
              ltac:(vm_compute; discriminate) eq_refl eq_refl)
    as (_ & results & Hrun & Hscores & Hmeta).
  exists results. split; [exact Hrun |]. split; [rewrite Hscores; reflexivity | exact Hmeta].
Defined.

Lemma worker_agents_reject_other_types_witness :
  type status_message = STATUS_UPDATE
  /\ IngestionAgent.handle_message (H:=demo_externals) status_message initial_world
     = (Ok (unsupported_type_error (H:=demo_externals) "IngestionAgent"
              status_message 0),
        world_after_refusal (H:=demo_externals) "IngestionAgent" initial_world)
  /\ RetrievalAgent.handle_message (H:=demo_externals) status_message initial_world
     = (Ok (unsupported_type_error (H:=demo_externals) "RetrievalAgent"
              status_message 0),
        world_after_refusal (H:=demo_externals) "RetrievalAgent" initial_world)
  /\ LLMResponseAgent.handle_message (H:=demo_externals) status_message initial_world
     = (Ok (unsupported_type_error (H:=demo_externals) "LLMResponseAgent"
              status_message 0),
        world_after_refusal (H:=demo_externals) "LLMResponseAgent" initial_world).
Proof.
  split; [reflexivity |].
  destruct (worker_agents_reject_other_types (H:=demo_externals) status_message
              initial_world) as (Hi & Hr & Hl).
  split; [apply Hi; discriminate |].
  split; [apply Hr; discriminate | apply Hl; discriminate].
Defined.
